(** * File compressor API: job store, compression activities, workflow
      and Couchbase connection manager

    A shallow embedding of
      - [backend/db/models.py]             (Modules [Models] and
                                            [ModelsFiles]),
      - [backend/workflows/file_compression.py]
                                           (Modules [FileCompression] and
                                            [FileCompressionWorkflow]),
      - [backend/clients/couchbase.py]     (Modules [Couchbase] and
                                            [Keyspace]),
      - [backend/routes/base.py]           (Modules [Routes] and
                                            [ServiceChecks]),
    followed by the properties of the specification that concern them
    (C1 to C10) and by further properties of the code (X1 to X30).

    Conventions.
      - Python [bytes] is [list Byte.byte].
      - Python [int] is [Z]; [Optional[T]] is [option T].
      - [datetime.utcnow()] is an input [now : Z] of the function that
        reads the clock.
      - A raised exception is the left injection of a sum; only the class
        hierarchy below [Exception] is modelled (cancellation, which is a
        [BaseException], is not).
      - Python [str] is the [string] of its UTF-8 bytes; the NUL character
        is the byte 0.
      - A Python [float] is the rational value of an IEEE-754 binary64
        number; every float operation rounds its exact result to the
        nearest such number, ties to even (Module [Float]).  Results are
        far below the overflow threshold and overflow is not modelled.
      - The behaviour given to [base64], [zipfile] and [gzip] is that of
        CPython 3.11. *)

From Stdlib Require Import ZArith QArith Qround Qabs Qpower Lia List Ascii
  String.
From stdpp Require Import base option list strings pretty gmap.

Local Open Scope Z_scope.
Local Open Scope string_scope.
Local Open Scope list_scope.

Abbreviation bytes := (list Byte.byte).

(** ** Exceptions *)

(** [ApplicationError] is temporalio's; [Error] stands for any other subclass
    of [Exception] (its first argument is the class name). *)
Inductive Exception : Type :=
| ApplicationError (msg : string)
| Error (cls : string) (msg : string).

(** [str(e)] *)
Definition str (e : Exception) : string :=
  match e with
  | ApplicationError msg => msg
  | Error _ msg => msg
  end.

Abbreviation result A := (Exception + A)%type.

(** ** backend/db/models.py *)
Module Models.

Record CompressionJob : Type := mkCompressionJob {
  id : string;
  workflow_id : string;
  status : string;
  progress : Z;
  message : option string;
  file_count : Z;
  original_size : Z;
  compressed_size : option Z;
  compression_ratio : option Q;
  compression_format : string;
  created_at : Z;
  started_at : option Z;
  completed_at : option Z;
  compressed_data : option string
}.

(** The [compressionjob] table, keyed by its primary key [id]; a session
    is the table as the current transaction sees it. *)
Abbreviation Session := (gmap string CompressionJob).

(** Truth value of an [Optional[str]]: [None] and [""] are false. *)
Definition truthy_str (m : option string) : bool :=
  match m with
  | None => false
  | Some s => negb (String.eqb s "")
  end.

(** Truth value of an [Optional[datetime]]: only [None] is false. *)
Definition truthy_dt (t : option Z) : bool :=
  match t with
  | None => false
  | Some _ => true
  end.

Definition set_progress (p : Z) (j : CompressionJob) : CompressionJob :=
  mkCompressionJob (id j) (workflow_id j) (status j) p (message j)
    (file_count j) (original_size j) (compressed_size j)
    (compression_ratio j) (compression_format j) (created_at j)
    (started_at j) (completed_at j) (compressed_data j).

Definition set_status (s : string) (j : CompressionJob) : CompressionJob :=
  mkCompressionJob (id j) (workflow_id j) s (progress j) (message j)
    (file_count j) (original_size j) (compressed_size j)
    (compression_ratio j) (compression_format j) (created_at j)
    (started_at j) (completed_at j) (compressed_data j).

Definition set_message (m : option string) (j : CompressionJob)
  : CompressionJob :=
  mkCompressionJob (id j) (workflow_id j) (status j) (progress j) m
    (file_count j) (original_size j) (compressed_size j)
    (compression_ratio j) (compression_format j) (created_at j)
    (started_at j) (completed_at j) (compressed_data j).

Definition set_started_at (t : option Z) (j : CompressionJob)
  : CompressionJob :=
  mkCompressionJob (id j) (workflow_id j) (status j) (progress j)
    (message j) (file_count j) (original_size j) (compressed_size j)
    (compression_ratio j) (compression_format j) (created_at j)
    t (completed_at j) (compressed_data j).

Definition set_completed_at (t : option Z) (j : CompressionJob)
  : CompressionJob :=
  mkCompressionJob (id j) (workflow_id j) (status j) (progress j)
    (message j) (file_count j) (original_size j) (compressed_size j)
    (compression_ratio j) (compression_format j) (created_at j)
    (started_at j) t (compressed_data j).

Definition set_compressed_size (c : option Z) (j : CompressionJob)
  : CompressionJob :=
  mkCompressionJob (id j) (workflow_id j) (status j) (progress j)
    (message j) (file_count j) (original_size j) c
    (compression_ratio j) (compression_format j) (created_at j)
    (started_at j) (completed_at j) (compressed_data j).

Definition set_compression_ratio (r : option Q) (j : CompressionJob)
  : CompressionJob :=
  mkCompressionJob (id j) (workflow_id j) (status j) (progress j)
    (message j) (file_count j) (original_size j) (compressed_size j)
    r (compression_format j) (created_at j)
    (started_at j) (completed_at j) (compressed_data j).

Definition set_compressed_data (d : option string) (j : CompressionJob)
  : CompressionJob :=
  mkCompressionJob (id j) (workflow_id j) (status j) (progress j)
    (message j) (file_count j) (original_size j) (compressed_size j)
    (compression_ratio j) (compression_format j) (created_at j)
    (started_at j) (completed_at j) d.

(** [select(CompressionJob).where(CompressionJob.id == job_id)]
    followed by [scalar_one_or_none()] *)
Definition get_compression_job (session : Session) (job_id : string)
  : option CompressionJob :=
  session !! job_id.

(** [session.add(job); session.flush()] for a row that did not exist *)
Definition create_compression_job (session : Session) (job : CompressionJob)
  : Session * CompressionJob :=
  (<[id job := job]> session, job).

(** The assignments of [update_compression_job_progress] to the row it
    found, in source order. *)
Definition apply_progress (now : Z) (progress' : Z) (status' : string)
    (message' : option string) (job : CompressionJob) : CompressionJob :=
  let job := set_progress progress' job in
  let job := set_status status' job in
  let job := if truthy_str message' then set_message message' job else job in
  if String.eqb status' "starting" && negb (truthy_dt (started_at job))
  then set_started_at (Some now) job
  else if String.eqb status' "completed" || String.eqb status' "failed"
  then set_completed_at (Some now) job
  else job.

Definition update_compression_job_progress (now : Z) (session : Session)
    (job_id : string) (progress' : Z) (status' : string)
    (message' : option string) : Session * option CompressionJob :=
  match session !! job_id with
  | Some job =>
      let job := apply_progress now progress' status' message' job in
      (<[job_id := job]> session, Some job)
  | None => (session, None)
  end.

(** The assignments of [complete_compression_job], in source order. *)
Definition apply_complete (now : Z) (compressed_size' : Z)
    (compression_ratio' : Q) (compressed_data' : string)
    (job : CompressionJob) : CompressionJob :=
  let job := set_status "completed" job in
  let job := set_progress 100 job in
  let job := set_compressed_size (Some compressed_size') job in
  let job := set_compression_ratio (Some compression_ratio') job in
  let job := set_compressed_data (Some compressed_data') job in
  let job := set_completed_at (Some now) job in
  set_message (Some "Compression completed successfully") job.

Definition complete_compression_job (now : Z) (session : Session)
    (job_id : string) (compressed_size' : Z) (compression_ratio' : Q)
    (compressed_data' : string) : Session * option CompressionJob :=
  match session !! job_id with
  | Some job =>
      let job :=
        apply_complete now compressed_size' compression_ratio'
          compressed_data' job in
      (<[job_id := job]> session, Some job)
  | None => (session, None)
  end.

(** Terminal status of the specification's glossary. *)
Definition terminal (s : string) : bool :=
  String.eqb s "completed" || String.eqb s "failed".

(** The fields that neither store operation assigns. *)
Definition same_identity (j j' : CompressionJob) : Prop :=
  id j' = id j ∧ workflow_id j' = workflow_id j
  ∧ file_count j' = file_count j ∧ original_size j' = original_size j
  ∧ compression_format j' = compression_format j
  ∧ created_at j' = created_at j.

(** The result fields, which only [complete_compression_job] assigns. *)
Definition same_results (j j' : CompressionJob) : Prop :=
  compressed_size j' = compressed_size j
  ∧ compression_ratio j' = compression_ratio j
  ∧ compressed_data j' = compressed_data j.

End Models.

(** ** Python library functions used by the activities

    [base64], [zipfile] and [gzip] are not part of the repository.  What
    they compute (the decoded bytes, the bytes of an archive) is a record
    of functions; when they raise on a name or on a compression level is
    written out below, as CPython does it. *)

(** A [ZipFile] opened for writing: the entries written to it so far, and
    whether a handle for writing an entry is still open. *)
Record ZipFile : Type := mkZipFile {
  compresslevel : Z;
  filelist : list (string * bytes);
  _writing : bool
}.

(** [zipfile.ZipFile(buffer, 'w', ZIP_DEFLATED, compresslevel=level)] *)
Definition ZipFile_open (level : Z) : ZipFile := mkZipFile level [] false.

(** [ZipInfo(filename)] keeps a name up to its first NUL character. *)
Fixpoint arcname (name : string) : string :=
  match name with
  | EmptyString => EmptyString
  | String c rest =>
      if Ascii.eqb c Ascii.zero then EmptyString
      else String c (arcname rest)
  end.

(** The levels that zlib accepts, and the integers that fit its C [int]
    argument. *)
Definition zlib_level (level : Z) : bool :=
  ((-1 <=? level)%Z && (level <=? 9)%Z)%bool.

Definition c_int (n : Z) : bool :=
  ((- 2 ^ 31 <=? n)%Z && (n <? 2 ^ 31)%Z)%bool.

(** [zlib.compressobj(level, ...)], as far as it raises *)
Definition compressobj (level : Z) : result unit :=
  if negb (c_int level)
  then inl (Error "OverflowError" "Python int too large to convert to C int")
  else if negb (zlib_level level)
  then inl (Error "ValueError" "Invalid initialization option")
  else inr tt.

(** [zip_file.writestr(name, data)].  The name is cut at a NUL character;
    [zinfo.filename[-1]] raises on an empty name; nothing is written
    while a handle is open; the file header has sixteen bits for the
    length of the name; the handle for the entry is opened before the
    compressor is created, and stays open when that fails.  Otherwise the
    archive has one more entry, after the others.  (The clock, which
    stamps the entry, is taken to read a date from 1980 on.) *)
Definition writestr (zf : ZipFile) (name : string) (data : bytes)
  : ZipFile * result unit :=
  let filename := arcname name in
  if decide (filename = "")
  then (zf, inl (Error "IndexError" "string index out of range"))
  else if _writing zf
  then (zf, inl (Error "ValueError"
                   ("Can't write to ZIP archive while an open writing "
                    +:+ "handle exists.")))
  else if (65535 <? Z.of_nat (String.length filename))%Z
  then (zf, inl (Error "struct.error"
                   "ushort format requires 0 <= number <= 65535"))
  else
    match compressobj (compresslevel zf) with
    | inl e => (mkZipFile (compresslevel zf) (filelist zf) true, inl e)
    | inr _ =>
        (mkZipFile (compresslevel zf) (filelist zf ++ [(filename, data)])
           false,
         inr tt)
    end.

(** [zip_file.close()] *)
Definition ZipFile_close (zf : ZipFile) : result unit :=
  if _writing zf
  then inl (Error "ValueError"
              ("Can't close the ZIP file while there is an open writing "
               +:+ "handle on it. Close the writing handle before closing "
               +:+ "the zip."))
  else inr tt.

(** The archives that [writestr] builds. *)
Inductive written : ZipFile -> Prop :=
| written_open (level : Z) : written (ZipFile_open level)
| written_writestr (zf zf' : ZipFile) (name : string) (data : bytes) :
    written zf -> writestr zf name data = (zf', inr tt) -> written zf'.

Record PyLib : Type := mkPyLib {
  (** [base64.b64decode], which raises on malformed input *)
  b64decode : string -> result bytes;
  (** [base64.b64encode(data).decode()] *)
  b64encode : bytes -> string;
  (** the bytes in the buffer once the [ZipFile] is closed *)
  zip_bytes : ZipFile -> bytes;
  (** reading an archive back: its entries, in order, decompressed *)
  zip_read : bytes -> option (list (string * bytes));
  (** the gzip stream of some data, at a level that zlib accepts *)
  gzip_bytes : bytes -> Z -> bytes
}.

(** [gzip.compress(data, compresslevel=level)] *)
Definition gzip_compress (lib : PyLib) (data : bytes) (level : Z)
  : result bytes :=
  if negb (c_int level)
  then inl (Error "OverflowError" "Python int too large to convert to C int")
  else if negb (zlib_level level)
  then inl (Error "zlib.error" "Bad compression level")
  else inr (gzip_bytes lib data level).

(** What [zipfile] promises: an archive built by [writestr] reads back as
    the entries written to it. *)
Definition zip_roundtrip (lib : PyLib) : Prop :=
  forall zf : ZipFile,
    written zf -> zip_read lib (zip_bytes lib zf) = Some (filelist zf).

(** ** Python floats *)
Module Float.

Definition pow2 (e : Z) : Q := (2 ^ e)%Q.

(** The integer part of the binary logarithm of a positive rational. *)
Definition ilog2 (q : Q) : Z :=
  let l := (Z.log2 (Qnum q) - Z.log2 (Zpos (Qden q)))%Z in
  if Qle_bool (pow2 l) q then l else (l - 1)%Z.

Definition round_half_even (q : Q) : Z :=
  let f := Qfloor q in
  match (q - inject_Z f ?= 1 # 2)%Q with
  | Lt => f
  | Gt => (f + 1)%Z
  | Eq => if Z.even f then f else (f + 1)%Z
  end.

(** The exponent of the unit in the last place: 53 significant bits, and
    the subnormal numbers at the bottom of the range. *)
Definition exponent (q : Q) : Z := Z.max (ilog2 (Qabs q) - 52) (-1074).

(** The binary64 number nearest to [q]. *)
Definition fl (q : Q) : Q :=
  if Qeq_bool q 0 then 0%Q
  else (inject_Z (round_half_even (q / pow2 (exponent q)))
          * pow2 (exponent q))%Q.

(** [a / b] on integers, [x * y] on floats *)
Definition truediv (a b : Z) : Q := fl (inject_Z a / inject_Z b).
Definition mul (x y : Q) : Q := fl (x * y).

End Float.

(** ** backend/workflows/file_compression.py *)
Module FileCompression.

Module FileItem.
Record t : Type := mk {
  name : string;
  content : string;   (* Base64 encoded content *)
  size : Z
}.
End FileItem.

Module CompressionJobInput.
Record t : Type := mk {
  job_id : string;
  files : list FileItem.t;
  compression_format : string;
  compression_level : Z
}.
End CompressionJobInput.

Module CompressionJobResult.
Record t : Type := mk {
  job_id : string;
  compressed_data : string;
  original_size : Z;
  compressed_size : Z;
  compression_ratio : Q;
  status : string
}.
End CompressionJobResult.

Module ProgressUpdate.
Record t : Type := mk {
  job_id : string;
  progress : Z;
  status : string;
  message : option string
}.
End ProgressUpdate.

(** *** Activity [update_job_progress] *)

(** The calls of the activity body that can raise.  [PostgresClient] and
    [conf] are outside the embedded sources, so whether each of them
    raises is an input of the model.  The function-level imports that
    precede the [try] statement are taken to succeed. *)
Inductive Step : Type :=
| GetPostgresConf | GetPostgresPoolConf | NewPostgresClient
| Initialize | InitConnection | EnterSession
| Execute | Flush | ExitSession | Close.

(** [raises] says which calls raise.  [PostgresClient.get_session] is
    taken to commit when the session block and the [close] that follows
    it end without raising; whether the flushed row is in the table when
    leaving the session or closing the client raises is its business,
    and an input too: [flushed_row_kept]. *)
Record Faults : Type := mkFaults {
  raises :> Step -> option Exception;
  flushed_row_kept : Step -> bool
}.

Inductive Level : Type := INFO | ERROR.
Abbreviation Log := (list (Level * string)).

(** The database as the activity leaves it, and the activity's log. *)
Record Db : Type := mkDb {
  db_session : Models.Session;
  db_log : Log
}.

Definition logger (lvl : Level) (line : string) (db : Db) : Db :=
  mkDb (db_session db) (db_log db ++ [(lvl, line)]).

(** A call that raises what [faults] says and otherwise does nothing
    visible. *)
Definition call (faults : Faults) (st : Step) : result unit :=
  match faults st with
  | Some e => inl e
  | None => inr tt
  end.

(** The [await update_compression_job_progress(session, ...)] inside the
    session block: the statement may raise before the row is touched, the
    flush (reached only when the row exists) before it is written. *)
Definition session_update (faults : Faults) (now : Z)
    (session : Models.Session) (p : ProgressUpdate.t)
  : Models.Session * result unit :=
  match call faults Execute with
  | inl e => (session, inl e)
  | inr _ =>
      let '(session', job) :=
        Models.update_compression_job_progress now session
          (ProgressUpdate.job_id p) (ProgressUpdate.progress p)
          (ProgressUpdate.status p) (ProgressUpdate.message p) in
      match job, call faults Flush with
      | Some _, inl e => (session, inl e)
      | _, _ => (session', inr tt)
      end
  end.

(** The body of the [try] block. *)
Definition update_job_progress_try (faults : Faults) (now : Z)
    (session : Models.Session) (p : ProgressUpdate.t)
  : Models.Session * result unit :=
  match call faults GetPostgresConf with inl e => (session, inl e) | inr _ =>
  match call faults GetPostgresPoolConf with inl e => (session, inl e) | inr _ =>
  match call faults NewPostgresClient with inl e => (session, inl e) | inr _ =>
  match call faults Initialize with inl e => (session, inl e) | inr _ =>
  match call faults InitConnection with inl e => (session, inl e) | inr _ =>
  match call faults EnterSession with inl e => (session, inl e) | inr _ =>
  match session_update faults now session p with
  | (session', inl e) => (session', inl e)
  | (session', inr _) =>
  match call faults ExitSession with
  | inl e =>
      (if flushed_row_kept faults ExitSession then session' else session,
       inl e)
  | inr _ =>
  match call faults Close with
  | inl e =>
      (if flushed_row_kept faults Close then session' else session, inl e)
  | inr _ => (session', inr tt)
  end end end end end end end end end.

Definition update_job_progress (faults : Faults) (now : Z) (db : Db)
    (p : ProgressUpdate.t) : Db * result unit :=
  let db :=
    logger INFO
      ("Updating progress for job " +:+ ProgressUpdate.job_id p +:+ ": "
         +:+ pretty (ProgressUpdate.progress p) +:+ "%") db in
  match update_job_progress_try faults now (db_session db) p with
  | (session', inr _) => (mkDb session' (db_log db), inr tt)
  | (session', inl e) =>
      (* except Exception as e: log, then pass *)
      let db := mkDb session' (db_log db) in
      (logger ERROR ("Failed to update progress in database: " +:+ str e) db,
       inr tt)
  end.

(** *** Activities [compress_files_zip] and [compress_files_tar_gz] *)

Definition decode_failure (f : FileItem.t) (e : Exception) : Exception :=
  ApplicationError
    ("Failed to decode file " +:+ FileItem.name f +:+ ": " +:+ str e).

(** The [for file_item in input.files] loop inside the [with] block:
    the archive as the loop leaves it, and whether it raised. *)
Fixpoint zip_loop (lib : PyLib) (zip_file : ZipFile)
    (files : list FileItem.t) : ZipFile * result unit :=
  match files with
  | [] => (zip_file, inr tt)
  | file_item :: rest =>
      match b64decode lib (FileItem.content file_item) with
      | inl e => (zip_file, inl (decode_failure file_item e))
      | inr file_content =>
          match writestr zip_file (FileItem.name file_item) file_content with
          | (zip_file, inl e) => (zip_file, inl e)
          | (zip_file, inr _) => zip_loop lib zip_file rest
          end
      end
  end.

(** Leaving the [with] block closes the archive, also when the block
    raised; an exception raised by [close] is the one that propagates. *)
Definition compress_files_zip (lib : PyLib) (input : CompressionJobInput.t)
  : result bytes :=
  let '(zip_file, block) :=
    zip_loop lib
      (ZipFile_open (CompressionJobInput.compression_level input))
      (CompressionJobInput.files input) in
  match ZipFile_close zip_file, block with
  | inl e, _ => inl e
  | inr _, inl e => inl e
  | inr _, inr _ => inr (zip_bytes lib zip_file)
  end.

Definition newline : string := String (ascii_of_nat 10) EmptyString.

(** [s.encode()] *)
Definition encode (s : string) : bytes := list_byte_of_string s.

Fixpoint tar_gz_loop (lib : PyLib) (combined_content : bytes)
    (files : list FileItem.t) : result bytes :=
  match files with
  | [] => inr combined_content
  | file_item :: rest =>
      match b64decode lib (FileItem.content file_item) with
      | inl e => inl (decode_failure file_item e)
      | inr file_content =>
          tar_gz_loop lib
            (combined_content
               ++ encode ("--- " +:+ FileItem.name file_item +:+ " ---"
                            +:+ newline)
               ++ file_content
               ++ encode (newline +:+ newline))
            rest
      end
  end.

Definition compress_files_tar_gz (lib : PyLib)
    (input : CompressionJobInput.t) : result bytes :=
  match tar_gz_loop lib [] (CompressionJobInput.files input) with
  | inl e => inl e
  | inr combined_content =>
      gzip_compress lib combined_content
        (CompressionJobInput.compression_level input)
  end.

(** The content of a file item decodes. *)
Definition decodable (lib : PyLib) (f : FileItem.t) : Prop :=
  ∃ data, b64decode lib (FileItem.content f) = inr data.

(** An archive entry carries the name and the decoded content of a file
    item. *)
Definition entry_of (lib : PyLib) (f : FileItem.t) (e : string * bytes)
  : Prop :=
  e.1 = FileItem.name f ∧ b64decode lib (FileItem.content f) = inr e.2.

(** [writestr] accepts a name: what precedes its first NUL character is
    not empty and at most 65535 bytes long. *)
Definition zip_name_ok (name : string) : Prop :=
  arcname name ≠ "" ∧ (Z.of_nat (String.length (arcname name)) <= 65535)%Z.

(** A name that [writestr] stores as it is: not empty, without a NUL
    character, at most 65535 bytes long. *)
Definition storable (name : string) : Prop :=
  name ≠ "" ∧ arcname name = name
  ∧ (Z.of_nat (String.length name) <= 65535)%Z.

(** The zip loop gets past a file item: its content decodes, [writestr]
    accepts its name, and zlib the compression level. *)
Definition zip_accepts (lib : PyLib) (level : Z) (f : FileItem.t) : Prop :=
  decodable lib f ∧ zip_name_ok (FileItem.name f) ∧ (-1 <= level <= 9)%Z.

(** The entry that [writestr] makes of a file item. *)
Definition zip_entry_of (lib : PyLib) (f : FileItem.t) (e : string * bytes)
  : Prop :=
  e.1 = arcname (FileItem.name f)
  ∧ b64decode lib (FileItem.content f) = inr e.2.

End FileCompression.

(** ** The workflow [FileCompressionWorkflow] *)
Module FileCompressionWorkflow.
Import FileCompression.

(** What the workflow asks of the Temporal runtime. *)
Inductive Activity : Type :=
| UpdateJobProgress (p : ProgressUpdate.t)
| CompressFilesZip (input : CompressionJobInput.t)
| CompressFilesTarGz (input : CompressionJobInput.t).

Inductive Event : Type :=
| ExecuteActivity (a : Activity) (start_to_close_timeout : Z)
| WorkflowSleep (seconds : Z).

(** The runtime that executes activities on behalf of the workflow.  Its
    own state [S] (workers, database, clock) is threaded through the
    calls; an activity invocation either returns or raises in the
    workflow. *)
Record Runtime (S : Type) : Type := mkRuntime {
  exec_update_job_progress : S -> ProgressUpdate.t -> Z -> S * result unit;
  exec_compress_files_zip : S -> CompressionJobInput.t -> Z -> S * result bytes;
  exec_compress_files_tar_gz :
    S -> CompressionJobInput.t -> Z -> S * result bytes;
  exec_sleep : S -> Z -> S
}.
Arguments exec_update_job_progress {S}.
Arguments exec_compress_files_zip {S}.
Arguments exec_compress_files_tar_gz {S}.
Arguments exec_sleep {S}.

(** [str.lower()], on the ASCII letters; the workflow only compares its
    result with ASCII literals. *)
Definition lower_ascii (c : ascii) : ascii :=
  let n := nat_of_ascii c in
  if ((65 <=? n)%nat && (n <=? 90)%nat)%bool
  then ascii_of_nat (n + 32)
  else c.

Fixpoint lower (s : string) : string :=
  match s with
  | EmptyString => EmptyString
  | String c rest => String (lower_ascii c) (lower rest)
  end.

(** [(original_size - compressed_size) / original_size * 100
     if original_size > 0 else 0] *)
Definition ratio (original_size compressed_size : Z) : Q :=
  if (0 <? original_size)%Z
  then Float.mul (Float.truediv (original_size - compressed_size)
                    original_size)
         (inject_Z 100)
  else inject_Z 0.

Section Workflow.
Context {S : Type} (rt : Runtime S) (lib : PyLib).

(** Workflow computations: the runtime state and the history of events
    are threaded, the outcome is a value or a raised exception. *)
Definition W (A : Type) : Type :=
  S * list Event -> (S * list Event) * result A.

Definition ret {A} (a : A) : W A := fun st => (st, inr a).

Definition raise {A} (e : Exception) : W A := fun st => (st, inl e).

Definition bind {A B} (m : W A) (k : A -> W B) : W B :=
  fun st =>
    match m st with
    | (st', inl e) => (st', inl e)
    | (st', inr a) => k a st'
    end.

(** [try: body  except Exception as e: handler e] *)
Definition try_except {A} (body : W A) (handler : Exception -> W A) : W A :=
  fun st =>
    match body st with
    | (st', inl e) => handler e st'
    | (st', inr a) => (st', inr a)
    end.

Definition execute_update_job_progress (p : ProgressUpdate.t)
    (start_to_close_timeout : Z) : W unit :=
  fun '(s, history) =>
    let '(s', r) :=
      exec_update_job_progress rt s p start_to_close_timeout in
    ((s', (history
             ++ [ExecuteActivity (UpdateJobProgress p)
                   start_to_close_timeout])%list), r).

Definition execute_compress_files_zip (input : CompressionJobInput.t)
    (start_to_close_timeout : Z) : W bytes :=
  fun '(s, history) =>
    let '(s', r) :=
      exec_compress_files_zip rt s input start_to_close_timeout in
    ((s', (history
             ++ [ExecuteActivity (CompressFilesZip input)
                   start_to_close_timeout])%list), r).

Definition execute_compress_files_tar_gz (input : CompressionJobInput.t)
    (start_to_close_timeout : Z) : W bytes :=
  fun '(s, history) =>
    let '(s', r) :=
      exec_compress_files_tar_gz rt s input start_to_close_timeout in
    ((s', (history
             ++ [ExecuteActivity (CompressFilesTarGz input)
                   start_to_close_timeout])%list), r).

Definition sleep (seconds : Z) : W unit :=
  fun '(s, history) =>
    ((exec_sleep rt s seconds, (history ++ [WorkflowSleep seconds])%list),
     inr tt).

Notation "'do' x <- m ; k" := (bind m (fun x => k))
  (at level 10, x name, m at level 100, k at level 200).
Notation "'await' m ; k" := (bind m (fun _ => k))
  (at level 10, m at level 100, k at level 200).

(** The [try] block of [run]. *)
Definition run_try (input : CompressionJobInput.t)
  : W CompressionJobResult.t :=
  let job_id := CompressionJobInput.job_id input in
  await execute_update_job_progress
    (ProgressUpdate.mk job_id 0 "starting"
       (Some "Initializing compression")) 10 ;
  let original_size :=
    fold_left Z.add
      (map FileItem.size (CompressionJobInput.files input)) 0 in
  await execute_update_job_progress
    (ProgressUpdate.mk job_id 25 "preparing"
       (Some "Preparing files for compression")) 10 ;
  await sleep 1 ;
  await execute_update_job_progress
    (ProgressUpdate.mk job_id 50 "compressing"
       (Some "Compressing files")) 10 ;
  do compressed_data <-
    (if String.eqb (lower (CompressionJobInput.compression_format input))
          "zip"
     then execute_compress_files_zip input 300
     else if String.eqb
               (lower (CompressionJobInput.compression_format input))
               "tar_gz"
     then execute_compress_files_tar_gz input 300
     else raise
            (ApplicationError
               ("Unsupported compression format: "
                  +:+ CompressionJobInput.compression_format input))) ;
  let compressed_size := Z.of_nat (length compressed_data) in
  let compression_ratio := ratio original_size compressed_size in
  await execute_update_job_progress
    (ProgressUpdate.mk job_id 90 "finalizing"
       (Some "Finalizing compression")) 10 ;
  let compressed_data_b64 := b64encode lib compressed_data in
  await execute_update_job_progress
    (ProgressUpdate.mk job_id 100 "completed"
       (Some "Compression completed successfully")) 10 ;
  ret (CompressionJobResult.mk job_id compressed_data_b64 original_size
         compressed_size compression_ratio "completed").

(** The [except Exception as e] block of [run]. *)
Definition run_except (input : CompressionJobInput.t) (e : Exception)
  : W CompressionJobResult.t :=
  await execute_update_job_progress
    (ProgressUpdate.mk (CompressionJobInput.job_id input) 0 "failed"
       (Some ("Compression failed: " +:+ str e))) 10 ;
  raise (ApplicationError ("Compression workflow failed: " +:+ str e)).

Definition run (input : CompressionJobInput.t)
  : W CompressionJobResult.t :=
  try_except (run_try input) (run_except input).

End Workflow.

(** The runtime in which every activity is the function of
    [file_compression.py] itself, run once: the state is a clock and the
    database. *)
Definition direct (faults : Faults) (lib : PyLib) : Runtime (Z * Db) :=
  {| exec_update_job_progress := fun '(now, db) p _ =>
       let '(db', r) := update_job_progress faults now db p in
       ((now, db'), r);
     exec_compress_files_zip := fun s input _ =>
       (s, compress_files_zip lib input);
     exec_compress_files_tar_gz := fun s input _ =>
       (s, compress_files_tar_gz lib input);
     exec_sleep := fun '(now, db) seconds => (now + seconds, db) |}.

(** The progress reports among the events of a history, in order. *)
Fixpoint progress_reports (history : list Event) : list ProgressUpdate.t :=
  match history with
  | [] => []
  | ExecuteActivity (UpdateJobProgress p) _ :: rest =>
      p :: progress_reports rest
  | _ :: rest => progress_reports rest
  end.

(** The activity invocations among the events of a history. *)
Fixpoint activities (history : list Event) : list Activity :=
  match history with
  | [] => []
  | ExecuteActivity a _ :: rest => a :: activities rest
  | WorkflowSleep _ :: rest => activities rest
  end.

Definition is_archive_building (a : Activity) : bool :=
  match a with
  | UpdateJobProgress _ => false
  | CompressFilesZip _ | CompressFilesTarGz _ => true
  end.

Definition milestone (p : ProgressUpdate.t) : string * Z :=
  (ProgressUpdate.status p, ProgressUpdate.progress p).

(** The five reports of a run that succeeds. *)
Definition happy_path (job_id : string) : list ProgressUpdate.t :=
  [ ProgressUpdate.mk job_id 0 "starting" (Some "Initializing compression");
    ProgressUpdate.mk job_id 25 "preparing"
      (Some "Preparing files for compression");
    ProgressUpdate.mk job_id 50 "compressing" (Some "Compressing files");
    ProgressUpdate.mk job_id 90 "finalizing" (Some "Finalizing compression");
    ProgressUpdate.mk job_id 100 "completed"
      (Some "Compression completed successfully") ].

(** The report the [except] block sends for the exception [e]. *)
Definition failed_report (job_id : string) (e : Exception)
  : ProgressUpdate.t :=
  ProgressUpdate.mk job_id 0 "failed"
    (Some ("Compression failed: " +:+ str e)).

(** The format is neither zip nor tar_gz, compared case-insensitively. *)
Definition unsupported (input : CompressionJobInput.t) : Prop :=
  lower (CompressionJobInput.compression_format input) ≠ "zip"
  ∧ lower (CompressionJobInput.compression_format input) ≠ "tar_gz".

(** Progress reporting never raises in the workflow under [rt]. *)
Definition reports_return {S} (rt : Runtime S) : Prop :=
  ∀ s p timeout, (exec_update_job_progress rt s p timeout).2 = inr tt.

End FileCompressionWorkflow.

(** ** backend/clients/couchbase.py *)
Module Couchbase.

Record CouchbaseConf : Type := mkCouchbaseConf {
  host : string;
  username : string;
  password : string;
  bucket : string;
  protocol : string
}.

Definition get_connection_url (c : CouchbaseConf) : string :=
  protocol c +:+ "://" +:+ host c +:+ "/" +:+ bucket c.

(** A ready cluster handle, as [_create_cluster] returns it. *)
Record Cluster : Type := mkCluster {
  connection_url : string;
  verify_credentials : bool
}.

(** Handle of an [asyncio] task. *)
Abbreviation Task := nat.

(** The attributes of a [CouchbaseClient]. *)
Record CouchbaseClient : Type := mkCouchbaseClient {
  _cluster : option Cluster;
  _config : option CouchbaseConf;
  _initialized : bool;
  _connected : bool;
  _connection_task : option Task;
  _last_connection_error : option string;
  _last_error_log_time : Q
}.

(** [CouchbaseClient(config)] *)
Definition __init__ (config : option CouchbaseConf) : CouchbaseClient :=
  mkCouchbaseClient None config false false None None (inject_Z 0).

(** The client together with the event loop it runs on: [loop_tasks] are
    the tasks that are executing [_connection_retry_loop] and have not
    finished, in creation order. *)
Record World : Type := mkWorld {
  self : CouchbaseClient;
  loop_tasks : list Task;
  next_task : Task
}.

Definition initialize (c : CouchbaseClient) : result CouchbaseClient :=
  match _config c with
  | None => inl (Error "ValueError" "CouchbaseConf required")
  | Some _ =>
      inr (mkCouchbaseClient (_cluster c) (_config c) true (_connected c)
             (_connection_task c) (_last_connection_error c)
             (_last_error_log_time c))
  end.

(** [asyncio.create_task(self._connection_retry_loop())] schedules a new
    task; its handle is stored in [_connection_task]. *)
Definition init_connection (w : World) : World :=
  let c := self w in
  if negb (_initialized c) then w
  else
    let task := next_task w in
    mkWorld
      (mkCouchbaseClient (_cluster c) (_config c) (_initialized c)
         (_connected c) (Some task) (_last_connection_error c)
         (_last_error_log_time c))
      (loop_tasks w ++ [task])
      (Datatypes.S task).

Definition finish (task : Task) (tasks : list Task) : list Task :=
  filter (fun t => t ≠ task) tasks.

(** One turn of the [while not self._connected] loop of task [task], up to
    its [await asyncio.sleep(1)]: [attempt] is what [_create_cluster]
    does this time, [current_time] what [time.time()] returns. *)
Definition _connection_retry_loop (attempt : result Cluster)
    (current_time : Q) (task : Task) (w : World) : World :=
  let c := self w in
  if negb (bool_decide (task ∈ loop_tasks w)) then w
  else if _connected c
  then mkWorld c (finish task (loop_tasks w)) (next_task w)
  else
    match attempt with
    | inr cluster =>
        mkWorld
          (mkCouchbaseClient (Some cluster) (_config c) (_initialized c)
             true (_connection_task c) (_last_connection_error c)
             (_last_error_log_time c))
          (finish task (loop_tasks w)) (next_task w)
    | inl e =>
        let log_time :=
          if Qle_bool (inject_Z 10) (current_time - _last_error_log_time c)
          then current_time
          else _last_error_log_time c in
        mkWorld
          (mkCouchbaseClient (_cluster c) (_config c) (_initialized c)
             (_connected c) (_connection_task c) (Some (str e)) log_time)
          (loop_tasks w) (next_task w)
    end.

Definition close (c : CouchbaseClient) : CouchbaseClient :=
  match _cluster c with
  | Some _ =>
      mkCouchbaseClient None (_config c) false (_connected c)
        (_connection_task c) (_last_connection_error c)
        (_last_error_log_time c)
  | None => c
  end.

(** The dictionary returned by [health_check]; [last_error] is present
    only in the [connecting] answer. *)
Record Health : Type := mkHealth {
  connected : bool;
  status : string;
  last_error : option (option string)
}.

Definition health_check (c : CouchbaseClient) : Health :=
  if negb (_initialized c)
  then mkHealth false "not_initialized" None
  else if negb (_connected c)
  then mkHealth false "connecting" (Some (_last_connection_error c))
  else mkHealth true "healthy" None.

(** A retry loop is active: some task is executing it and the client is
    not connected yet, so the task's next turn attempts to connect. *)
Definition loop_active (w : World) : Prop :=
  loop_tasks w ≠ [] ∧ _connected (self w) = false.

End Couchbase.

(** ** An instance of the library interface

    A self-contained [PyLib] on which the model can be run: base64 over
    the standard alphabet (non-alphabet characters are skipped, as
    [b64decode] does without [validate]), and containers that store
    their payload uncompressed. *)
Module Stored.

Definition b64_index (c : ascii) : option N :=
  let n := N_of_ascii c in
  if ((65 <=? n) && (n <=? 90))%N then Some (n - 65)%N
  else if ((97 <=? n) && (n <=? 122))%N then Some (n - 71)%N
  else if ((48 <=? n) && (n <=? 57))%N then Some (n + 4)%N
  else if (n =? 43)%N then Some 62%N
  else if (n =? 47)%N then Some 63%N
  else None.

Definition b64_char (v : N) : ascii :=
  if (v <? 26)%N then ascii_of_N (v + 65)
  else if (v <? 52)%N then ascii_of_N (v + 71)
  else if (v <? 62)%N then ascii_of_N (v - 4)
  else if (v =? 62)%N then "+"%char
  else "/"%char.

Definition byte_of_N (n : N) : Byte.byte :=
  default Byte.x00 (Byte.of_N (n mod 256)).

(** The 6-bit values of the alphabet characters of [s], in order. *)
Fixpoint sextets (s : string) : list N :=
  match s with
  | EmptyString => []
  | String c rest =>
      match b64_index c with
      | Some v => v :: sextets rest
      | None => sextets rest
      end
  end.

Fixpoint pads (s : string) : nat :=
  match s with
  | EmptyString => 0
  | String c rest =>
      if Ascii.eqb c "="%char then Datatypes.S (pads rest) else pads rest
  end.

Fixpoint decode_sextets (vs : list N) : bytes :=
  match vs with
  | a :: b :: c :: d :: rest =>
      let w := (a * 262144 + b * 4096 + c * 64 + d)%N in
      byte_of_N (w / 65536) :: byte_of_N (w / 256) :: byte_of_N w
        :: decode_sextets rest
  | [a; b; c] =>
      let w := (a * 4096 + b * 64 + c)%N in
      [byte_of_N (w / 1024); byte_of_N (w / 4)]
  | [a; b] => [byte_of_N ((a * 64 + b) / 16)]
  | _ => []
  end.

Definition b64decode (s : string) : result bytes :=
  let vs := sextets s in
  let n := length vs in
  match (n mod 4)%nat with
  | 1%nat =>
      inl (Error "binascii.Error"
             ("Invalid base64-encoded string: number of data characters ("
                +:+ pretty n
                +:+ ") cannot be 1 more than a multiple of 4"))
  | 2%nat =>
      if (2 <=? pads s)%nat then inr (decode_sextets vs)
      else inl (Error "binascii.Error" "Incorrect padding")
  | 3%nat =>
      if (1 <=? pads s)%nat then inr (decode_sextets vs)
      else inl (Error "binascii.Error" "Incorrect padding")
  | _ => inr (decode_sextets vs)
  end.

Fixpoint b64encode (data : bytes) : string :=
  match data with
  | x :: y :: z :: rest =>
      let w := (Byte.to_N x * 65536 + Byte.to_N y * 256 + Byte.to_N z)%N in
      String (b64_char (w / 262144))
        (String (b64_char ((w / 4096) mod 64))
           (String (b64_char ((w / 64) mod 64))
              (String (b64_char (w mod 64)) (b64encode rest))))
  | [x; y] =>
      let w := ((Byte.to_N x * 256 + Byte.to_N y) * 4)%N in
      String (b64_char (w / 4096))
        (String (b64_char ((w / 64) mod 64))
           (String (b64_char (w mod 64)) "="))
  | [x] =>
      let w := (Byte.to_N x * 16)%N in
      String (b64_char (w / 64)) (String (b64_char (w mod 64)) "==")
  | [] => ""
  end.

(** A length-prefixed field: the length in unary, then the bytes. *)
Definition field (bs : bytes) : bytes :=
  repeat Byte.x01 (length bs) ++ Byte.x00 :: bs.

Fixpoint entries_bytes (es : list (string * bytes)) : bytes :=
  match es with
  | [] => [Byte.x00]
  | (name, data) :: rest =>
      Byte.x01 :: field (list_byte_of_string name) ++ field data
        ++ entries_bytes rest
  end.

Definition zip_bytes (zf : ZipFile) : bytes := entries_bytes (filelist zf).

Fixpoint read_len (bs : bytes) : option (nat * bytes) :=
  match bs with
  | [] => None
  | b :: rest =>
      if Byte.eqb b Byte.x00 then Some (0%nat, rest)
      else if Byte.eqb b Byte.x01 then
        match read_len rest with
        | Some (n, rest') => Some (Datatypes.S n, rest')
        | None => None
        end
      else None
  end.

Definition read_field (bs : bytes) : option (bytes * bytes) :=
  match read_len bs with
  | Some (n, rest) =>
      if (n <=? length rest)%nat then Some (take n rest, drop n rest)
      else None
  | None => None
  end.

Fixpoint read_entries (fuel : nat) (bs : bytes)
  : option (list (string * bytes)) :=
  match fuel, bs with
  | Datatypes.S fuel, b :: rest =>
      if Byte.eqb b Byte.x00 then
        match rest with [] => Some [] | _ => None end
      else if Byte.eqb b Byte.x01 then
        match read_field rest with
        | Some (name, rest1) =>
            match read_field rest1 with
            | Some (data, rest2) =>
                match read_entries fuel rest2 with
                | Some es => Some ((string_of_list_byte name, data) :: es)
                | None => None
                end
            | None => None
            end
        | None => None
        end
      else None
  | _, _ => None
  end.

Definition zip_read (blob : bytes) : option (list (string * bytes)) :=
  read_entries (length blob) blob.

Definition gzip_bytes (data : bytes) (level : Z) : bytes :=
  Byte.x1f :: Byte.x8b :: data.

Definition lib : PyLib :=
  mkPyLib b64decode b64encode zip_bytes zip_read gzip_bytes.

(** A database unavailable at every step. *)
Definition unavailable : FileCompression.Faults :=
  FileCompression.mkFaults
    (fun _ => Some (Error "ConnectionRefusedError" "connection refused"))
    (fun _ => false).

Definition no_faults : FileCompression.Faults :=
  FileCompression.mkFaults (fun _ => None) (fun _ => true).

End Stored.

(** ** Concrete inputs *)
Module Examples.
Import FileCompression FileCompressionWorkflow.

(** A job that has completed. *)
Definition completed_job : Models.CompressionJob :=
  Models.mkCompressionJob "j1" "compression-j1" "completed" 100
    (Some "Compression completed successfully") 1 2 None None "zip" 5
    (Some 10) (Some 11) None.

(** A job as the submission route creates it. *)
Definition pending_job : Models.CompressionJob :=
  Models.mkCompressionJob "j1" "compression-j1" "pending" 0 None 1 2 None
    None "zip" 5 None None None.

Definition completed_session : Models.Session := {[ "j1" := completed_job ]}.
Definition pending_session : Models.Session := {[ "j1" := pending_job ]}.

(** One file, ["hi"], to be zipped. *)
Definition hi_zip : CompressionJobInput.t :=
  CompressionJobInput.mk "j1" [FileItem.mk "a.txt" "aGk=" 2] "ZIP" 6.

(** The same file with a format that is neither zip nor tar_gz. *)
Definition hi_rar : CompressionJobInput.t :=
  CompressionJobInput.mk "j1" [FileItem.mk "a.txt" "aGk=" 2] "rar" 6.

(** A file name with a NUL character in it: "a", NUL, "b.txt". *)
Definition nul_name : string := String "a" (String Ascii.zero "b.txt").

Definition nul_zip : CompressionJobInput.t :=
  CompressionJobInput.mk "j1" [FileItem.mk nul_name "aGk=" 2] "zip" 6.

(** One file whose content is not base64. *)
Definition undecodable_zip : CompressionJobInput.t :=
  CompressionJobInput.mk "j1" [FileItem.mk "a.txt" "a" 1] "zip" 6.

(** The clock reads 10 and the store holds the pending job. *)
Definition start : Z * Db := (10, mkDb pending_session []).

Definition conf : Couchbase.CouchbaseConf :=
  Couchbase.mkCouchbaseConf "localhost" "admin" "secret" "main" "couchbase".

(** An initialized client that never obtained a cluster handle. *)
Definition initialized_only : Couchbase.CouchbaseClient :=
  Couchbase.mkCouchbaseClient None (Some conf) true false None None
    (inject_Z 0).

(** An initialized client whose first retry loop (task 0) has failed
    once and is still trying to connect. *)
Definition connecting : Couchbase.World :=
  Couchbase.mkWorld
    (Couchbase.mkCouchbaseClient None (Some conf) true false (Some 0%nat)
       (Some "timeout") (inject_Z 1700000000))
    [0%nat] 1%nat.

Definition cluster : Couchbase.Cluster :=
  Couchbase.mkCluster "couchbase://localhost/main" false.

(** A connected client, its retry loop finished. *)
Definition connected_client : Couchbase.CouchbaseClient :=
  Couchbase.mkCouchbaseClient (Some cluster) (Some conf) true true
    (Some 0%nat) None (inject_Z 0).

End Examples.

(** ** Shapes used to describe what the activities produce *)
Module ArchiveLayout.
Import FileCompression.

(** What [compress_files_tar_gz] writes for one file: the delimiter line
    with the name, the decoded bytes, and a blank line. *)
Definition frame (f : FileItem.t) (data : bytes) : bytes :=
  encode ("--- " +:+ FileItem.name f +:+ " ---" +:+ newline)
    ++ data ++ encode (newline +:+ newline).

(** The decoded content of a file item. *)
Definition decodes_to (lib : PyLib) (f : FileItem.t) (data : bytes) : Prop :=
  b64decode lib (FileItem.content f) = inr data.

(** The calls of [update_job_progress] that come before the row is
    written. *)
Definition before_write : list Step :=
  [GetPostgresConf; GetPostgresPoolConf; NewPostgresClient; Initialize;
   InitConnection; EnterSession; Execute; Flush].

(** The runtime state after a workflow computation is always related by
    [R] to the state before it. *)
Definition preserves {S A : Type} (R : S → S → Prop)
    (m : S * list FileCompressionWorkflow.Event
         → (S * list FileCompressionWorkflow.Event) * result A) : Prop :=
  ∀ s h, R s (m (s, h)).1.1.

(** [session'] holds rows under the same ids as [session], each with the
    identifying fields and the result fields it had. *)
Definition keeps_rows (session session' : Models.Session) : Prop :=
  ∀ k,
    match session !! k, session' !! k with
    | Some j, Some j' => Models.same_identity j j' ∧ Models.same_results j j'
    | None, None => True
    | _, _ => False
    end.

End ArchiveLayout.

(** ** backend/clients/couchbase.py: keyspaces and accessors *)
Module Keyspace.

Record Keyspace : Type := mkKeyspace {
  bucket_name : string;
  scope_name : string;
  collection_name : string
}.

(** [s.split(sep)] for a one-character separator: the pieces between the
    occurrences of [sep], so one more piece than there are occurrences. *)
Fixpoint split (sep : ascii) (s : string) : list string :=
  match s with
  | EmptyString => [EmptyString]
  | String c rest =>
      if Ascii.eqb c sep then EmptyString :: split sep rest
      else
        match split sep rest with
        | piece :: pieces => String c piece :: pieces
        | [] => [String c EmptyString]
        end
  end.

Definition dot : ascii := "."%char.

(** [Keyspace.from_string(keyspace)] *)
Definition from_string (keyspace : string) : result Keyspace :=
  match split dot keyspace with
  | [b; s; c] => inr (mkKeyspace b s c)
  | _ =>
      inl (Error "ValueError"
             ("Invalid keyspace format. Expected "
                +:+ "'bucket_name.scope_name.collection_name', "
                +:+ "got '" +:+ keyspace +:+ "'"))
  end.

(** [str(keyspace)] *)
Definition __str__ (k : Keyspace) : string :=
  bucket_name k +:+ "." +:+ scope_name k +:+ "." +:+ collection_name k.

(** [sep.join(pieces)] for a one-character separator *)
Fixpoint join (sep : ascii) (pieces : list string) : string :=
  match pieces with
  | [] => EmptyString
  | [piece] => piece
  | piece :: rest => piece +:+ String sep (join sep rest)
  end.

(** Number of occurrences of a character. *)
Fixpoint count (sep : ascii) (s : string) : nat :=
  match s with
  | EmptyString => 0
  | String c rest =>
      if Ascii.eqb c sep then Datatypes.S (count sep rest) else count sep rest
  end.

(** What a suspended accessor observes of the client at one instant. *)
Inductive Poll (A : Type) : Type :=
| Raised (e : Exception)
| Waiting
| Ready (a : A).
Arguments Raised {A}.
Arguments Waiting {A}.
Arguments Ready {A}.

Definition _ensure_initialized (c : Couchbase.CouchbaseClient) : result unit :=
  if negb (Couchbase._initialized c)
  then inl (Error "RuntimeError" "Couchbase client not initialized")
  else inr tt.

(** [get_cluster], through [_ensure_connected]: raises when the client is
    not initialized, stays in the polling loop while it is not connected,
    and otherwise returns the cached handle. *)
Definition get_cluster (c : Couchbase.CouchbaseClient)
  : Poll (option Couchbase.Cluster) :=
  match _ensure_initialized c with
  | inl e => Raised e
  | inr _ =>
      if negb (Couchbase._connected c) then Waiting
      else Ready (Couchbase._cluster c)
  end.

(** [get_keyspace(collection_name, scope_name, bucket_name)]; the defaults
    of the two optional arguments are "_default" and [None]. *)
Definition get_keyspace (c : Couchbase.CouchbaseClient)
    (collection_name : string) (scope_name : string)
    (bucket_name : option string) : result Keyspace :=
  match _ensure_initialized c with
  | inl e => inl e
  | inr _ =>
      match bucket_name, Couchbase._config c with
      | Some b, _ => inr (mkKeyspace b scope_name collection_name)
      | None, Some conf =>
          inr (mkKeyspace (Couchbase.bucket conf) scope_name collection_name)
      | None, None =>
          inl (Error "AttributeError"
                 "'NoneType' object has no attribute 'bucket'")
      end
  end.

(** The client keeps a handle whenever it says it is connected. *)
Definition handle_when_connected (c : Couchbase.CouchbaseClient) : Prop :=
  Couchbase._connected c = true → is_Some (Couchbase._cluster c).

End Keyspace.

(** ** backend/db/models.py: the files of a job *)
Module ModelsFiles.

Record CompressionFile : Type := mkCompressionFile {
  id : string;
  job_id : string;
  filename : string;
  size : Z;
  content : string;
  created_at : Z
}.

(** An element of the request's [files] list: a dictionary with the keys
    "name", "content" and "size" holding a string, a string and an
    integer. *)
Record FileData : Type := mkFileData {
  name : string;
  fd_content : string;
  fd_size : Z
}.

(** Both tables of the database, as the session sees them.  The rows of
    [compressionfile] are kept in insertion order. *)
Record Tables : Type := mkTables {
  jobs : Models.Session;
  files : list CompressionFile
}.

(** [add_files_to_job(session, job_id, files)]; [pk i] is the primary key
    that [pk_field] gives the [i]-th row created, [now] the clock. *)
Fixpoint new_files (pk : nat → string) (now : Z) (job_id' : string)
    (i : nat) (fs : list FileData) : list CompressionFile :=
  match fs with
  | [] => []
  | file_data :: rest =>
      mkCompressionFile (pk i) job_id' (name file_data) (fd_size file_data)
        (fd_content file_data) now
        :: new_files pk now job_id' (Datatypes.S i) rest
  end.

Definition add_files_to_job (pk : nat → string) (now : Z) (session : Tables)
    (job_id' : string) (fs : list FileData)
  : Tables * list CompressionFile :=
  let compression_files := new_files pk now job_id' 0 fs in
  (mkTables (jobs session) (files session ++ compression_files),
   compression_files).


(** The request data a stored file row came from. *)
Definition file_data_of (f : CompressionFile) : FileData :=
  mkFileData (filename f) (content f) (size f).

End ModelsFiles.

(** ** backend/routes/base.py *)
Module Routes.
Import FileCompression.

Record HTTPException : Type := mkHTTPException {
  status_code : Z;
  detail : string
}.

Abbreviation http A := (HTTPException + A)%type.

Record CompressionJobRequest : Type := mkCompressionJobRequest {
  req_files : list ModelsFiles.FileData;
  req_compression_format : string;
  req_compression_level : Z
}.

Record CompressionJobResponse : Type := mkCompressionJobResponse {
  job_id : string;
  workflow_id : string;
  status : string;
  progress : Z;
  message : option string;
  file_count : Z;
  original_size : Z;
  compressed_size : option Z;
  compression_ratio : option Q;
  created_at : string;
  started_at : option string;
  completed_at : option string
}.

(** The response every job route builds from a record; [isoformat] is
    [datetime.isoformat]. *)
Definition response_of (isoformat : Z → string) (job : Models.CompressionJob)
  : CompressionJobResponse :=
  mkCompressionJobResponse (Models.id job) (Models.workflow_id job)
    (Models.status job) (Models.progress job) (Models.message job)
    (Models.file_count job) (Models.original_size job)
    (Models.compressed_size job) (Models.compression_ratio job)
    (isoformat (Models.created_at job))
    (isoformat <$> Models.started_at job)
    (isoformat <$> Models.completed_at job).

(** [GET /compression/jobs/{job_id}] *)
Definition get_compression_job_route (isoformat : Z → string)
    (session : Models.Session) (job_id' : string)
  : http CompressionJobResponse :=
  match Models.get_compression_job session job_id' with
  | None => inl (mkHTTPException 404 "Compression job not found")
  | Some job => inr (response_of isoformat job)
  end.

Record Response : Type := mkResponse {
  resp_content : bytes;
  media_type : string;
  headers : list (string * string)
}.

(** [GET /compression/jobs/{job_id}/download] *)
Definition download_compressed_file (lib : PyLib) (session : Models.Session)
    (job_id' : string) : http Response :=
  match Models.get_compression_job session job_id' with
  | None => inl (mkHTTPException 404 "Compression job not found")
  | Some job =>
      if negb (String.eqb (Models.status job) "completed")
      then inl (mkHTTPException 400
                  ("Job is not completed. Current status: "
                     +:+ Models.status job))
      else if negb (Models.truthy_str (Models.compressed_data job))
      then inl (mkHTTPException 404 "Compressed data not available")
      else
        match b64decode lib (default "" (Models.compressed_data job)) with
        | inl e =>
            inl (mkHTTPException 500
                   ("Failed to decode compressed data: " +:+ str e))
        | inr compressed_bytes =>
            let file_extension :=
              if String.eqb (Models.compression_format job) "zip"
              then "zip" else "tar.gz" in
            let filename :=
              "compressed-" +:+ job_id' +:+ "." +:+ file_extension in
            inr (mkResponse compressed_bytes "application/octet-stream"
                   [("Content-Disposition",
                     "attachment; filename=" +:+ filename);
                    ("Content-Length",
                     pretty (length compressed_bytes))])
        end
  end.

(** The [CompressionJob] the submission route constructs; the fields it
    does not pass take the defaults of the model. *)
Definition new_job (now : Z) (job_id' : string)
    (job_request : CompressionJobRequest) : Models.CompressionJob :=
  Models.mkCompressionJob job_id' ("compression-" +:+ job_id') "pending" 0
    None
    (Z.of_nat (length (req_files job_request)))
    (fold_left Z.add (map ModelsFiles.fd_size (req_files job_request)) 0)
    None None (req_compression_format job_request) now None None None.

(** The [CompressionJobInput] handed to the workflow. *)
Definition workflow_input (job_id' : string)
    (job_request : CompressionJobRequest) : CompressionJobInput.t :=
  CompressionJobInput.mk job_id'
    (map (fun file =>
            FileItem.mk (ModelsFiles.name file) (ModelsFiles.fd_content file)
              (ModelsFiles.fd_size file))
       (req_files job_request))
    (req_compression_format job_request)
    (req_compression_level job_request).

(** What the route reads from its surroundings: the feature flag, the
    identifier [uuid.uuid4()] returns, the primary keys of the file rows,
    the clock, and whether [start_workflow] raises for a workflow id and
    input. *)
Record Env : Type := mkEnv {
  USE_TEMPORAL : bool;
  uuid4 : string;
  pk : nat → string;
  utcnow : Z;
  start_workflow : string → CompressionJobInput.t → option Exception;
  isoformat : Z → string
}.

(** [POST /compression/jobs] *)
Definition create_compression_job_route (env : Env)
    (session : ModelsFiles.Tables) (job_request : CompressionJobRequest)
  : ModelsFiles.Tables * http CompressionJobResponse :=
  if negb (USE_TEMPORAL env)
  then (session, inl (mkHTTPException 503 "Temporal workflows are disabled"))
  else
    match req_files job_request with
    | [] => (session, inl (mkHTTPException 400 "No files provided"))
    | _ :: _ =>
        let job_id := uuid4 env in
        let workflow_id := "compression-" +:+ job_id in
        let compression_job := new_job (utcnow env) job_id job_request in
        let '(jobs', job) :=
          Models.create_compression_job (ModelsFiles.jobs session)
            compression_job in
        let '(session', _) :=
          ModelsFiles.add_files_to_job (pk env) (utcnow env)
            (ModelsFiles.mkTables jobs' (ModelsFiles.files session))
            job_id (req_files job_request) in
        match start_workflow env workflow_id
                (workflow_input job_id job_request) with
        | Some e =>
            let '(jobs'', _) :=
              Models.update_compression_job_progress (utcnow env)
                (ModelsFiles.jobs session') job_id 0 "failed"
                (Some ("Failed to start workflow: " +:+ str e)) in
            (ModelsFiles.mkTables jobs'' (ModelsFiles.files session'),
             inl (mkHTTPException 500
                    ("Failed to start compression workflow: " +:+ str e)))
        | None => (session', inr (response_of (isoformat env) job))
        end
    end.

(** An uploaded file: its name and what [read()] does. *)
Record UploadFile : Type := mkUploadFile {
  upload_filename : string;
  read : result bytes
}.

(** The loop of the upload route that turns the uploads into request
    dictionaries. *)
Fixpoint upload_file_data (lib : PyLib) (uploads : list UploadFile)
  : http (list ModelsFiles.FileData) :=
  match uploads with
  | [] => inr []
  | uploaded_file :: rest =>
      match read uploaded_file with
      | inl e =>
          inl (mkHTTPException 500
                 ("Failed to process file " +:+ upload_filename uploaded_file
                    +:+ ": " +:+ str e))
      | inr content =>
          match upload_file_data lib rest with
          | inl h => inl h
          | inr file_data =>
              inr (ModelsFiles.mkFileData (upload_filename uploaded_file)
                     (b64encode lib content) (Z.of_nat (length content))
                     :: file_data)
          end
      end
  end.

(** [POST /compression/upload] *)
Definition upload_and_compress_files (env : Env) (lib : PyLib)
    (session : ModelsFiles.Tables) (uploads : list UploadFile)
    (compression_format : string) (compression_level : Z)
  : ModelsFiles.Tables * http CompressionJobResponse :=
  match uploads with
  | [] => (session, inl (mkHTTPException 400 "No files uploaded"))
  | _ :: _ =>
      match upload_file_data lib uploads with
      | inl h => (session, inl h)
      | inr file_data =>
          create_compression_job_route env session
            (mkCompressionJobRequest file_data compression_format
               compression_level)
      end
  end.

(** What the upload loop makes of each upload it could read. *)
Definition uploaded_as (lib : PyLib) (u : UploadFile)
    (fd : ModelsFiles.FileData) : Prop :=
  ModelsFiles.name fd = upload_filename u
  ∧ ∃ content,
      read u = inr content
      ∧ ModelsFiles.fd_content fd = b64encode lib content
      ∧ ModelsFiles.fd_size fd = Z.of_nat (length content).

End Routes.

(** ** backend/routes/base.py: the health route's service checks *)
Module ServiceChecks.

(** The values found in the health dictionaries. *)
Inductive Atom : Type :=
| VBool (b : bool)
| VStr (s : string)
| VNone.

Abbreviation Dict := (gmap string Atom).

(** Truth value of a dictionary value. *)
Definition truthy (v : Atom) : bool :=
  match v with
  | VBool b => b
  | VStr s => negb (String.eqb s "")
  | VNone => false
  end.

(** [d.get("connected", False)], as a truth value *)
Definition get_connected (d : Dict) : bool :=
  match d !! "connected" with
  | Some v => truthy v
  | None => false
  end.

(** The part of [health_status] that the checks read and write: its
    "status" entry and the entries of the services. *)
Record HealthStatus : Type := mkHealthStatus {
  hs_status : string;
  hs_services : gmap string Dict
}.

Record Conf : Type := mkConf {
  USE_POSTGRES : bool;
  USE_COUCHBASE : bool;
  USE_TEMPORAL : bool;
  USE_TWILIO : bool
}.

(** A Temporal client either has a [health_check] method or is asked
    [is_connected] under a timeout ([None]: it timed out). *)
Inductive TemporalClient : Type :=
| TemporalHealthCheck (d : Dict)
| TemporalIsConnected (outcome : option bool).

(** The clients found in [request.app.state]; for Twilio, [None] is a
    client without a [health_check] method. *)
Record AppState : Type := mkAppState {
  postgres_client : Dict;
  couchbase_client : Couchbase.CouchbaseClient;
  temporal_client : TemporalClient;
  twilio_client : option Dict
}.

(** The dictionary that [CouchbaseClient.health_check] returns. *)
Definition couchbase_dict (h : Couchbase.Health) : Dict :=
  let d : Dict :=
    {[ "connected" := VBool (Couchbase.connected h);
       "status" := VStr (Couchbase.status h) ]} in
  match Couchbase.last_error h with
  | None => d
  | Some None => <["last_error" := VNone]> d
  | Some (Some e) => <["last_error" := VStr e]> d
  end.

Definition disabled (msg : string) : Dict :=
  {[ "status" := VStr "disabled"; "message" := VStr msg ]}.

(** [not services_filter or name in services_filter] *)
Definition selected (services_filter : option (list string)) (name : string)
  : bool :=
  match services_filter with
  | None | Some [] => true
  | Some l => bool_decide (name ∈ l)
  end.

Definition set_entry (name : string) (d : Dict) (hs : HealthStatus)
  : HealthStatus :=
  mkHealthStatus (hs_status hs) (<[name := d]> (hs_services hs)).

Definition degrade_unless_connected (d : Dict) (hs : HealthStatus)
  : HealthStatus :=
  if negb (get_connected d)
  then mkHealthStatus "degraded" (hs_services hs)
  else hs.

Definition temporal_health (c : TemporalClient) : Dict :=
  match c with
  | TemporalHealthCheck d => d
  | TemporalIsConnected (Some is_connected) =>
      {[ "connected" := VBool is_connected;
         "status" := VStr (if is_connected then "connected"
                           else "disconnected") ]}
  | TemporalIsConnected None =>
      {[ "connected" := VBool false; "status" := VStr "timeout";
         "message" := VStr "Connection check timed out" ]}
  end.

Definition twilio_health (c : option Dict) : Dict :=
  match c with
  | Some d => d
  | None => {[ "connected" := VBool true; "status" := VStr "connected" ]}
  end.

Definition check_postgres (conf : Conf) (app : AppState)
    (services_filter : option (list string)) (hs : HealthStatus)
  : HealthStatus :=
  if selected services_filter "postgres" then
    if USE_POSTGRES conf then
      let db_health := postgres_client app in
      degrade_unless_connected db_health (set_entry "postgres" db_health hs)
    else
      set_entry "postgres"
        (disabled "PostgreSQL is disabled (USE_POSTGRES=False)") hs
  else hs.

Definition check_couchbase (conf : Conf) (app : AppState)
    (services_filter : option (list string)) (hs : HealthStatus)
  : HealthStatus :=
  if selected services_filter "couchbase" then
    if USE_COUCHBASE conf then
      let couchbase_health :=
        couchbase_dict (Couchbase.health_check (couchbase_client app)) in
      degrade_unless_connected couchbase_health
        (set_entry "couchbase" couchbase_health hs)
    else
      set_entry "couchbase"
        (disabled "Couchbase is disabled (USE_COUCHBASE=False)") hs
  else hs.

Definition check_temporal (conf : Conf) (app : AppState)
    (services_filter : option (list string)) (hs : HealthStatus)
  : HealthStatus :=
  if selected services_filter "temporal" then
    if USE_TEMPORAL conf then
      let temporal_health := temporal_health (temporal_client app) in
      degrade_unless_connected temporal_health
        (set_entry "temporal" temporal_health hs)
    else
      set_entry "temporal"
        (disabled "Temporal is disabled (USE_TEMPORAL=False)") hs
  else hs.

Definition check_twilio (conf : Conf) (app : AppState)
    (services_filter : option (list string)) (hs : HealthStatus)
  : HealthStatus :=
  if selected services_filter "twilio" then
    if USE_TWILIO conf then
      set_entry "twilio" (twilio_health (twilio_client app)) hs
    else
      set_entry "twilio"
        (disabled "Twilio is disabled (USE_TWILIO=False)") hs
  else hs.

(** [_check_all_services(request, health_status, services_filter)] *)
Definition _check_all_services (conf : Conf) (app : AppState)
    (health_status : HealthStatus) (services_filter : option (list string))
  : HealthStatus :=
  check_twilio conf app services_filter
    (check_temporal conf app services_filter
       (check_couchbase conf app services_filter
          (check_postgres conf app services_filter health_status))).

(** A service whose report can degrade the overall status: it is
    selected, enabled, and does not report a true "connected". *)
Definition degrading (conf : Conf) (app : AppState)
    (services_filter : option (list string)) : bool :=
  (selected services_filter "postgres" && USE_POSTGRES conf
     && negb (get_connected (postgres_client app)))
  || (selected services_filter "couchbase" && USE_COUCHBASE conf
        && negb (get_connected
                   (couchbase_dict
                      (Couchbase.health_check (couchbase_client app)))))
  || (selected services_filter "temporal" && USE_TEMPORAL conf
        && negb (get_connected (temporal_health (temporal_client app)))).

End ServiceChecks.

(** * Properties *)

(** ** The job record store *)
Module ModelsFacts.
Import Models.

Lemma apply_progress_identity now p s m j :
  same_identity j (apply_progress now p s m j).
Proof.
  unfold apply_progress, same_identity.
  repeat case_match; simpl; repeat split; reflexivity.
Qed.

Lemma apply_progress_results now p s m j :
  same_results j (apply_progress now p s m j).
Proof.
  unfold apply_progress, same_results.
  repeat case_match; simpl; repeat split; reflexivity.
Qed.

Lemma apply_progress_sets now p s m j :
  progress (apply_progress now p s m j) = p
  ∧ status (apply_progress now p s m j) = s.
Proof. unfold apply_progress. repeat case_match; simpl; auto. Qed.

Lemma apply_progress_message now p s m j :
  m = None ∨ m = Some "" →
  message (apply_progress now p s m j) = message j.
Proof.
  intros [-> | ->]; unfold apply_progress; simpl;
    repeat case_match; reflexivity.
Qed.

Lemma apply_progress_started now p s m j t :
  started_at j = Some t →
  started_at (apply_progress now p s m j) = Some t.
Proof.
  intros Ht. unfold apply_progress.
  destruct (truthy_str m); simpl; rewrite Ht; simpl;
    rewrite andb_false_r; case_match; simpl; exact Ht.
Qed.

Lemma update_found now session job_id p s m job :
  session !! job_id = Some job →
  update_compression_job_progress now session job_id p s m
  = (<[job_id := apply_progress now p s m job]> session,
     Some (apply_progress now p s m job)).
Proof. intros H. unfold update_compression_job_progress. by rewrite H. Qed.

Lemma update_missing now session job_id p s m :
  session !! job_id = None →
  update_compression_job_progress now session job_id p s m = (session, None).
Proof. intros H. unfold update_compression_job_progress. by rewrite H. Qed.

Lemma complete_found now session job_id cs cr cd job :
  session !! job_id = Some job →
  complete_compression_job now session job_id cs cr cd
  = (<[job_id := apply_complete now cs cr cd job]> session,
     Some (apply_complete now cs cr cd job)).
Proof. intros H. unfold complete_compression_job. by rewrite H. Qed.

(** C10. On an existing record, [update_compression_job_progress] writes
    one row, and in that row only progress, status, message, started_at
    and completed_at can differ from before: the identifying fields and
    the result fields are unchanged.  A message argument that is [None]
    or empty leaves the stored message as it was, and a started_at that
    is already set is kept, also by a later "starting" update.  All
    other rows are untouched. *)
Theorem update_progress_frame (now : Z) (session : Session)
    (job_id : string) (p : Z) (s : string) (m : option string)
    (job : CompressionJob) :
  session !! job_id = Some job →
  ∃ job',
    update_compression_job_progress now session job_id p s m
    = (<[job_id := job']> session, Some job')
    ∧ same_identity job job' ∧ same_results job job'
    ∧ (m = None ∨ m = Some "" → message job' = message job)
    ∧ (∀ t, started_at job = Some t → started_at job' = Some t)
    ∧ (∀ k, k ≠ job_id →
         (update_compression_job_progress now session job_id p s m).1 !! k
         = session !! k).
Proof.
  intros Hjob. exists (apply_progress now p s m job).
  rewrite (update_found _ _ _ _ _ _ _ Hjob).
  split; [reflexivity |].
  split; [apply apply_progress_identity |].
  split; [apply apply_progress_results |].
  split; [apply apply_progress_message |].
  split; [intros t; apply apply_progress_started |].
  intros k Hk. simpl. by rewrite lookup_insert_ne.
Qed.

Lemma update_progress_frame_witness :
  ∃ job',
    update_compression_job_progress 12 Examples.completed_session "j1" 0
      "starting" (Some "")
    = (<["j1" := job']> Examples.completed_session, Some job')
    ∧ same_identity Examples.completed_job job'
    ∧ same_results Examples.completed_job job'
    ∧ (Some "" = None ∨ Some "" = Some "" →
       message job' = message Examples.completed_job)
    ∧ (∀ t, started_at Examples.completed_job = Some t →
            started_at job' = Some t)
    ∧ (∀ k, k ≠ "j1" →
         (update_compression_job_progress 12 Examples.completed_session
            "j1" 0 "starting" (Some "")).1 !! k
         = Examples.completed_session !! k).
Proof.
  apply (update_progress_frame 12 Examples.completed_session "j1" 0
           "starting" (Some "") Examples.completed_job).
  reflexivity.
Defined.

Lemma apply_complete_identity now cs cr cd j :
  same_identity j (apply_complete now cs cr cd j).
Proof. unfold apply_complete, same_identity. simpl. repeat split. Qed.

(** C4, as stated, fails: a progress update addressed to a completed
    record rewrites its status, progress, message and completed_at. *)
Lemma terminal_record_is_rewritten :
  terminal (status Examples.completed_job) = true
  ∧ Examples.completed_session !! "j1" = Some Examples.completed_job
  ∧ (update_compression_job_progress 12 Examples.completed_session "j1" 0
       "failed" (Some "Compression failed: boom")).1 !! "j1"
    = Some
        (mkCompressionJob "j1" "compression-j1" "failed" 0
           (Some "Compression failed: boom") 1 2 None None "zip" 5
           (Some 10) (Some 12) None)
  ∧ (update_compression_job_progress 12 Examples.completed_session "j1" 0
       "failed" (Some "Compression failed: boom")).1 !! "j1"
    ≠ Some Examples.completed_job.
Proof.
  split; [reflexivity |]. split; [reflexivity |].
  assert (Hupd :
    (update_compression_job_progress 12 Examples.completed_session "j1" 0
       "failed" (Some "Compression failed: boom")).1 !! "j1"
    = Some
        (mkCompressionJob "j1" "compression-j1" "failed" 0
           (Some "Compression failed: boom") 1 2 None None "zip" 5
           (Some 10) (Some 12) None)) by (vm_compute; reflexivity).
  split; [exact Hupd |].
  rewrite Hupd. intros Heq. discriminate Heq.
Qed.

(** C4, amended. The store does not freeze a terminal record: on a
    record whose status is completed or failed, updateProgress still
    sets progress and status to its arguments and complete still sets
    status completed, progress 100 and the three result fields.  What
    both operations leave unchanged are the fields neither assigns: id,
    workflow_id, file_count, original_size, compression_format and
    created_at. *)
Theorem terminal_record_overwritten (now : Z) (session : Session)
    (job_id : string) (job : CompressionJob) :
  session !! job_id = Some job →
  terminal (status job) = true →
  (∀ p s m, ∃ job',
      update_compression_job_progress now session job_id p s m
      = (<[job_id := job']> session, Some job')
      ∧ progress job' = p ∧ status job' = s ∧ same_identity job job')
  ∧ (∀ cs cr cd, ∃ job',
      complete_compression_job now session job_id cs cr cd
      = (<[job_id := job']> session, Some job')
      ∧ status job' = "completed" ∧ progress job' = 100
      ∧ compressed_size job' = Some cs ∧ compression_ratio job' = Some cr
      ∧ compressed_data job' = Some cd ∧ same_identity job job').
Proof.
  intros Hjob _. split.
  - intros p s m. exists (apply_progress now p s m job).
    rewrite (update_found _ _ _ _ _ _ _ Hjob).
    destruct (apply_progress_sets now p s m job) as [Hp Hs].
    auto using apply_progress_identity.
  - intros cs cr cd. exists (apply_complete now cs cr cd job).
    rewrite (complete_found _ _ _ _ _ _ _ Hjob).
    repeat (split; [reflexivity |]). apply apply_complete_identity.
Qed.

Lemma terminal_record_overwritten_witness :
  (∀ p s m, ∃ job',
      update_compression_job_progress 12 Examples.completed_session "j1"
        p s m
      = (<["j1" := job']> Examples.completed_session, Some job')
      ∧ progress job' = p ∧ status job' = s
      ∧ same_identity Examples.completed_job job')
  ∧ (∀ cs cr cd, ∃ job',
      complete_compression_job 12 Examples.completed_session "j1" cs cr cd
      = (<["j1" := job']> Examples.completed_session, Some job')
      ∧ status job' = "completed" ∧ progress job' = 100
      ∧ compressed_size job' = Some cs ∧ compression_ratio job' = Some cr
      ∧ compressed_data job' = Some cd
      ∧ same_identity Examples.completed_job job').
Proof.
  apply (terminal_record_overwritten 12 Examples.completed_session "j1"
           Examples.completed_job); reflexivity.
Defined.

End ModelsFacts.

(** ** The stored-container instance honours the library contract *)
Module StoredFacts.
Import Stored.

Lemma read_len_unary (n : nat) (rest : bytes) :
  read_len (repeat Byte.x01 n ++ Byte.x00 :: rest) = Some (n, rest).
Proof.
  induction n as [| n IH]; simpl; [reflexivity |]. by rewrite IH.
Qed.

Lemma read_field_field (bs rest : bytes) :
  read_field (field bs ++ rest) = Some (bs, rest).
Proof.
  unfold read_field, field. rewrite <- app_assoc. simpl.
  rewrite read_len_unary.
  assert (Hle : (length bs <=? length (bs ++ rest))%nat = true).
  { apply Nat.leb_le. rewrite length_app. lia. }
  rewrite Hle. by rewrite take_app_length, drop_app_length.
Qed.

Lemma read_entries_bytes (es : list (string * bytes)) :
  ∀ fuel, (length es < fuel)%nat →
          read_entries fuel (entries_bytes es) = Some es.
Proof.
  induction es as [| [name data] es IH]; intros fuel Hfuel;
    (destruct fuel as [| fuel]; [simpl in Hfuel; lia |]).
  - reflexivity.
  - simpl. rewrite read_field_field, read_field_field.
    rewrite IH by (simpl in Hfuel; lia).
    by rewrite string_of_list_byte_of_string.
Qed.

Lemma length_entries_bytes (es : list (string * bytes)) :
  (length es < length (entries_bytes es))%nat.
Proof.
  induction es as [| [name data] es IH]; simpl; [lia |].
  rewrite !length_app. lia.
Qed.

Lemma stored_zip_roundtrip : zip_roundtrip lib.
Proof.
  intros zf _. simpl. unfold zip_read, zip_bytes.
  apply read_entries_bytes, length_entries_bytes.
Qed.

End StoredFacts.

(** ** Rounding to a double *)
Module FloatFacts.
Import Float.
Local Open Scope Z_scope.

Lemma pow2_pos (e : Z) : (0 < pow2 e)%Q.
Proof. unfold pow2. by apply Qpower_0_lt. Qed.

Lemma pow2_add (a b : Z) : (pow2 (a + b) == pow2 a * pow2 b)%Q.
Proof. unfold pow2. by apply Qpower_plus. Qed.

Lemma pow2_le (a b : Z) : a <= b → (pow2 a <= pow2 b)%Q.
Proof. intros H. unfold pow2. apply Qpower_le_compat_l; [exact H | done]. Qed.

Lemma pow2_lt_inv (a b : Z) : (pow2 a < pow2 b)%Q → a < b.
Proof.
  intros H. destruct (Z_lt_le_dec a b) as [|Hle]; [done |].
  apply pow2_le in Hle. exfalso. eapply Qlt_irrefl, Qlt_le_trans; eauto.
Qed.

Lemma pow2_nonneg_Z (n : Z) : 0 <= n → (pow2 n == inject_Z (2 ^ n))%Q.
Proof. intros H. unfold pow2. by rewrite Zpower_Qpower. Qed.

Lemma pow2_div (a b : Z) : (pow2 a / pow2 b == pow2 (a - b))%Q.
Proof.
  replace (a - b) with (a + - b) by lia. rewrite pow2_add.
  unfold pow2 at 4. rewrite Qpower_opp. reflexivity.
Qed.

(** [ilog2] is the floor of the binary logarithm. *)
Lemma ilog2_spec (q : Q) :
  (0 < q)%Q → (pow2 (ilog2 q) <= q)%Q ∧ (q < pow2 (ilog2 q + 1))%Q.
Proof.
  intros Hq. destruct q as [n d]. unfold ilog2. cbn [Qnum Qden].
  assert (Hn : 0 < n) by (unfold Qlt in Hq; simpl in Hq; lia).
  set (a := Z.log2 n). set (b := Z.log2 (Z.pos d)).
  assert (Ha : 2 ^ a <= n < 2 ^ (a + 1)).
  { pose proof (Z.log2_spec n Hn) as H. by rewrite <- Z.add_1_r in H. }
  assert (Hb : 2 ^ b <= Z.pos d < 2 ^ (b + 1)).
  { pose proof (Z.log2_spec (Z.pos d) eq_refl) as H.
    by rewrite <- Z.add_1_r in H. }
  assert (Ha0 : 0 <= a) by apply Z.log2_nonneg.
  assert (Hb0 : 0 <= b) by apply Z.log2_nonneg.
  assert (Hnd : (n # d == inject_Z n / inject_Z (Z.pos d))%Q)
    by apply Qmake_Qdiv.
  assert (Hdpos : (0 < inject_Z (Z.pos d))%Q) by done.
  (* 2^(a-b-1) < n/d < 2^(a-b+1) *)
  assert (Hup : (n # d < pow2 (a - b + 1))%Q).
  { rewrite Hnd. apply Qlt_shift_div_r; [done |].
    replace (a - b + 1) with ((a + 1) - b) by lia. rewrite <- pow2_div.
    unfold Qdiv. rewrite <- Qmult_assoc.
    apply Qlt_le_trans with (pow2 (a + 1) * 1)%Q.
    - rewrite Qmult_1_r, pow2_nonneg_Z by lia. rewrite <- Zlt_Qlt. lia.
    - apply Qmult_le_l; [apply pow2_pos |].
      rewrite Qmult_comm. apply Qle_shift_div_l; [apply pow2_pos |].
      rewrite Qmult_1_l, pow2_nonneg_Z by lia. rewrite <- Zle_Qle. lia. }
  assert (Hlow : (pow2 (a - b - 1) <= n # d)%Q).
  { rewrite Hnd. apply Qle_shift_div_l; [done |].
    replace (a - b - 1) with (a - (b + 1)) by lia. rewrite <- pow2_div.
    unfold Qdiv. rewrite <- Qmult_assoc.
    apply Qle_trans with (pow2 a * 1)%Q.
    - apply Qmult_le_l; [apply pow2_pos |].
      rewrite Qmult_comm. apply Qle_shift_div_r; [apply pow2_pos |].
      rewrite Qmult_1_l, pow2_nonneg_Z by lia. rewrite <- Zle_Qle. lia.
    - rewrite Qmult_1_r, pow2_nonneg_Z by lia. rewrite <- Zle_Qle. lia. }
  destruct (Qle_bool (pow2 (a - b)) (n # d)) eqn:Hcmp.
  - apply Qle_bool_iff in Hcmp. by split.
  - split; [exact Hlow |]. replace (a - b - 1 + 1) with (a - b) by lia.
    apply Qnot_le_lt. intros Hle. apply Qle_bool_iff in Hle. congruence.
Qed.

Lemma ilog2_lt (q : Q) (k : Z) : (0 < q)%Q → (q < pow2 k)%Q → ilog2 q < k.
Proof.
  intros Hq Hk. apply pow2_lt_inv.
  eapply Qle_lt_trans; [apply ilog2_spec, Hq | exact Hk].
Qed.

Lemma ilog2_ge (q : Q) (k : Z) : (pow2 k <= q)%Q → k <= ilog2 q.
Proof.
  intros Hk.
  assert (Hq : (0 < q)%Q) by (eapply Qlt_le_trans; [apply pow2_pos | done]).
  assert (k < ilog2 q + 1); [| lia]. apply pow2_lt_inv.
  eapply Qle_lt_trans; [exact Hk | apply ilog2_spec, Hq].
Qed.

(** Rounding to the nearest integer does not cross an integer. *)
Lemma round_half_even_le (q : Q) (n : Z) :
  (q <= inject_Z n)%Q → round_half_even q <= n.
Proof.
  intros Hq. unfold round_half_even.
  pose proof (Qfloor_le q) as Hf.
  assert (Hfn : Qfloor q <= n).
  { rewrite Zle_Qle. by eapply Qle_trans. }
  destruct (Z.eq_dec (Qfloor q) n) as [Heq | Hne].
  - assert (Hlt : (q - inject_Z (Qfloor q) ?= 1 # 2)%Q = Lt).
    { apply Qlt_alt. rewrite Heq.
      apply Qle_lt_trans with 0%Q; [| done].
      apply (Qplus_le_l _ _ (inject_Z n)). ring_simplify. exact Hq. }
    rewrite Hlt. lia.
  - repeat case_match; lia.
Qed.

Lemma round_half_even_ge (q : Q) (n : Z) :
  (inject_Z n <= q)%Q → n <= round_half_even q.
Proof.
  intros Hq. unfold round_half_even.
  assert (Hfn : n <= Qfloor q).
  { rewrite <- (Qfloor_Z n). by apply Qfloor_resp_le. }
  repeat case_match; lia.
Qed.

Lemma Qabs_nonneg_eq (x : Q) : (0 <= x)%Q → Qabs x = x.
Proof.
  destruct x as [n d]. unfold Qle. simpl. intros H.
  f_equal. apply Z.abs_eq. lia.
Qed.

Lemma fl_zero (x : Q) : (x == 0)%Q → fl x = 0%Q.
Proof. intros H. unfold fl. apply Qeq_bool_iff in H. by rewrite H. Qed.

Lemma fl_nonneg (x : Q) : (0 <= x)%Q → (0 <= fl x)%Q.
Proof.
  intros Hx. unfold fl. case_match; [done |].
  apply Qmult_le_0_compat; [| apply Qlt_le_weak, pow2_pos].
  change 0%Q with (inject_Z 0). rewrite <- Zle_Qle.
  apply round_half_even_ge. simpl.
  apply Qle_shift_div_l; [apply pow2_pos |]. by rewrite Qmult_0_l.
Qed.

(** A value below a multiple of its own unit in the last place stays
    below it. *)
Lemma fl_le_multiple (x : Q) (n : Z) :
  ¬ (x == 0)%Q → (x <= inject_Z n * pow2 (exponent x))%Q →
  (fl x <= inject_Z n * pow2 (exponent x))%Q.
Proof.
  intros Hx Hn. unfold fl.
  destruct (Qeq_bool x 0) eqn:Hz; [by apply Qeq_bool_iff in Hz |].
  apply Qmult_le_compat_r; [| apply Qlt_le_weak, pow2_pos].
  rewrite <- Zle_Qle. apply round_half_even_le.
  apply Qle_shift_div_r; [apply pow2_pos | exact Hn].
Qed.

Lemma fl_le_Z (x : Q) (n : Z) :
  0 <= n < 2 ^ 53 → (x <= inject_Z n)%Q → (fl x <= inject_Z n)%Q.
Proof.
  intros Hn Hx.
  destruct (Qlt_le_dec 0 x) as [Hpos | Hneg].
  - set (e := exponent x).
    assert (He : e <= 0).
    { unfold e, exponent. rewrite Qabs_nonneg_eq by by apply Qlt_le_weak.
      assert (ilog2 x < 53); [| lia]. apply ilog2_lt; [done |].
      eapply Qle_lt_trans; [exact Hx |].
      rewrite pow2_nonneg_Z by lia. rewrite <- Zlt_Qlt. lia. }
    assert (Hm : (inject_Z n == inject_Z (n * 2 ^ (- e)) * pow2 e)%Q).
    { rewrite inject_Z_mult, <- pow2_nonneg_Z by lia.
      rewrite <- Qmult_assoc, <- pow2_add.
      replace (- e + e) with 0 by lia. unfold pow2. simpl. ring. }
    rewrite Hm. apply fl_le_multiple.
    + intros H0. rewrite H0 in Hpos. by apply Qlt_irrefl in Hpos.
    + fold e. by rewrite <- Hm.
  - unfold fl. case_match; [change 0%Q with (inject_Z 0);
                           rewrite <- Zle_Qle; lia |].
    apply Qle_trans with 0%Q;
      [| change 0%Q with (inject_Z 0); rewrite <- Zle_Qle; lia].
    setoid_replace 0%Q with (inject_Z 0 * pow2 (exponent x))%Q
      using relation Qeq by ring.
    apply Qmult_le_compat_r; [| apply Qlt_le_weak, pow2_pos].
    rewrite <- Zle_Qle. apply round_half_even_le.
    apply Qle_shift_div_r; [apply pow2_pos |]. by rewrite Qmult_0_l.
Qed.

(** A value at or below [- 2^k], with [2^k] a double, stays there. *)
Lemma fl_le_neg_pow2 (x : Q) (k : Z) :
  -1074 <= k → (x <= - pow2 k)%Q → (fl x <= - pow2 k)%Q.
Proof.
  intros Hk Hx.
  pose proof (pow2_pos k) as Hpk.
  assert (Hneg : (x < 0)%Q).
  { eapply Qle_lt_trans; [exact Hx |].
    apply Qopp_lt_compat in Hpk. exact Hpk. }
  assert (Habs : (Qabs x == - x)%Q) by (apply Qabs_neg; by apply Qlt_le_weak).
  assert (Hkx : (pow2 k <= Qabs x)%Q).
  { rewrite Habs. apply Qopp_le_compat in Hx.
    by rewrite Qopp_involutive in Hx. }
  set (l := ilog2 (Qabs x)).
  assert (Hl : k <= l) by by apply ilog2_ge.
  assert (Hlx : (pow2 l <= Qabs x)%Q).
  { apply ilog2_spec. eapply Qlt_le_trans; [exact Hpk | exact Hkx]. }
  set (e := exponent x).
  assert (He : e <= l) by (unfold e, exponent; fold l; lia).
  assert (Hm : (- pow2 l == inject_Z (- 2 ^ (l - e)) * pow2 e)%Q).
  { rewrite inject_Z_opp, <- pow2_nonneg_Z by lia.
    setoid_replace (- pow2 (l - e) * pow2 e)%Q
      with (- (pow2 (l - e) * pow2 e))%Q using relation Qeq by ring.
    rewrite <- pow2_add. by replace (l - e + e) with l by lia. }
  apply Qle_trans with (- pow2 l)%Q;
    [| apply Qopp_le_compat, pow2_le, Hl].
  rewrite Hm. apply fl_le_multiple.
  - intros H0. rewrite H0 in Hneg. by apply Qlt_irrefl in Hneg.
  - fold e. rewrite <- Hm. rewrite Habs in Hlx. apply Qopp_le_compat in Hlx.
    by rewrite Qopp_involutive in Hlx.
Qed.

End FloatFacts.

(** ** The activities *)
Module FileCompressionFacts.
Import FileCompression.

(** Both branches of the [try] statement end without raising. *)
Lemma update_job_progress_returns (faults : Faults) (now : Z) (db : Db)
    (p : ProgressUpdate.t) :
  (update_job_progress faults now db p).2 = inr tt.
Proof.
  unfold update_job_progress. simpl.
  destruct (update_job_progress_try faults now (db_session db) p)
    as [session' [e | u]]; reflexivity.
Qed.

(** C7. Whatever the calls inside the progress-reporting activity do
    (configuration, connection, session, statement, flush, close: each
    may raise any exception), the activity returns normally; when one of
    them raised, the last log line is the error line naming it.  Run as
    the workflow's activity, a report therefore never raises in the
    workflow. *)
Theorem update_job_progress_never_raises (faults : Faults) (now : Z)
    (db : Db) (p : ProgressUpdate.t) :
  (∃ db', update_job_progress faults now db p = (db', inr tt))
  ∧ (∀ session' e,
       update_job_progress_try faults now (db_session db) p
       = (session', inl e) →
       last (db_log (update_job_progress faults now db p).1)
       = Some (ERROR, "Failed to update progress in database: " +:+ str e))
  ∧ (∀ lib timeout,
       (FileCompressionWorkflow.exec_update_job_progress
          (FileCompressionWorkflow.direct faults lib) (now, db) p timeout).2
       = inr tt).
Proof.
  split; [| split].
  - pose proof (update_job_progress_returns faults now db p) as Hret.
    destruct (update_job_progress faults now db p) as [db' r].
    simpl in Hret. subst r. by exists db'.
  - intros session' e Htry. unfold update_job_progress. simpl.
    rewrite Htry. simpl. apply last_snoc.
  - intros lib timeout. simpl.
    pose proof (update_job_progress_returns faults now db p) as Hret.
    by destruct (update_job_progress faults now db p) as [db' r].
Qed.

(** *** What [zlib] and [zipfile] accept *)

Lemma compressobj_inr (level : Z) :
  compressobj level = inr tt ↔ -1 <= level <= 9.
Proof.
  unfold compressobj, zlib_level, c_int.
  destruct (Z.leb_spec (-1) level), (Z.leb_spec level 9),
    (Z.leb_spec (- 2 ^ 31) level), (Z.ltb_spec level (2 ^ 31));
    simpl; split; intros; try discriminate; try lia; done.
Qed.

Lemma gzip_compress_inr (lib : PyLib) (data : bytes) (level : Z)
    (out : bytes) :
  gzip_compress lib data level = inr out
  ↔ -1 <= level <= 9 ∧ out = gzip_bytes lib data level.
Proof.
  unfold gzip_compress, zlib_level, c_int.
  destruct (Z.leb_spec (-1) level), (Z.leb_spec level 9),
    (Z.leb_spec (- 2 ^ 31) level), (Z.ltb_spec level (2 ^ 31));
    simpl; split; try discriminate; try (intros [? _]; lia);
    try (intros [= <-]; split; [lia | done]); by intros [_ ->].
Qed.

Lemma writestr_inr (zf zf' : ZipFile) (name : string) (data : bytes) :
  writestr zf name data = (zf', inr tt)
  ↔ _writing zf = false ∧ zip_name_ok name ∧ -1 <= compresslevel zf <= 9
    ∧ zf' = mkZipFile (compresslevel zf)
              (filelist zf ++ [(arcname name, data)]) false.
Proof.
  unfold writestr, zip_name_ok.
  destruct (decide (arcname name = "")) as [He | He].
  { split; [discriminate | by intros (_ & [H _] & _)]. }
  destruct (_writing zf).
  { split; [discriminate | by intros [H _]]. }
  destruct (Z.ltb_spec 65535 (Z.of_nat (String.length (arcname name))))
    as [Hlong | Hlen].
  { split; [discriminate | intros (_ & [_ H] & _); lia]. }
  destruct (compressobj (compresslevel zf)) as [e | []] eqn:Hc.
  - split; [discriminate |]. intros (_ & _ & Hl & _).
    apply compressobj_inr in Hl. congruence.
  - apply compressobj_inr in Hc. split.
    + by intros [= <-].
    + by intros (_ & _ & _ & ->).
Qed.

Lemma storable_zip_name_ok (name : string) :
  storable name → zip_name_ok name ∧ arcname name = name.
Proof.
  intros (Hne & Hnul & Hlen). unfold zip_name_ok. by rewrite Hnul.
Qed.

(** *** The zip loop *)

(** The loop adds one entry per file item, in order, to the entries
    already written. *)
Lemma zip_loop_accepted (lib : PyLib) (files : list FileItem.t) :
  ∀ zf,
    _writing zf = false →
    Forall (zip_accepts lib (compresslevel zf)) files →
    ∃ new,
      zip_loop lib zf files
      = (mkZipFile (compresslevel zf) (filelist zf ++ new) false, inr tt)
      ∧ Forall2 (zip_entry_of lib) files new
      ∧ (written zf →
         written (mkZipFile (compresslevel zf) (filelist zf ++ new) false)).
Proof.
  induction files as [| f files IH]; intros zf Hw Hall.
  - exists []. simpl. rewrite app_nil_r. destruct zf. simpl in *. subst.
    split; [done |]. split; [constructor | done].
  - apply Forall_cons in Hall as [([data Hdata] & Hname & Hlevel) Hrest].
    simpl. rewrite Hdata.
    pose proof (proj2 (writestr_inr zf _ (FileItem.name f) data)
                  (conj Hw (conj Hname (conj Hlevel eq_refl)))) as Hws.
    rewrite Hws.
    destruct (IH (mkZipFile (compresslevel zf)
                    (filelist zf ++ [(arcname (FileItem.name f), data)])
                    false) eq_refl Hrest) as (new & Hloop & Hnew & Hwr).
    exists ((arcname (FileItem.name f), data) :: new).
    simpl in *. rewrite <- app_assoc in Hloop, Hwr. simpl in Hloop, Hwr.
    split; [exact Hloop |]. split; [by constructor |].
    intros Hzf. apply Hwr. by eapply written_writestr.
Qed.

(** The loop comes to its end only when it gets past every item. *)
Lemma zip_loop_inr (lib : PyLib) (files : list FileItem.t) :
  ∀ zf zf',
    zip_loop lib zf files = (zf', inr tt) →
    Forall (zip_accepts lib (compresslevel zf)) files.
Proof.
  induction files as [| f files IH]; intros zf zf' Hloop; [constructor |].
  simpl in Hloop.
  destruct (b64decode lib (FileItem.content f)) as [e | data] eqn:Hdata;
    [discriminate |].
  destruct (writestr zf (FileItem.name f) data) as [zf1 [e | []]] eqn:Hws;
    [discriminate |].
  apply writestr_inr in Hws as (_ & Hname & Hlevel & ->).
  apply IH in Hloop. simpl in Hloop.
  constructor; [| exact Hloop]. split; [by exists data | done].
Qed.

(** A file item that does not decode stops the loop with its decode
    error, when the loop gets past the items before it; no handle is left
    open. *)
Lemma zip_loop_first_failure (lib : PyLib) (pre : list FileItem.t)
    (f : FileItem.t) (post : list FileItem.t) (e : Exception) :
  b64decode lib (FileItem.content f) = inl e →
  ∀ zf,
    _writing zf = false →
    Forall (zip_accepts lib (compresslevel zf)) pre →
    ∃ zf',
      zip_loop lib zf (pre ++ f :: post) = (zf', inl (decode_failure f e))
      ∧ _writing zf' = false.
Proof.
  intros Hf. induction pre as [| g pre IH]; intros zf Hw Hall; simpl.
  - rewrite Hf. eauto.
  - apply Forall_cons in Hall as [([data Hdata] & Hname & Hlevel) Hrest].
    rewrite Hdata.
    rewrite (proj2 (writestr_inr zf _ (FileItem.name g) data)
               (conj Hw (conj Hname (conj Hlevel eq_refl)))).
    by apply IH.
Qed.

Lemma compress_files_zip_accepted (lib : PyLib)
    (input : CompressionJobInput.t) :
  Forall (zip_accepts lib (CompressionJobInput.compression_level input))
    (CompressionJobInput.files input) →
  ∃ zf,
    compress_files_zip lib input = inr (zip_bytes lib zf)
    ∧ written zf
    ∧ Forall2 (zip_entry_of lib) (CompressionJobInput.files input)
        (filelist zf).
Proof.
  intros Hall. unfold compress_files_zip.
  destruct (zip_loop_accepted lib _
              (ZipFile_open (CompressionJobInput.compression_level input))
              eq_refl Hall) as (new & -> & Hnew & Hwr).
  eexists. split; [reflexivity |]. split; [apply Hwr; constructor |].
  exact Hnew.
Qed.

Lemma compress_files_zip_inr (lib : PyLib) (input : CompressionJobInput.t)
    (archive : bytes) :
  compress_files_zip lib input = inr archive →
  Forall (zip_accepts lib (CompressionJobInput.compression_level input))
    (CompressionJobInput.files input).
Proof.
  unfold compress_files_zip.
  destruct (zip_loop lib _ (CompressionJobInput.files input))
    as [zf [e | []]] eqn:Hloop.
  - by destruct (ZipFile_close zf).
  - intros _. by apply zip_loop_inr in Hloop.
Qed.

Lemma compress_files_zip_first_failure (lib : PyLib)
    (input : CompressionJobInput.t) (pre : list FileItem.t)
    (f : FileItem.t) (post : list FileItem.t) (e : Exception) :
  CompressionJobInput.files input = pre ++ f :: post →
  Forall (zip_accepts lib (CompressionJobInput.compression_level input))
    pre →
  b64decode lib (FileItem.content f) = inl e →
  compress_files_zip lib input = inl (decode_failure f e).
Proof.
  intros Hfiles Hpre Hf. unfold compress_files_zip. rewrite Hfiles.
  destruct (zip_loop_first_failure lib pre f post e Hf
              (ZipFile_open (CompressionJobInput.compression_level input))
              eq_refl Hpre) as (zf' & -> & Hw).
  unfold ZipFile_close. by rewrite Hw.
Qed.

(** *** The tar_gz loop *)

Lemma tar_gz_loop_decodable (lib : PyLib) (files : list FileItem.t) :
  Forall (decodable lib) files →
  ∀ combined, ∃ out, tar_gz_loop lib combined files = inr out.
Proof.
  induction 1 as [| f files [data Hdata] _ IH]; intros combined; simpl.
  - eauto.
  - rewrite Hdata. apply IH.
Qed.

Lemma tar_gz_loop_inr (lib : PyLib) (files : list FileItem.t) :
  ∀ combined out,
    tar_gz_loop lib combined files = inr out → Forall (decodable lib) files.
Proof.
  induction files as [| f files IH]; intros combined out Hloop;
    [constructor |].
  simpl in Hloop.
  destruct (b64decode lib (FileItem.content f)) as [e | data] eqn:Hdata;
    [discriminate |].
  constructor; [by exists data | by eapply IH].
Qed.

Lemma tar_gz_loop_first_failure (lib : PyLib) (pre : list FileItem.t)
    (f : FileItem.t) (post : list FileItem.t) (e : Exception) :
  Forall (decodable lib) pre →
  b64decode lib (FileItem.content f) = inl e →
  ∀ combined,
    tar_gz_loop lib combined (pre ++ f :: post) = inl (decode_failure f e).
Proof.
  intros Hpre Hf.
  induction Hpre as [| g pre [data Hg] _ IH]; intros combined; simpl.
  - by rewrite Hf.
  - rewrite Hg. apply IH.
Qed.

(** C6, as stated, fails: [zipfile] keeps a name only up to its first NUL
    character.  For a well-formed job whose one file is named "a", NUL,
    "b.txt", the archive holds the file's bytes under the name "a" and no
    entry under the file's name. *)
Lemma nul_name_is_cut :
  ∃ archive entries,
    compress_files_zip Stored.lib Examples.nul_zip = inr archive
    ∧ zip_read Stored.lib archive = Some entries
    ∧ entries = [("a", [Byte.x68; Byte.x69])]
    ∧ (∀ data, (Examples.nul_name, data) ∉ entries).
Proof.
  eexists _, _. split; [vm_compute; reflexivity |].
  split; [vm_compute; reflexivity |]. split; [reflexivity |].
  intros data Hin. apply list_elem_of_singleton in Hin. discriminate Hin.
Qed.

(** C6, amended. When every content decodes, every name is one that
    [zipfile] stores as it is (not empty, no NUL character, at most 65535
    bytes) and the level is one that zlib accepts (-1 to 9),
    [compress_files_zip] returns the bytes of an archive to which one
    entry per file item was written, in input order, named by the item's
    name and holding exactly the item's decoded content; in particular
    every file item has an entry with its name and its bytes.  With a
    [zipfile] that reads back what was written, these are the entries
    read from the archive. *)
Theorem zip_round_trip_by_name (lib : PyLib)
    (input : CompressionJobInput.t) :
  Forall (decodable lib) (CompressionJobInput.files input) →
  Forall (fun f => storable (FileItem.name f))
    (CompressionJobInput.files input) →
  -1 <= CompressionJobInput.compression_level input <= 9 →
  ∃ zf archive,
    compress_files_zip lib input = inr archive
    ∧ archive = zip_bytes lib zf
    ∧ written zf
    ∧ Forall2 (entry_of lib) (CompressionJobInput.files input) (filelist zf)
    ∧ (∀ f, f ∈ CompressionJobInput.files input →
         ∃ data, b64decode lib (FileItem.content f) = inr data
                 ∧ (FileItem.name f, data) ∈ filelist zf)
    ∧ (zip_roundtrip lib → zip_read lib archive = Some (filelist zf)).
Proof.
  intros Hdec Hnames Hlevel.
  assert (Hall :
    Forall (zip_accepts lib (CompressionJobInput.compression_level input))
      (CompressionJobInput.files input)).
  { apply Forall_forall. intros f Hf.
    rewrite Forall_forall in Hdec, Hnames.
    split; [by apply Hdec |]. split; [| exact Hlevel].
    by apply storable_zip_name_ok, Hnames. }
  destruct (compress_files_zip_accepted lib input Hall)
    as (zf & Hzip & Hwritten & Hentries).
  assert (Hentries' :
    Forall2 (entry_of lib) (CompressionJobInput.files input) (filelist zf)).
  { clear Hzip Hall Hdec.
    induction Hentries as [| f e files es [Hn Hd] _ IH]; [constructor |].
    apply Forall_cons in Hnames as [Hf Hrest].
    constructor; [| by apply IH].
    split; [| exact Hd].
    rewrite Hn. by apply storable_zip_name_ok. }
  exists zf, (zip_bytes lib zf).
  split; [exact Hzip |]. split; [reflexivity |]. split; [exact Hwritten |].
  split; [exact Hentries' |]. split.
  - intros f Hf.
    destruct (proj1 (list_elem_of_lookup _ _) Hf) as [i Hi].
    destruct (Forall2_lookup_l _ _ _ _ _ Hentries' Hi)
      as ([n d] & Hn & Hname & Hd).
    simpl in *. subst n. exists d. split; [exact Hd |].
    apply list_elem_of_lookup. eauto.
  - intros Hlib. by apply Hlib.
Qed.

Lemma zip_round_trip_by_name_witness :
  ∃ zf archive,
    compress_files_zip Stored.lib Examples.hi_zip = inr archive
    ∧ archive = zip_bytes Stored.lib zf
    ∧ written zf
    ∧ Forall2 (entry_of Stored.lib)
        (CompressionJobInput.files Examples.hi_zip) (filelist zf)
    ∧ (∀ f, f ∈ CompressionJobInput.files Examples.hi_zip →
         ∃ data, b64decode Stored.lib (FileItem.content f) = inr data
                 ∧ (FileItem.name f, data) ∈ filelist zf)
    ∧ (zip_roundtrip Stored.lib →
       zip_read Stored.lib archive = Some (filelist zf)).
Proof.
  apply (zip_round_trip_by_name Stored.lib Examples.hi_zip).
  - constructor; [by exists [Byte.x68; Byte.x69] | constructor].
  - constructor; [| constructor].
    split; [discriminate |]. split; [reflexivity | simpl; lia].
  - simpl. lia.
Defined.

Lemma update_job_progress_never_raises_witness :
  ∃ db',
    update_job_progress Stored.unavailable 10
      (mkDb Examples.pending_session [])
      (ProgressUpdate.mk "j1" 50 "compressing" (Some "Compressing files"))
    = (db', inr tt).
Proof.
  apply (update_job_progress_never_raises Stored.unavailable 10
           (mkDb Examples.pending_session [])
           (ProgressUpdate.mk "j1" 50 "compressing"
              (Some "Compressing files"))).
Defined.

End FileCompressionFacts.

(** ** The workflow *)
Module WorkflowFacts.
Import FileCompression FileCompressionWorkflow.

Lemma ratio_positive (o c : Z) :
  0 < o →
  ratio o c = Float.mul (Float.truediv (o - c) o) (inject_Z 100).
Proof.
  intros Ho. unfold ratio.
  by destruct (Z.ltb_spec 0 o) as [_ | Hle]; [| lia].
Qed.

Lemma ratio_zero (o c : Z) : o <= 0 → ratio o c = inject_Z 0.
Proof.
  intros Ho. unfold ratio.
  by destruct (Z.ltb_spec 0 o) as [Hlt | _]; [lia |].
Qed.

(** The double that Python prints as 87.33333333333333. *)
Example ratio_300_38 :
  (ratio 300 38 == 6145536991515989 # 70368744177664)%Q.
Proof. vm_compute. reflexivity. Qed.

Lemma quotient_le_1 (o c : Z) :
  0 < o → 0 <= c → (inject_Z (o - c) / inject_Z o <= inject_Z 1)%Q.
Proof.
  intros Ho Hc. apply Qle_shift_div_r.
  - change 0%Q with (inject_Z 0). rewrite <- Zlt_Qlt. lia.
  - rewrite <- inject_Z_mult, <- Zle_Qle. lia.
Qed.

Lemma quotient_nonneg (o c : Z) :
  0 < o → c <= o → (inject_Z 0 <= inject_Z (o - c) / inject_Z o)%Q.
Proof.
  intros Ho Hc. apply Qle_shift_div_l.
  - change 0%Q with (inject_Z 0). rewrite <- Zlt_Qlt. lia.
  - rewrite <- inject_Z_mult, <- Zle_Qle. lia.
Qed.

Lemma quotient_negative (o c : Z) :
  0 < o < c → o < 2 ^ 63 →
  (inject_Z (o - c) / inject_Z o <= - Float.pow2 (-63))%Q.
Proof.
  intros [Ho Hc] Hb. apply Qle_shift_div_r.
  - change 0%Q with (inject_Z 0). rewrite <- Zlt_Qlt. lia.
  - apply Qle_trans with (inject_Z (-1)); [rewrite <- Zle_Qle; lia |].
    setoid_replace (- Float.pow2 (-63) * inject_Z o)%Q
      with (- (inject_Z o / Float.pow2 63))%Q using relation Qeq.
    + change (inject_Z (-1)) with (- inject_Z 1)%Q.
      apply Qopp_le_compat.
      apply Qle_shift_div_r; [apply FloatFacts.pow2_pos |].
      rewrite FloatFacts.pow2_nonneg_Z by lia.
      rewrite <- inject_Z_mult, <- Zle_Qle. lia.
    + unfold Qdiv, Float.pow2. rewrite (Qpower_opp 2 63). ring.
Qed.

(** The ratio of an archive longer than a positive [original_size] is
    negative; [2^63] bounds the length of a [bytes] object. *)
Lemma ratio_negative (o c : Z) :
  0 < o < c → c < 2 ^ 63 → (ratio o c < inject_Z 0)%Q.
Proof.
  intros Hoc Hc. rewrite ratio_positive by lia.
  unfold Float.mul, Float.truediv.
  apply Qle_lt_trans with (- Float.pow2 (-63))%Q; [| done].
  apply FloatFacts.fl_le_neg_pow2; [lia |].
  assert (Hq :
    (Float.fl (inject_Z (o - c) / inject_Z o) <= - Float.pow2 (-63))%Q).
  { apply FloatFacts.fl_le_neg_pow2; [lia |]. apply quotient_negative; lia. }
  apply Qle_trans with (- Float.pow2 (-63) * inject_Z 100)%Q.
  - by apply Qmult_le_compat_r.
  - vm_compute. discriminate.
Qed.

Section AnyRuntime.
Context {S : Type} (rt : Runtime S) (lib : PyLib).

Ltac unfold_run :=
  unfold run, try_except, run_try, run_except, bind, ret, raise,
    execute_update_job_progress, execute_compress_files_zip,
    execute_compress_files_tar_gz, sleep in *.

(** C1. A run that returns a result has issued, in this order and
    nothing else, the reports starting (0), preparing (25),
    compressing (50), finalizing (90) and completed (100), for any
    behaviour of the runtime and of the library. *)
Theorem run_success_reports (input : CompressionJobInput.t) (s s' : S)
    (history : list Event) (r : CompressionJobResult.t) :
  run rt lib input (s, []) = ((s', history), inr r) →
  progress_reports history
  = happy_path (CompressionJobInput.job_id input)
  ∧ map milestone (progress_reports history)
    = [("starting", 0); ("preparing", 25); ("compressing", 50);
       ("finalizing", 90); ("completed", 100)]
  ∧ CompressionJobResult.status r = "completed".
Proof.
  intros Hrun. unfold_run.
  repeat case_match; simplify_eq; simpl; done.
Qed.

Lemma progress_reports_app (h1 h2 : list Event) :
  progress_reports (h1 ++ h2) = progress_reports h1 ++ progress_reports h2.
Proof.
  induction h1 as [| [[p | i | i] t | n] h1 IH]; simpl; [done | | done ..].
  by rewrite IH.
Qed.

(** Inside the [try] block the reports follow the fixed sequence. *)
Lemma run_try_reports_prefix (input : CompressionJobInput.t) (s s0 : S)
    (pre : list Event) (res : result CompressionJobResult.t) :
  run_try rt lib input (s, []) = ((s0, pre), res) →
  progress_reports pre
    `prefix_of` happy_path (CompressionJobInput.job_id input).
Proof.
  intros Hrun. unfold_run.
  repeat case_match; simplify_eq; simpl; eexists; reflexivity.
Qed.

Lemma happy_path_not_failed (job_id : string) :
  Forall (fun p => ProgressUpdate.status p ≠ "failed") (happy_path job_id).
Proof. repeat constructor; discriminate. Qed.

(** C3, amended. A run that raises has sent exactly one failed report,
    as its last event, and that report always carries progress 0,
    whichever milestone was reported last; its message quotes the
    exception that left the [try] block.  The reports before it are an
    initial part of the fixed sequence and none of them is failed. *)
Theorem run_failure_report (input : CompressionJobInput.t) (s s' : S)
    (history : list Event) (e : Exception) :
  run rt lib input (s, []) = ((s', history), inl e) →
  ∃ s0 pre e0,
    run_try rt lib input (s, []) = ((s0, pre), inl e0)
    ∧ history
      = pre ++ [ExecuteActivity
                  (UpdateJobProgress
                     (failed_report (CompressionJobInput.job_id input) e0))
                  10]
    ∧ progress_reports history
      = progress_reports pre
          ++ [failed_report (CompressionJobInput.job_id input) e0]
    ∧ ProgressUpdate.progress
        (failed_report (CompressionJobInput.job_id input) e0) = 0
    ∧ progress_reports pre
        `prefix_of` happy_path (CompressionJobInput.job_id input)
    ∧ Forall (fun p => ProgressUpdate.status p ≠ "failed")
        (progress_reports pre).
Proof.
  intros Hrun.
  destruct (run_try rt lib input (s, [])) as [[s0 pre] [e0 | r]] eqn:Htry.
  - exists s0, pre, e0.
    pose proof (run_try_reports_prefix _ _ _ _ _ Htry) as Hpre.
    assert (Hhist :
      history
      = pre ++ [ExecuteActivity
                  (UpdateJobProgress
                     (failed_report (CompressionJobInput.job_id input) e0))
                  10]).
    { unfold run, try_except in Hrun. rewrite Htry in Hrun.
      unfold run_except, bind, raise, execute_update_job_progress,
        failed_report in *.
      repeat case_match; simplify_eq; reflexivity. }
    split; [reflexivity |]. split; [exact Hhist |].
    split; [by rewrite Hhist, progress_reports_app |].
    split; [reflexivity |]. split; [exact Hpre |].
    destruct Hpre as [k Hk].
    pose proof (happy_path_not_failed (CompressionJobInput.job_id input))
      as Hall.
    rewrite Hk in Hall. by apply Forall_app in Hall as [Hall _].
  - unfold run, try_except in Hrun. rewrite Htry in Hrun. discriminate.
Qed.

(** C2, amended. With a format that is neither zip nor tar_gz the run
    raises and no archive-building activity is ever invoked.  The
    format is examined only after the reports starting, preparing and
    compressing: when reporting returns, the reports of the run are
    these three followed by the failed report that quotes the
    unsupported format, and the run raises the unsupported-format
    error. *)
Theorem run_unsupported_format (input : CompressionJobInput.t) (s : S) :
  unsupported input →
  ∃ s' history e,
    run rt lib input (s, []) = ((s', history), inl e)
    ∧ Forall (fun a => is_archive_building a = false) (activities history)
    ∧ (reports_return rt →
       progress_reports history
       = take 3 (happy_path (CompressionJobInput.job_id input))
           ++ [failed_report (CompressionJobInput.job_id input)
                 (ApplicationError
                    ("Unsupported compression format: "
                       +:+ CompressionJobInput.compression_format input))]
       ∧ e = ApplicationError
               ("Compression workflow failed: "
                  +:+ "Unsupported compression format: "
                  +:+ CompressionJobInput.compression_format input)).
Proof.
  intros [Hzip Htar].
  apply String.eqb_neq in Hzip. apply String.eqb_neq in Htar.
  unfold reports_return. unfold_run.
  rewrite Hzip, Htar.
  repeat case_match; simplify_eq; simpl;
    eexists _, _, _; (split; [reflexivity |]);
    (split; [repeat constructor |]);
    intros Hret;
    repeat match goal with
           | H : exec_update_job_progress rt ?s0 ?p ?t = (_, inl _) |- _ =>
               let X := fresh in
               pose proof (Hret s0 p t) as X; rewrite H in X;
               discriminate X
           end;
    done.
Qed.

(** C5. In the result of a successful run, compressed_size is the
    byte length of the archive that the archive-building activity
    returned (and compressed_data is that archive, encoded);
    original_size is the sum of the declared sizes; compression_ratio
    is the float that Python computes for
    (original_size - compressed_size) / original_size * 100 when
    original_size is positive, that is the quotient rounded to a double,
    times 100, rounded to a double, and it is 0 when original_size is 0.
    Nothing clamps the ratio: it is negative whenever the archive is
    longer than a positive original_size (an archive, as any bytes
    object, is shorter than 2^63 bytes). *)
Theorem run_result_sizes (input : CompressionJobInput.t) (s s' : S)
    (history : list Event) (r : CompressionJobResult.t) :
  run rt lib input (s, []) = ((s', history), inr r) →
  let o := CompressionJobResult.original_size r in
  let c := CompressionJobResult.compressed_size r in
  (∃ s1 s2 archive,
      (exec_compress_files_zip rt s1 input 300 = (s2, inr archive)
       ∨ exec_compress_files_tar_gz rt s1 input 300 = (s2, inr archive))
      ∧ c = Z.of_nat (length archive)
      ∧ CompressionJobResult.compressed_data r = b64encode lib archive)
  ∧ o = fold_left Z.add
          (map FileItem.size (CompressionJobInput.files input)) 0
  ∧ CompressionJobResult.compression_ratio r = ratio o c
  ∧ (0 < o →
     CompressionJobResult.compression_ratio r
     = Float.fl (Float.fl (inject_Z (o - c) / inject_Z o) * inject_Z 100))
  ∧ (o = 0 → CompressionJobResult.compression_ratio r = inject_Z 0)
  ∧ (0 < o < c → c < 2 ^ 63 →
     (CompressionJobResult.compression_ratio r < inject_Z 0)%Q).
Proof.
  intros Hrun o c.
  assert (Hfields :
    (∃ s1 s2 archive,
        (exec_compress_files_zip rt s1 input 300 = (s2, inr archive)
         ∨ exec_compress_files_tar_gz rt s1 input 300 = (s2, inr archive))
        ∧ c = Z.of_nat (length archive)
        ∧ CompressionJobResult.compressed_data r = b64encode lib archive)
    ∧ o = fold_left Z.add
            (map FileItem.size (CompressionJobInput.files input)) 0
    ∧ CompressionJobResult.compression_ratio r = ratio o c).
  { subst o c. unfold_run.
    repeat case_match; simplify_eq; simpl;
      (split; [eauto 10 | split; reflexivity]). }
  destruct Hfields as (Harchive & Ho & Hratio).
  split; [exact Harchive |]. split; [exact Ho |].
  split; [exact Hratio |]. rewrite Hratio.
  split; [apply ratio_positive |].
  split; [intros Hz; apply ratio_zero; lia | apply ratio_negative].
Qed.

End AnyRuntime.

Lemma direct_report_returns (faults : Faults) (lib : PyLib) :
  reports_return (direct faults lib).
Proof.
  intros [now db] p timeout. simpl.
  pose proof (FileCompressionFacts.update_job_progress_returns faults now db p)
    as Hret.
  by destruct (update_job_progress faults now db p) as [db' r].
Qed.

(** Under the direct runtime a supported format, a level that zlib
    accepts and files that the zip loop gets past are enough for the run
    to return a result, whatever goes wrong inside progress reporting. *)
Lemma run_direct_succeeds (faults : Faults) (lib : PyLib)
    (input : CompressionJobInput.t) (st : (Z * Db) * list Event) :
  ¬ unsupported input →
  -1 <= CompressionJobInput.compression_level input <= 9 →
  Forall (zip_accepts lib (CompressionJobInput.compression_level input))
    (CompressionJobInput.files input) →
  ∃ st' r, run (direct faults lib) lib input st = (st', inr r).
Proof.
  intros Hfmt Hlevel Hfiles. destruct st as [[now db] history].
  assert (Hzip : ∃ a, compress_files_zip lib input = inr a).
  { destruct (FileCompressionFacts.compress_files_zip_accepted lib input
                Hfiles) as (zf & -> & _).
    eauto. }
  assert (Htar : ∃ a, compress_files_tar_gz lib input = inr a).
  { unfold compress_files_tar_gz.
    assert (Hdec : Forall (decodable lib) (CompressionJobInput.files input))
      by (eapply Forall_impl; [exact Hfiles | by intros f [Hf _]]).
    destruct (FileCompressionFacts.tar_gz_loop_decodable lib _ Hdec [])
      as (out & ->).
    eexists. by apply FileCompressionFacts.gzip_compress_inr. }
  destruct Hzip as [az Hzip], Htar as [at_ Htar].
  unfold run, try_except, run_try, run_except, bind, ret, raise,
    execute_update_job_progress, execute_compress_files_zip,
    execute_compress_files_tar_gz, sleep.
  simpl. rewrite Hzip, Htar.
  unfold update_job_progress. simpl.
  repeat match goal with
         | |- context [update_job_progress_try ?f ?n ?se ?p] =>
             destruct (update_job_progress_try f n se p) as [? [? | ?]];
             simpl
         end;
    destruct (String.eqb (lower (CompressionJobInput.compression_format input))
                "zip") eqn:Ez; simpl;
    repeat match goal with
           | |- context [update_job_progress_try ?f ?n ?se ?p] =>
               destruct (update_job_progress_try f n se p) as [? [? | ?]];
               simpl
           end;
    try (eexists _, _; reflexivity);
    destruct (String.eqb (lower (CompressionJobInput.compression_format input))
                "tar_gz") eqn:Et; simpl;
    repeat match goal with
           | |- context [update_job_progress_try ?f ?n ?se ?p] =>
               destruct (update_job_progress_try f n se p) as [? [? | ?]];
               simpl
           end;
    try (eexists _, _; reflexivity);
    exfalso; apply Hfmt; split; by apply String.eqb_neq.
Qed.

Lemma run_success_reports_witness :
  ∃ s' history r,
    run (direct Stored.no_faults Stored.lib) Stored.lib Examples.hi_zip
      (Examples.start, [])
    = ((s', history), inr r)
    ∧ progress_reports history = happy_path "j1"
    ∧ map milestone (progress_reports history)
      = [("starting", 0); ("preparing", 25); ("compressing", 50);
         ("finalizing", 90); ("completed", 100)]
    ∧ CompressionJobResult.status r = "completed".
Proof.
  eexists _, _, _. split; [vm_compute; reflexivity |].
  eapply (run_success_reports (direct Stored.no_faults Stored.lib)
            Stored.lib Examples.hi_zip Examples.start).
  vm_compute. reflexivity.
Defined.

Lemma run_result_sizes_witness :
  ∃ s' history r,
    run (direct Stored.no_faults Stored.lib) Stored.lib Examples.hi_zip
      (Examples.start, [])
    = ((s', history), inr r)
    ∧ CompressionJobResult.original_size r = 2
    ∧ CompressionJobResult.compressed_size r = 18
    ∧ CompressionJobResult.compression_ratio r = ratio 2 18
    ∧ (CompressionJobResult.compression_ratio r < inject_Z 0)%Q.
Proof.
  eexists _, _, _. split; [vm_compute; reflexivity |].
  split; [reflexivity |]. split; [reflexivity |].
  edestruct (run_result_sizes (direct Stored.no_faults Stored.lib)
               Stored.lib Examples.hi_zip Examples.start)
    as (_ & _ & Hratio & _ & _ & Hneg); [vm_compute; reflexivity |].
  split; [exact Hratio | apply Hneg; simpl; lia].
Defined.

Lemma rar_unsupported : unsupported Examples.hi_rar.
Proof. split; discriminate. Qed.

(** C2, as stated, fails: when the unsupported-format error is raised,
    three activities (the reports starting, preparing and compressing)
    have already been invoked. *)
Lemma unsupported_format_found_after_three_activities :
  unsupported Examples.hi_rar
  ∧ ∃ s0 pre,
      run_try (direct Stored.no_faults Stored.lib) Stored.lib
        Examples.hi_rar (Examples.start, [])
      = ((s0, pre),
         inl (ApplicationError "Unsupported compression format: rar"))
      ∧ activities pre = map UpdateJobProgress (take 3 (happy_path "j1"))
      ∧ activities pre ≠ [].
Proof.
  split; [exact rar_unsupported |].
  eexists _, _. split; [vm_compute; reflexivity |].
  split; [reflexivity | discriminate].
Qed.

Lemma run_unsupported_format_witness :
  ∃ s' history e,
    run (direct Stored.no_faults Stored.lib) Stored.lib Examples.hi_rar
      (Examples.start, [])
    = ((s', history), inl e)
    ∧ Forall (fun a => is_archive_building a = false) (activities history)
    ∧ (reports_return (direct Stored.no_faults Stored.lib) →
       progress_reports history
       = take 3 (happy_path "j1")
           ++ [failed_report "j1"
                 (ApplicationError
                    ("Unsupported compression format: " +:+ "rar"))]
       ∧ e = ApplicationError
               ("Compression workflow failed: "
                  +:+ "Unsupported compression format: " +:+ "rar")).
Proof.
  apply (run_unsupported_format (direct Stored.no_faults Stored.lib)
           Stored.lib Examples.hi_rar Examples.start).
  split; discriminate.
Defined.

(** C3, as stated, fails: after a decode failure during compressing the
    last reported milestone is 50, and the failed report carries 0; the
    stored record ends with status failed and progress 0. *)
Lemma failed_report_resets_progress :
  ∃ now db history e,
    run (direct Stored.no_faults Stored.lib) Stored.lib
      Examples.undecodable_zip (Examples.start, [])
    = (((now, db), history), inl e)
    ∧ map milestone (progress_reports history)
      = [("starting", 0); ("preparing", 25); ("compressing", 50);
         ("failed", 0)]
    ∧ (Models.status <$> db_session db !! "j1") = Some "failed"
    ∧ (Models.progress <$> db_session db !! "j1") = Some 0
    ∧ 0 ≠ 50.
Proof.
  eexists _, _, _, _. split; [vm_compute; reflexivity |].
  split; [reflexivity |]. split; [vm_compute; reflexivity |].
  split; [vm_compute; reflexivity | discriminate].
Qed.

Lemma run_failure_report_witness :
  ∃ s' history e,
    run (direct Stored.no_faults Stored.lib) Stored.lib
      Examples.undecodable_zip (Examples.start, [])
    = ((s', history), inl e)
    ∧ ∃ s0 pre e0,
        run_try (direct Stored.no_faults Stored.lib) Stored.lib
          Examples.undecodable_zip (Examples.start, [])
        = ((s0, pre), inl e0)
        ∧ history
          = pre ++ [ExecuteActivity
                      (UpdateJobProgress (failed_report "j1" e0)) 10]
        ∧ progress_reports history
          = progress_reports pre ++ [failed_report "j1" e0]
        ∧ ProgressUpdate.progress (failed_report "j1" e0) = 0
        ∧ progress_reports pre `prefix_of` happy_path "j1"
        ∧ Forall (fun p => ProgressUpdate.status p ≠ "failed")
            (progress_reports pre).
Proof.
  eexists _, _, _. split; [vm_compute; reflexivity |].
  eapply (run_failure_report (direct Stored.no_faults Stored.lib)
            Stored.lib Examples.undecodable_zip Examples.start).
  vm_compute. reflexivity.
Defined.

End WorkflowFacts.

(** ** The Couchbase connection manager *)
Module CouchbaseFacts.
Import Couchbase.

(** The example states are states the client really reaches. *)
Example initialized_only_reached :
  initialize (__init__ (Some Examples.conf))
  = inr Examples.initialized_only.
Proof. reflexivity. Qed.

Example connecting_reached :
  _connection_retry_loop (inl (Error "TimeoutException" "timeout"))
    (inject_Z 1700000000) 0%nat
    (init_connection (mkWorld Examples.initialized_only [] 0%nat))
  = Examples.connecting.
Proof. vm_compute. reflexivity. Qed.

Example connected_client_reached :
  self
    (_connection_retry_loop (inr Examples.cluster) (inject_Z 1700000000)
       0%nat (init_connection (mkWorld Examples.initialized_only [] 0%nat)))
  = Examples.connected_client.
Proof. vm_compute. reflexivity. Qed.

(** C8, as stated, fails: with a retry loop active (task 0, not yet
    connected), a second [init_connection] creates task 1; the stored
    handle now names task 1, and after a failed attempt of each both
    tasks are still retrying. *)
Lemma init_connection_launches_second_loop :
  loop_active Examples.connecting
  ∧ loop_tasks Examples.connecting = [0%nat]
  ∧ loop_tasks (init_connection Examples.connecting) = [0%nat; 1%nat]
  ∧ _connection_task (self (init_connection Examples.connecting))
    = Some 1%nat
  ∧ init_connection Examples.connecting ≠ Examples.connecting
  ∧ loop_tasks
      (_connection_retry_loop (inl (Error "TimeoutException" "timeout"))
         (inject_Z 1700000001) 1%nat
         (_connection_retry_loop (inl (Error "TimeoutException" "timeout"))
            (inject_Z 1700000001) 0%nat
            (init_connection Examples.connecting)))
    = [0%nat; 1%nat].
Proof.
  split; [split; [discriminate | reflexivity] |].
  split; [reflexivity |]. split; [reflexivity |]. split; [reflexivity |].
  split; [discriminate | vm_compute; reflexivity].
Qed.

(** C8, amended. [init_connection] does nothing only on a client that
    is not initialized.  On an initialized client every call, also one
    made while a retry loop is active, creates one more task running
    the retry loop, after the existing ones, and replaces the stored
    task handle by the new one; the other attributes of the client are
    unchanged. *)
Theorem init_connection_spawns (w : World) :
  (_initialized (self w) = false → init_connection w = w)
  ∧ (_initialized (self w) = true →
     loop_tasks (init_connection w) = loop_tasks w ++ [next_task w]
     ∧ length (loop_tasks (init_connection w))
       = Datatypes.S (length (loop_tasks w))
     ∧ _connection_task (self (init_connection w)) = Some (next_task w)
     ∧ next_task (init_connection w) = Datatypes.S (next_task w)
     ∧ _cluster (self (init_connection w)) = _cluster (self w)
     ∧ _config (self (init_connection w)) = _config (self w)
     ∧ _initialized (self (init_connection w)) = true
     ∧ _connected (self (init_connection w)) = _connected (self w)
     ∧ _last_connection_error (self (init_connection w))
       = _last_connection_error (self w)
     ∧ _last_error_log_time (self (init_connection w))
       = _last_error_log_time (self w)).
Proof.
  unfold init_connection. split; intros Hinit; rewrite Hinit; simpl.
  - reflexivity.
  - rewrite length_app. simpl.
    repeat split; try reflexivity; try assumption. lia.
Qed.

Lemma init_connection_spawns_witness :
  loop_tasks (init_connection Examples.connecting)
  = loop_tasks Examples.connecting ++ [next_task Examples.connecting].
Proof.
  apply (proj2 (init_connection_spawns Examples.connecting)).
  reflexivity.
Defined.

(** C9, as stated, fails: [close] on a client that holds no cluster
    handle leaves it initialized, so the health check answers
    connecting; and [close] on a connected client does not reset the
    connected flag. *)
Lemma close_keeps_flags :
  _initialized (close Examples.initialized_only) = true
  ∧ status (health_check (close Examples.initialized_only)) = "connecting"
  ∧ _connected (close Examples.connected_client) = true.
Proof. repeat split. Qed.

(** C9, amended. On a client that holds a cluster handle, [close]
    releases the handle and resets the initialized flag, so that the
    next health check answers not_initialized.  On a client without a
    handle [close] changes nothing.  Closing twice is the same as
    closing once. *)
Theorem close_releases_handle (c : CouchbaseClient) :
  (is_Some (_cluster c) →
   _cluster (close c) = None
   ∧ _initialized (close c) = false
   ∧ health_check (close c) = mkHealth false "not_initialized" None)
  ∧ (_cluster c = None → close c = c)
  ∧ close (close c) = close c.
Proof.
  unfold close, health_check.
  destruct (_cluster c) as [cluster |] eqn:Hc; simpl.
  - split; [intros _; repeat split |]. split; [discriminate | reflexivity].
  - split; [intros [x Hx]; discriminate |].
    split; [reflexivity |]. by rewrite Hc.
Qed.

Lemma close_releases_handle_witness :
  _cluster (close Examples.connected_client) = None
  ∧ _initialized (close Examples.connected_client) = false
  ∧ health_check (close Examples.connected_client)
    = mkHealth false "not_initialized" None.
Proof.
  apply (proj1 (close_releases_handle Examples.connected_client)).
  simpl. eauto.
Defined.

End CouchbaseFacts.

(** ** The store, beyond the claims *)
Module StoreFacts.
Import Models.

(** X8. A job id that is not in the table: [get_compression_job] finds
    nothing, and both [update_compression_job_progress] and
    [complete_compression_job] return [None] and leave the table exactly
    as it was. *)
Theorem store_ops_on_unknown_id (now : Z) (session : Session)
    (job_id : string) :
  session !! job_id = None →
  get_compression_job session job_id = None
  ∧ (∀ p s m,
       update_compression_job_progress now session job_id p s m
       = (session, None))
  ∧ (∀ cs cr cd,
       complete_compression_job now session job_id cs cr cd
       = (session, None)).
Proof.
  intros Hnone.
  unfold get_compression_job, update_compression_job_progress,
    complete_compression_job.
  rewrite Hnone. auto.
Qed.

Lemma store_ops_on_unknown_id_witness :
  update_compression_job_progress 12 Examples.pending_session "j2" 50
    "compressing" (Some "Compressing files")
  = (Examples.pending_session, None).
Proof.
  apply (store_ops_on_unknown_id 12 Examples.pending_session "j2"
           eq_refl).
Defined.

(** X9. Creating a job under an id that is free and reading it back
    returns the job as given; every other id reads as before, and the
    table has exactly one row more. *)
Theorem create_then_get (session : Session) (job : CompressionJob) :
  session !! id job = None →
  (create_compression_job session job).2 = job
  ∧ get_compression_job (create_compression_job session job).1 (id job)
    = Some job
  ∧ (∀ k, k ≠ id job →
          get_compression_job (create_compression_job session job).1 k
          = get_compression_job session k)
  ∧ size (create_compression_job session job).1 = Datatypes.S (size session).
Proof.
  intros Hfree. unfold create_compression_job, get_compression_job. simpl.
  split; [reflexivity |]. split; [apply lookup_insert_eq |].
  split; [intros k Hk; by apply lookup_insert_ne |].
  by apply map_size_insert_None.
Qed.

Lemma create_then_get_witness :
  get_compression_job
    (create_compression_job ∅ Examples.pending_job).1 "j1"
  = Some Examples.pending_job.
Proof.
  apply (create_then_get ∅ Examples.pending_job).
  reflexivity.
Defined.

(** X10. Sending the same progress update a second time, at a later
    time: for a status other than completed and failed the table after
    the second update equals the table after the first; for completed and
    failed the only field of the row that moves is completed_at, which
    takes the later time. *)
Theorem repeated_update (now1 now2 : Z) (session : Session)
    (job_id : string) (p : Z) (s : string) (m : option string)
    (job : CompressionJob) :
  session !! job_id = Some job →
  ∀ once twice,
    once = (update_compression_job_progress now1 session job_id p s m).1 →
    twice = (update_compression_job_progress now2 once job_id p s m).1 →
    (terminal s = false → twice = once)
    ∧ (terminal s = true →
       ∃ row, once !! job_id = Some row
              ∧ twice = <[job_id := set_completed_at (Some now2) row]> once).
Proof.
  intros Hjob once twice -> ->.
  rewrite (ModelsFacts.update_found _ _ _ _ _ _ _ Hjob). simpl.
  set (row := apply_progress now1 p s m job).
  rewrite (ModelsFacts.update_found now2 _ job_id p s m row
             (lookup_insert_eq _ _ _)). simpl.
  assert (Hnt : terminal s = false → apply_progress now2 p s m row = row).
  { subst row. unfold terminal, apply_progress.
    destruct (String.eqb s "starting") eqn:Es.
    - apply String.eqb_eq in Es. subst s. simpl. intros _.
      destruct job as [i w st pr ms fc os cs cr cf ca [sa |] co cd];
        destruct (truthy_str m); reflexivity.
    - intros Hs. apply orb_false_elim in Hs as [Hc Hf]. simpl.
      rewrite Hc, Hf. simpl.
      destruct job; destruct (truthy_str m); reflexivity. }
  assert (Ht : terminal s = true →
               apply_progress now2 p s m row
               = set_completed_at (Some now2) row).
  { subst row. unfold terminal, apply_progress.
    destruct (String.eqb s "starting") eqn:Es.
    - apply String.eqb_eq in Es. subst s. discriminate.
    - intros Hs. simpl. rewrite Hs. simpl.
      destruct job; destruct (truthy_str m); reflexivity. }
  split.
  - intros H. rewrite (Hnt H). apply insert_insert_eq.
  - intros H. exists row. rewrite lookup_insert_eq.
    split; [done |]. by rewrite (Ht H).
Qed.

Lemma repeated_update_witness :
  (update_compression_job_progress 14
     (update_compression_job_progress 12 Examples.pending_session "j1" 25
        "preparing" (Some "Preparing files for compression")).1
     "j1" 25 "preparing" (Some "Preparing files for compression")).1
  = (update_compression_job_progress 12 Examples.pending_session "j1" 25
       "preparing" (Some "Preparing files for compression")).1.
Proof.
  apply (repeated_update 12 14 Examples.pending_session "j1" 25 "preparing"
           (Some "Preparing files for compression") Examples.pending_job
           eq_refl _ _ eq_refl eq_refl).
  reflexivity.
Defined.

(** X11. [complete_compression_job] stores what the progress update
    (100, "completed", "Compression completed successfully") stores, with
    the three result fields filled in; in particular both treat
    started_at and completed_at alike. *)
Theorem complete_is_update_with_results (now : Z) (session : Session)
    (job_id : string) (cs : Z) (cr : Q) (cd : string) :
  (complete_compression_job now session job_id cs cr cd).1 !! job_id
  = (fun row =>
       set_compressed_data (Some cd)
         (set_compression_ratio (Some cr)
            (set_compressed_size (Some cs) row)))
    <$> (update_compression_job_progress now session job_id 100 "completed"
           (Some "Compression completed successfully")).1 !! job_id
  ∧ (∀ k, k ≠ job_id →
       (complete_compression_job now session job_id cs cr cd).1 !! k
       = (update_compression_job_progress now session job_id 100
            "completed" (Some "Compression completed successfully")).1 !! k).
Proof.
  unfold complete_compression_job, update_compression_job_progress.
  destruct (session !! job_id) as [job |] eqn:Hjob; simpl.
  - split.
    + rewrite !lookup_insert_eq. simpl. by destruct job.
    + intros k Hk. by rewrite !lookup_insert_ne.
  - split; [by rewrite Hjob | done].
Qed.

End StoreFacts.

(** ** The files of a job *)
Module FilesFacts.
Import ModelsFiles.

Lemma new_files_job (pk : nat → string) (now : Z) (job_id' : string)
    (fs : list FileData) :
  ∀ i, Forall (fun f => job_id f = job_id') (new_files pk now job_id' i fs)
       ∧ map file_data_of (new_files pk now job_id' i fs) = fs.
Proof.
  induction fs as [| [n c s] fs IH]; intros i; simpl.
  - split; [constructor | reflexivity].
  - destruct (IH (Datatypes.S i)) as [Hall Hmap].
    split; [by constructor | by rewrite Hmap].
Qed.



End FilesFacts.

(** ** The activities, beyond the claims *)
Module ActivityFacts.
Import FileCompression ArchiveLayout.

(** X13. When the archive activities return.  [compress_files_zip]
    returns an archive exactly when, for every file, the content decodes,
    the name up to its first NUL character is not empty and at most 65535
    bytes long, and the level is between -1 and 9 (so with no files it
    returns at any level).  [compress_files_tar_gz] returns exactly when
    every content decodes and the level is between -1 and 9, whatever the
    names.  An input with files that the zip activity accepts is
    therefore accepted by the tar_gz activity too. *)
Theorem archive_activities_return_iff (lib : PyLib)
    (input : CompressionJobInput.t) :
  ((∃ archive, compress_files_zip lib input = inr archive)
   ↔ Forall (zip_accepts lib (CompressionJobInput.compression_level input))
       (CompressionJobInput.files input))
  ∧ ((∃ archive, compress_files_tar_gz lib input = inr archive)
     ↔ Forall (decodable lib) (CompressionJobInput.files input)
       ∧ -1 <= CompressionJobInput.compression_level input <= 9)
  ∧ (CompressionJobInput.files input ≠ [] →
     (∃ archive, compress_files_zip lib input = inr archive) →
     ∃ archive, compress_files_tar_gz lib input = inr archive).
Proof.
  assert (Hzip :
    (∃ archive, compress_files_zip lib input = inr archive)
    ↔ Forall (zip_accepts lib (CompressionJobInput.compression_level input))
        (CompressionJobInput.files input)).
  { split.
    - intros [archive Harchive].
      by eapply FileCompressionFacts.compress_files_zip_inr.
    - intros Hall.
      destruct (FileCompressionFacts.compress_files_zip_accepted lib input
                  Hall) as (zf & Hzf & _).
      eauto. }
  assert (Htar :
    (∃ archive, compress_files_tar_gz lib input = inr archive)
    ↔ Forall (decodable lib) (CompressionJobInput.files input)
      ∧ -1 <= CompressionJobInput.compression_level input <= 9).
  { unfold compress_files_tar_gz. split.
    - intros [archive Harchive].
      destruct (tar_gz_loop lib [] (CompressionJobInput.files input))
        as [e | combined] eqn:Hloop; [discriminate |].
      apply FileCompressionFacts.gzip_compress_inr in Harchive as [Hl _].
      split; [by eapply FileCompressionFacts.tar_gz_loop_inr | exact Hl].
    - intros [Hdec Hl].
      destruct (FileCompressionFacts.tar_gz_loop_decodable lib _ Hdec [])
        as (out & ->).
      eexists. by apply FileCompressionFacts.gzip_compress_inr. }
  split; [exact Hzip |]. split; [exact Htar |].
  intros Hfiles Hz. apply Htar. apply Hzip in Hz.
  destruct (CompressionJobInput.files input) as [| f files]; [done |].
  split.
  - eapply Forall_impl; [exact Hz | by intros g [Hg _]].
  - apply Forall_cons in Hz as [(_ & _ & Hl) _]. exact Hl.
Qed.

Lemma archive_activities_return_iff_witness :
  (∃ archive, compress_files_zip Stored.lib Examples.hi_zip = inr archive)
  ∧ ¬ (∃ archive,
         compress_files_zip Stored.lib
           (CompressionJobInput.mk "j1" [FileItem.mk "a.txt" "aGk=" 2]
              "zip" 10)
         = inr archive).
Proof.
  split.
  - apply (proj1 (archive_activities_return_iff Stored.lib Examples.hi_zip)).
    constructor; [| constructor].
    split; [by exists [Byte.x68; Byte.x69] |].
    split; [split; [discriminate | simpl; lia] | simpl; lia].
  - intros Hreturns.
    apply (proj1 (archive_activities_return_iff Stored.lib
                    (CompressionJobInput.mk "j1"
                       [FileItem.mk "a.txt" "aGk=" 2] "zip" 10)))
      in Hreturns.
    apply Forall_cons in Hreturns as [(_ & _ & Hlevel) _].
    simpl in Hlevel. lia.
Defined.

(** X14. When some file does not decode and every file before it does,
    [compress_files_tar_gz] raises the ApplicationError "Failed to decode
    file NAME: REASON" of that first file, whatever the names, the level
    and the files after it; so does [compress_files_zip] when it gets past
    the files before it (their names are accepted by [writestr], and the
    level by zlib), in particular when the first file is the one that
    does not decode. *)
Theorem first_undecodable_file_is_reported (lib : PyLib)
    (input : CompressionJobInput.t) (pre : list FileItem.t)
    (f : FileItem.t) (post : list FileItem.t) (e : Exception) :
  CompressionJobInput.files input = pre ++ f :: post →
  Forall (decodable lib) pre →
  b64decode lib (FileItem.content f) = inl e →
  compress_files_tar_gz lib input
  = inl (ApplicationError
           ("Failed to decode file " +:+ FileItem.name f +:+ ": " +:+ str e))
  ∧ (Forall (zip_accepts lib (CompressionJobInput.compression_level input))
       pre →
     compress_files_zip lib input
     = inl (ApplicationError
              ("Failed to decode file " +:+ FileItem.name f +:+ ": "
                 +:+ str e))).
Proof.
  intros Hfiles Hpre Hf. split.
  - unfold compress_files_tar_gz. rewrite Hfiles.
    by rewrite (FileCompressionFacts.tar_gz_loop_first_failure lib pre f post
                  e Hpre Hf).
  - intros Hacc.
    by apply (FileCompressionFacts.compress_files_zip_first_failure lib input
                pre f post e).
Qed.

Lemma first_undecodable_file_is_reported_witness :
  compress_files_tar_gz Stored.lib
    (CompressionJobInput.mk "j1"
       [FileItem.mk "a.txt" "aGk=" 2; FileItem.mk "b.txt" "abc" 2;
        FileItem.mk "c.txt" "a" 1] "zip" 6)
  = inl (ApplicationError
           ("Failed to decode file " +:+ "b.txt" +:+ ": "
              +:+ "Incorrect padding"))
  ∧ compress_files_zip Stored.lib
      (CompressionJobInput.mk "j1"
         [FileItem.mk "a.txt" "aGk=" 2; FileItem.mk "b.txt" "abc" 2;
          FileItem.mk "c.txt" "a" 1] "zip" 6)
    = inl (ApplicationError
             ("Failed to decode file " +:+ "b.txt" +:+ ": "
                +:+ "Incorrect padding")).
Proof.
  destruct (first_undecodable_file_is_reported Stored.lib
              (CompressionJobInput.mk "j1"
                 [FileItem.mk "a.txt" "aGk=" 2; FileItem.mk "b.txt" "abc" 2;
                  FileItem.mk "c.txt" "a" 1] "zip" 6)
              [FileItem.mk "a.txt" "aGk=" 2] (FileItem.mk "b.txt" "abc" 2)
              [FileItem.mk "c.txt" "a" 1]
              (Error "binascii.Error" "Incorrect padding"))
    as [Htar Hzip].
  - reflexivity.
  - constructor; [by exists [Byte.x68; Byte.x69] | constructor].
  - reflexivity.
  - split; [exact Htar |]. apply Hzip.
    constructor; [| constructor].
    split; [by exists [Byte.x68; Byte.x69] |].
    split; [split; [discriminate | simpl; lia] | simpl; lia].
Defined.

Lemma tar_gz_loop_frames (lib : PyLib) (files : list FileItem.t)
    (datas : list bytes) :
  Forall2 (decodes_to lib) files datas →
  ∀ combined,
    tar_gz_loop lib combined files
    = inr (combined ++ concat (zip_with frame files datas)).
Proof.
  induction 1 as [| f d files datas Hf _ IH]; intros combined;
    cbn [tar_gz_loop zip_with concat].
  - by rewrite app_nil_r.
  - unfold decodes_to in Hf. rewrite Hf, IH. unfold frame.
    f_equal. by rewrite <- !app_assoc.
Qed.

(** X15. When every file decodes and the level is one that zlib
    accepts (-1 to 9), the tar_gz activity returns the gzip stream, at
    the requested level, of the concatenation in input order of one frame
    per file: the line "--- NAME ---", the decoded bytes, and a blank
    line; at any other level it raises.  The uncompressed content for a
    list of files followed by another is the content for the first
    followed by the content for the second. *)
Theorem tar_gz_is_gzip_of_frames (lib : PyLib)
    (input : CompressionJobInput.t) (datas : list bytes) :
  Forall2 (decodes_to lib) (CompressionJobInput.files input) datas →
  (-1 <= CompressionJobInput.compression_level input <= 9 →
   compress_files_tar_gz lib input
   = inr (gzip_bytes lib
            (concat (zip_with frame (CompressionJobInput.files input) datas))
            (CompressionJobInput.compression_level input)))
  ∧ (¬ -1 <= CompressionJobInput.compression_level input <= 9 →
     ∃ e, compress_files_tar_gz lib input = inl e)
  ∧ (∀ files1 datas1 files2 datas2,
       Forall2 (decodes_to lib) files1 datas1 →
       Forall2 (decodes_to lib) files2 datas2 →
       tar_gz_loop lib [] (files1 ++ files2)
       = inr (concat (zip_with frame files1 datas1)
                ++ concat (zip_with frame files2 datas2))).
Proof.
  intros Hfiles. split; [| split].
  - intros Hlevel. unfold compress_files_tar_gz.
    rewrite (tar_gz_loop_frames lib _ _ Hfiles []).
    by apply FileCompressionFacts.gzip_compress_inr.
  - intros Hlevel. unfold compress_files_tar_gz.
    rewrite (tar_gz_loop_frames lib _ _ Hfiles []). simpl.
    destruct (gzip_compress lib _ _) as [e | out] eqn:Hgz; [eauto |].
    by apply FileCompressionFacts.gzip_compress_inr in Hgz as [Hl _].
  - intros files1 datas1 files2 datas2 H1 H2.
    rewrite (tar_gz_loop_frames lib _ _ (Forall2_app H1 H2) []).
    simpl. f_equal.
    rewrite zip_with_app by (by eapply Forall2_length).
    apply concat_app.
Qed.

Lemma tar_gz_is_gzip_of_frames_witness :
  compress_files_tar_gz Stored.lib
    (CompressionJobInput.mk "j1" [FileItem.mk "a.txt" "aGk=" 2] "tar_gz" 6)
  = inr (gzip_bytes Stored.lib
           (concat
              (zip_with frame [FileItem.mk "a.txt" "aGk=" 2]
                 [[Byte.x68; Byte.x69]]))
           6).
Proof.
  apply (tar_gz_is_gzip_of_frames Stored.lib
           (CompressionJobInput.mk "j1" [FileItem.mk "a.txt" "aGk=" 2]
              "tar_gz" 6)
           [[Byte.x68; Byte.x69]]).
  - repeat constructor.
  - simpl. lia.
Defined.

Lemma try_session_cases (faults : Faults) (now : Z)
    (session : Models.Session) (p : ProgressUpdate.t) :
  (update_job_progress_try faults now session p).1 = session
  ∨ (update_job_progress_try faults now session p).1
    = (Models.update_compression_job_progress now session
         (ProgressUpdate.job_id p) (ProgressUpdate.progress p)
         (ProgressUpdate.status p) (ProgressUpdate.message p)).1.
Proof.
  unfold update_job_progress_try, session_update, call.
  destruct (faults GetPostgresConf); [by left |].
  destruct (faults GetPostgresPoolConf); [by left |].
  destruct (faults NewPostgresClient); [by left |].
  destruct (faults Initialize); [by left |].
  destruct (faults InitConnection); [by left |].
  destruct (faults EnterSession); [by left |].
  destruct (faults Execute); [by left |].
  destruct (Models.update_compression_job_progress now session
              (ProgressUpdate.job_id p) (ProgressUpdate.progress p)
              (ProgressUpdate.status p) (ProgressUpdate.message p))
    as [session' [job |]]; simpl.
  - destruct (faults Flush); [by left |].
    destruct (faults ExitSession), (faults Close),
      (flushed_row_kept faults ExitSession),
      (flushed_row_kept faults Close); simpl; auto.
  - destruct (faults Flush), (faults ExitSession), (faults Close),
      (flushed_row_kept faults ExitSession),
      (flushed_row_kept faults Close); simpl; auto.
Qed.

Lemma update_job_progress_session (faults : Faults) (now : Z) (db : Db)
    (p : ProgressUpdate.t) :
  db_session (update_job_progress faults now db p).1
  = (update_job_progress_try faults now (db_session db) p).1.
Proof.
  unfold update_job_progress. simpl.
  by destruct (update_job_progress_try faults now (db_session db) p)
    as [session' [e | u]].
Qed.

(** X16. What a progress report does to the table.  It writes all or
    nothing: the table afterwards is either exactly as before or the one
    [update_compression_job_progress] produces.  It is the latter when no
    call of the activity raises, and the former when a call up to and
    including the flush raises: a report that fails before its row is
    flushed writes nothing.  (When only leaving the session or closing
    the client raises, which of the two it is depends on
    [PostgresClient.get_session].) *)
Theorem update_job_progress_writes_all_or_nothing (faults : Faults)
    (now : Z) (db : Db) (p : ProgressUpdate.t) :
  (db_session (update_job_progress faults now db p).1 = db_session db
   ∨ db_session (update_job_progress faults now db p).1
     = (Models.update_compression_job_progress now (db_session db)
          (ProgressUpdate.job_id p) (ProgressUpdate.progress p)
          (ProgressUpdate.status p) (ProgressUpdate.message p)).1)
  ∧ ((∀ st, faults st = None) →
     db_session (update_job_progress faults now db p).1
     = (Models.update_compression_job_progress now (db_session db)
          (ProgressUpdate.job_id p) (ProgressUpdate.progress p)
          (ProgressUpdate.status p) (ProgressUpdate.message p)).1)
  ∧ (∀ st e, st ∈ before_write → faults st = Some e →
       db_session (update_job_progress faults now db p).1 = db_session db).
Proof.
  rewrite update_job_progress_session.
  split; [apply try_session_cases |]. split.
  - intros Hok.
    unfold update_job_progress_try, session_update, call.
    rewrite !Hok.
    by destruct (Models.update_compression_job_progress now (db_session db)
                   (ProgressUpdate.job_id p) (ProgressUpdate.progress p)
                   (ProgressUpdate.status p) (ProgressUpdate.message p))
      as [session' [job |]].
  - intros st e Hst Hfault.
    assert (Hmissing :
      (db_session db) !! ProgressUpdate.job_id p = None →
      (Models.update_compression_job_progress now (db_session db)
         (ProgressUpdate.job_id p) (ProgressUpdate.progress p)
         (ProgressUpdate.status p) (ProgressUpdate.message p))
      = (db_session db, None)).
    { intros H. unfold Models.update_compression_job_progress. by rewrite H. }
    unfold update_job_progress_try, session_update.
    unfold before_write in Hst.
    repeat (apply elem_of_cons in Hst as [-> | Hst]);
      [.. | by apply not_elem_of_nil in Hst];
      unfold call;
      destruct (faults GetPostgresConf) eqn:E1; simpl; try congruence;
      try reflexivity;
      destruct (faults GetPostgresPoolConf) eqn:E2; simpl; try congruence;
      try reflexivity;
      destruct (faults NewPostgresClient) eqn:E3; simpl; try congruence;
      try reflexivity;
      destruct (faults Initialize) eqn:E4; simpl; try congruence;
      try reflexivity;
      destruct (faults InitConnection) eqn:E5; simpl; try congruence;
      try reflexivity;
      destruct (faults EnterSession) eqn:E6; simpl; try congruence;
      try reflexivity;
      destruct (faults Execute) eqn:E7; simpl; try congruence;
      try reflexivity;
      destruct (db_session db !! ProgressUpdate.job_id p) as [job |] eqn:Hrow;
      [ unfold Models.update_compression_job_progress; rewrite Hrow; simpl;
        rewrite Hfault; reflexivity
      | rewrite (Hmissing eq_refl); simpl;
        destruct (faults ExitSession), (faults Close),
          (flushed_row_kept faults ExitSession),
          (flushed_row_kept faults Close); reflexivity ].
Qed.

Lemma update_job_progress_writes_all_or_nothing_witness :
  db_session
    (update_job_progress Stored.unavailable 10
       (mkDb Examples.pending_session [])
       (ProgressUpdate.mk "j1" 50 "compressing" (Some "Compressing files"))).1
  = Examples.pending_session.
Proof.
  apply (proj2 (proj2 (update_job_progress_writes_all_or_nothing
                         Stored.unavailable
                         10 (mkDb Examples.pending_session [])
                         (ProgressUpdate.mk "j1" 50 "compressing"
                            (Some "Compressing files"))))
           Execute (Error "ConnectionRefusedError" "connection refused")).
  - unfold before_write. set_solver.
  - reflexivity.
Defined.

End ActivityFacts.

(** ** Keyspaces *)
Module KeyspaceFacts.
Import Keyspace.

Lemma split_cons (sep : ascii) (s : string) :
  ∃ piece pieces, split sep s = piece :: pieces.
Proof.
  induction s as [| c s (p & ps & IH)]; simpl; [eauto |].
  destruct (Ascii.eqb c sep); [eauto |]. rewrite IH. eauto.
Qed.

Lemma length_split (sep : ascii) (s : string) :
  length (split sep s) = Datatypes.S (count sep s).
Proof.
  induction s as [| c s IH]; simpl; [reflexivity |].
  destruct (Ascii.eqb c sep); simpl; [by rewrite IH |].
  destruct (split_cons sep s) as (p & ps & Hs). rewrite Hs in *. exact IH.
Qed.

Lemma join_split (sep : ascii) (s : string) : join sep (split sep s) = s.
Proof.
  induction s as [| c s IH]; simpl; [reflexivity |].
  destruct (split_cons sep s) as (p & ps & Hs). rewrite Hs in *.
  destruct (Ascii.eqb_spec c sep) as [-> | Hne].
  - simpl in *. by rewrite IH.
  - destruct ps; simpl in *; by rewrite <- IH.
Qed.

Lemma count_app (sep : ascii) (a b : string) :
  count sep (a +:+ b) = (count sep a + count sep b)%nat.
Proof.
  induction a as [| c a IH]; simpl; [reflexivity |].
  destruct (Ascii.eqb c sep); simpl; by rewrite IH.
Qed.

Lemma split_app_sep (sep : ascii) (a r : string) :
  count sep a = 0%nat →
  split sep (a +:+ String sep r) = a :: split sep r.
Proof.
  induction a as [| c a IH]; simpl.
  - intros _. by rewrite Ascii.eqb_refl.
  - destruct (Ascii.eqb c sep); [discriminate |].
    intros Ha. by rewrite (IH Ha).
Qed.

Lemma split_no_sep (sep : ascii) (a : string) :
  count sep a = 0%nat → split sep a = [a].
Proof.
  induction a as [| c a IH]; simpl; [reflexivity |].
  destruct (Ascii.eqb c sep); [discriminate |].
  intros Ha. by rewrite (IH Ha).
Qed.

Lemma from_string_inr (s : string) (k : Keyspace) :
  from_string s = inr k →
  split dot s = [bucket_name k; scope_name k; collection_name k].
Proof.
  unfold from_string.
  destruct (split dot s) as [| b [| sc [| c [| x l]]]]; try discriminate.
  intros [= <-]. reflexivity.
Qed.

(** X1. A keyspace string that [from_string] accepts prints back to
    itself: [str(Keyspace.from_string(s)) == s]. *)
Theorem from_string_then_str (s : string) (k : Keyspace) :
  from_string s = inr k → __str__ k = s.
Proof.
  intros Hk. apply from_string_inr in Hk.
  rewrite <- (join_split dot s), Hk. reflexivity.
Qed.

Lemma from_string_then_str_witness :
  __str__ (mkKeyspace "travel" "inventory" "hotel") = "travel.inventory.hotel".
Proof.
  apply (from_string_then_str "travel.inventory.hotel"
           (mkKeyspace "travel" "inventory" "hotel")).
  reflexivity.
Defined.

(** X2. [from_string] accepts exactly the strings with two dots; every
    other string raises the ValueError that quotes it. *)
Theorem from_string_accepts_two_dots (s : string) :
  ((∃ k, from_string s = inr k) ↔ count dot s = 2%nat)
  ∧ (count dot s ≠ 2%nat →
     from_string s
     = inl (Error "ValueError"
              ("Invalid keyspace format. Expected "
                 +:+ "'bucket_name.scope_name.collection_name', "
                 +:+ "got '" +:+ s +:+ "'"))).
Proof.
  pose proof (length_split dot s) as Hlen. unfold from_string.
  destruct (split dot s) as [| b [| sc [| c [| x l]]]]; simpl in Hlen;
    (split; [split; [intros [k Hk]; try discriminate; lia
                    | intros Hc; try lia; eauto]
            | intros Hc; try reflexivity; lia]).
Qed.

Lemma from_string_accepts_two_dots_witness :
  from_string "travel.hotel"
  = inl (Error "ValueError"
           ("Invalid keyspace format. Expected "
              +:+ "'bucket_name.scope_name.collection_name', "
              +:+ "got '" +:+ "travel.hotel" +:+ "'")).
Proof.
  apply (proj2 (from_string_accepts_two_dots "travel.hotel")).
  vm_compute. lia.
Defined.

(** X3. Printing a keyspace and parsing the result gives the keyspace
    back exactly when none of its three names contains a dot; with a dot
    in a name the printed form is rejected. *)
Theorem str_then_from_string (k : Keyspace) :
  (count dot (bucket_name k) = 0%nat
   ∧ count dot (scope_name k) = 0%nat
   ∧ count dot (collection_name k) = 0%nat
   → from_string (__str__ k) = inr k)
  ∧ (from_string (__str__ k) = inr k →
     count dot (bucket_name k) = 0%nat
     ∧ count dot (scope_name k) = 0%nat
     ∧ count dot (collection_name k) = 0%nat)
  ∧ (∀ k', from_string (__str__ k) = inr k' → k' = k).
Proof.
  assert (Hcount :
    count dot (__str__ k)
    = (count dot (bucket_name k) + count dot (scope_name k)
       + count dot (collection_name k) + 2)%nat).
  { change (__str__ k)
      with (bucket_name k
              +:+ String dot (scope_name k +:+ String dot (collection_name k))).
    rewrite count_app. simpl. rewrite count_app. simpl. lia. }
  assert (Hok : ∀ k', from_string (__str__ k) = inr k' →
    count dot (bucket_name k) = 0%nat
    ∧ count dot (scope_name k) = 0%nat
    ∧ count dot (collection_name k) = 0%nat).
  { intros k' Hk'.
    assert (count dot (__str__ k) = 2%nat) as H2.
    { apply (proj1 (from_string_accepts_two_dots (__str__ k))). eauto. }
    lia. }
  assert (Hparse :
    count dot (bucket_name k) = 0%nat
    ∧ count dot (scope_name k) = 0%nat
    ∧ count dot (collection_name k) = 0%nat
    → from_string (__str__ k) = inr k).
  { intros (Hb & Hs & Hc). unfold from_string.
    change (__str__ k)
      with (bucket_name k
              +:+ String dot (scope_name k +:+ String dot (collection_name k))).
    rewrite (split_app_sep dot _ _ Hb), (split_app_sep dot _ _ Hs),
      (split_no_sep dot _ Hc).
    by destruct k. }
  split; [exact Hparse |]. split; [apply Hok |].
  intros k' Hk'. rewrite (Hparse (Hok k' Hk')) in Hk'. congruence.
Qed.

Lemma str_then_from_string_witness :
  from_string (__str__ (mkKeyspace "travel" "inventory" "hotel"))
  = inr (mkKeyspace "travel" "inventory" "hotel").
Proof.
  apply (proj1 (str_then_from_string
                  (mkKeyspace "travel" "inventory" "hotel"))).
  repeat split.
Defined.

End KeyspaceFacts.

(** ** The connection manager over its life *)
Module CouchbaseLifecycle.
Import Couchbase Keyspace.

(** X4. One turn of an active retry loop on a client that is not
    connected: a successful attempt stores the handle, marks the client
    connected and ends the task, so the health check answers healthy and
    [get_cluster] returns the handle; a failed attempt records the text
    of the exception, keeps the task, and the health check answers
    connecting with that text while [get_cluster] keeps waiting. *)
Theorem retry_turn_outcomes (w : World) (task : Task) (current_time : Q) :
  task ∈ loop_tasks w →
  _connected (self w) = false →
  _initialized (self w) = true →
  (∀ cluster w',
      w' = _connection_retry_loop (inr cluster) current_time task w →
      _cluster (self w') = Some cluster
      ∧ (task ∉ loop_tasks w')
      ∧ health_check (self w') = mkHealth true "healthy" None
      ∧ get_cluster (self w') = Ready (Some cluster))
  ∧ (∀ e w',
      w' = _connection_retry_loop (inl e) current_time task w →
      loop_tasks w' = loop_tasks w
      ∧ _cluster (self w') = _cluster (self w)
      ∧ health_check (self w')
        = mkHealth false "connecting" (Some (Some (str e)))
      ∧ get_cluster (self w') = Waiting).
Proof.
  intros Htask Hconn Hinit. split.
  - intros cluster w' ->. unfold _connection_retry_loop.
    rewrite bool_decide_eq_true_2 by exact Htask. rewrite Hconn. simpl.
    unfold health_check, get_cluster, _ensure_initialized, finish. simpl.
    rewrite Hinit. simpl. repeat split.
    intros Hin. apply list_elem_of_filter in Hin as [Hne _]. by apply Hne.
  - intros e w' ->. unfold _connection_retry_loop.
    rewrite bool_decide_eq_true_2 by exact Htask. rewrite Hconn. simpl.
    unfold health_check, get_cluster, _ensure_initialized. simpl.
    rewrite Hinit. simpl. try rewrite Hconn. simpl. repeat split.
Qed.

Lemma retry_turn_outcomes_witness :
  health_check
    (self (_connection_retry_loop (inr Examples.cluster)
             (inject_Z 1700000002) 0%nat Examples.connecting))
  = mkHealth true "healthy" None.
Proof.
  apply (proj1 (retry_turn_outcomes Examples.connecting 0%nat
                  (inject_Z 1700000002) ltac:(by left) eq_refl eq_refl)
           Examples.cluster _ eq_refl).
Defined.

(** X5. A client that says it is connected holds a handle: this is true
    of a new client and is kept by [initialize], by [init_connection] and
    by every turn of a retry loop, whatever the attempt does. *)
Theorem handle_when_connected_kept :
  (∀ config, handle_when_connected (__init__ config))
  ∧ (∀ c c', handle_when_connected c → initialize c = inr c' →
             handle_when_connected c')
  ∧ (∀ w, handle_when_connected (self w) →
          handle_when_connected (self (init_connection w)))
  ∧ (∀ w attempt current_time task,
        handle_when_connected (self w) →
        handle_when_connected
          (self (_connection_retry_loop attempt current_time task w))).
Proof.
  unfold handle_when_connected. split; [| split; [| split]].
  - intros config. discriminate.
  - intros c c' Hc. unfold initialize.
    destruct (_config c); [| discriminate]. intros [= <-]. exact Hc.
  - intros w Hw. unfold init_connection.
    destruct (_initialized (self w)); exact Hw.
  - intros w attempt current_time task Hw. unfold _connection_retry_loop.
    destruct (bool_decide (task ∈ loop_tasks w)); simpl; [| exact Hw].
    destruct (_connected (self w)) eqn:Hc; simpl.
    + intros _. by apply Hw.
    + destruct attempt as [e | cluster]; simpl; [| by eauto].
      intros Hc'. congruence.
Qed.

(** X6. [close] does not keep that invariant, and a later [initialize]
    does not repair it: after closing a connected client and
    initializing it again, the client still says connected although it
    holds no handle, so [get_cluster] returns [None] at once and the
    retry loop started by [init_connection] ends on its first turn
    without attempting to connect. *)
Theorem reinitialize_after_close_stays_disconnected
    (c : CouchbaseClient) (tasks : list Task) (next : Task)
    (attempt : result Cluster) (current_time : Q) :
  is_Some (_cluster c) →
  _connected c = true →
  is_Some (_config c) →
  ∃ c',
    initialize (close c) = inr c'
    ∧ ¬ handle_when_connected c'
    ∧ get_cluster (close c)
      = Raised (Error "RuntimeError" "Couchbase client not initialized")
    ∧ get_cluster c' = Ready None
    ∧ health_check c' = mkHealth true "healthy" None
    ∧ _cluster
        (self (_connection_retry_loop attempt current_time next
                 (init_connection (mkWorld c' tasks next))))
      = None
    ∧ (next ∉ loop_tasks
                 (_connection_retry_loop attempt current_time next
                    (init_connection (mkWorld c' tasks next)))).
Proof.
  intros [cluster Hcl] Hconn [conf Hconf].
  unfold close. rewrite Hcl. unfold initialize. simpl. rewrite Hconf.
  eexists. split; [reflexivity |].
  unfold handle_when_connected, get_cluster, _ensure_initialized,
    health_check, init_connection, _connection_retry_loop. simpl.
  rewrite Hconn. simpl.
  split; [intros H; destruct (H eq_refl) as [x Hx]; discriminate |].
  repeat (split; [reflexivity |]).
  rewrite bool_decide_eq_true_2 by (apply elem_of_app; right; by left).
  simpl. split; [reflexivity |].
  unfold finish. intros Hin.
  apply list_elem_of_filter in Hin as [Hne _]. by apply Hne.
Qed.

Lemma reinitialize_after_close_stays_disconnected_witness :
  ∃ c',
    initialize (close Examples.connected_client) = inr c'
    ∧ ¬ handle_when_connected c'
    ∧ get_cluster (close Examples.connected_client)
      = Raised (Error "RuntimeError" "Couchbase client not initialized")
    ∧ get_cluster c' = Ready None
    ∧ health_check c' = mkHealth true "healthy" None
    ∧ _cluster
        (self (_connection_retry_loop (inr Examples.cluster)
                 (inject_Z 1700000005) 1%nat
                 (init_connection (mkWorld c' [] 1%nat))))
      = None
    ∧ (1%nat ∉ loop_tasks
                  (_connection_retry_loop (inr Examples.cluster)
                     (inject_Z 1700000005) 1%nat
                     (init_connection (mkWorld c' [] 1%nat)))).
Proof.
  apply (reinitialize_after_close_stays_disconnected
           Examples.connected_client [] 1%nat (inr Examples.cluster)
           (inject_Z 1700000005)); simpl; eauto.
Defined.

(** X7. Warning throttle: a failed turn moves the last-warning time only
    to the current time, and only when at least 10 seconds have passed
    since the previous warning; afterwards fewer than 10 seconds separate
    the current time from the last warning. *)
Theorem retry_warning_throttled (w : World) (task : Task)
    (current_time : Q) (e : Exception) :
  task ∈ loop_tasks w →
  _connected (self w) = false →
  ∀ before after,
    before = _last_error_log_time (self w) →
    after
    = _last_error_log_time
        (self (_connection_retry_loop (inl e) current_time task w)) →
    ((after = current_time ∧ (inject_Z 10 <= current_time - before)%Q)
     ∨ (after = before ∧ (current_time - before < inject_Z 10)%Q))
    ∧ (current_time - after < inject_Z 10)%Q.
Proof.
  intros Htask Hconn before after -> ->.
  unfold _connection_retry_loop.
  rewrite bool_decide_eq_true_2 by exact Htask. rewrite Hconn. simpl.
  destruct (Qle_bool (inject_Z 10)
              (current_time - _last_error_log_time (self w))) eqn:Hle.
  - apply Qle_bool_iff in Hle. split; [left; by split |].
    destruct current_time as [n d]. unfold Qlt, Qminus, Qplus, Qopp. simpl.
    lia.
  - assert (Hlt : (current_time - _last_error_log_time (self w)
                   < inject_Z 10)%Q).
    { apply Qnot_le_lt. intros Hge. apply Qle_bool_iff in Hge. congruence. }
    split; [right; by split | exact Hlt].
Qed.

Lemma retry_warning_throttled_witness :
  _last_error_log_time
    (self (_connection_retry_loop (inl (Error "TimeoutException" "timeout"))
             (inject_Z 1700000004) 0%nat Examples.connecting))
  = inject_Z 1700000000.
Proof.
  destruct (proj1 (retry_warning_throttled Examples.connecting 0%nat
                     (inject_Z 1700000004)
                     (Error "TimeoutException" "timeout")
                     ltac:(by left) eq_refl _ _ eq_refl eq_refl))
    as [[_ Hge] | [Hafter _]].
  - exfalso. vm_compute in Hge. by apply Hge.
  - exact Hafter.
Defined.

End CouchbaseLifecycle.

(** ** The workflow, beyond the claims *)
Module RunFacts.
Import FileCompression FileCompressionWorkflow ArchiveLayout.

Ltac unfold_workflow :=
  unfold run, try_except, run_try, run_except, bind, ret, raise,
    execute_update_job_progress, execute_compress_files_zip,
    execute_compress_files_tar_gz, sleep in *.

Section AnyRuntime.
Context {S : Type} (rt : Runtime S) (lib : PyLib).

(** X17. Whatever the runtime and the library do, the last progress
    report of a run is a terminal one: completed with progress 100 when
    the run returns a result, failed with progress 0 when it raises. *)
Theorem run_ends_with_terminal_report (input : CompressionJobInput.t)
    (s s' : S) (history : list Event)
    (res : result CompressionJobResult.t) :
  run rt lib input (s, []) = ((s', history), res) →
  ∃ p,
    last (progress_reports history) = Some p
    ∧ Models.terminal (ProgressUpdate.status p) = true
    ∧ ProgressUpdate.job_id p = CompressionJobInput.job_id input
    ∧ match res with
      | inr _ => milestone p = ("completed", 100)
      | inl _ => milestone p = ("failed", 0)
      end.
Proof.
  intros Hrun. unfold_workflow.
  repeat case_match; simplify_eq; simpl; eexists; repeat split.
Qed.

(** X18. A run invokes an archive-building activity at most once, with
    the job specification it was given, and which one is decided by the
    lower-cased format alone: the zip activity only for "zip", the tar_gz
    activity only for "tar_gz"; a run that returns a result has invoked
    one. *)
Theorem run_builds_one_archive (input : CompressionJobInput.t)
    (s s' : S) (history : list Event)
    (res : result CompressionJobResult.t) :
  run rt lib input (s, []) = ((s', history), res) →
  (filter (fun a => is_archive_building a = true) (activities history) = []
   ∧ ∃ e, res = inl e)
  ∨ (filter (fun a => is_archive_building a = true) (activities history)
     = [CompressFilesZip input]
     ∧ lower (CompressionJobInput.compression_format input) = "zip")
  ∨ (filter (fun a => is_archive_building a = true) (activities history)
     = [CompressFilesTarGz input]
     ∧ lower (CompressionJobInput.compression_format input) = "tar_gz").
Proof.
  intros Hrun. unfold_workflow.
  repeat case_match; simplify_eq; simpl;
    repeat match goal with
           | H : String.eqb _ _ = true |- _ => apply String.eqb_eq in H
           end;
    first [ left; split; [reflexivity | eauto]
          | right; left; split; [reflexivity | assumption]
          | right; right; split; [reflexivity | assumption] ].
Qed.

(** When reporting returns and the archive-building activity chosen by
    the format raises [e0] for this input, the run raises the wrapped
    [e0] after the reports starting, preparing, compressing and failed. *)
Lemma run_archive_failure (input : CompressionJobInput.t) (s : S)
    (e0 : Exception) :
  reports_return rt →
  ¬ unsupported input →
  (lower (CompressionJobInput.compression_format input) = "zip" →
   ∀ s1, (exec_compress_files_zip rt s1 input 300).2 = inl e0) →
  (lower (CompressionJobInput.compression_format input) = "tar_gz" →
   ∀ s1, (exec_compress_files_tar_gz rt s1 input 300).2 = inl e0) →
  ∃ s' history,
    run rt lib input (s, []) =
    ((s', history),
     inl (ApplicationError ("Compression workflow failed: " +:+ str e0)))
    ∧ progress_reports history
      = take 3 (happy_path (CompressionJobInput.job_id input))
          ++ [failed_report (CompressionJobInput.job_id input) e0].
Proof.
  intros Hret Hfmt Hzip Htar. unfold reports_return in Hret.
  unfold_workflow.
  repeat case_match; simplify_eq; simpl;
    repeat match goal with
           | H : exec_update_job_progress rt ?s0 ?p ?t = (_, inl _) |- _ =>
               let X := fresh in
               pose proof (Hret s0 p t) as X; rewrite H in X; discriminate X
           | H : exec_compress_files_zip rt ?s0 input 300 = (_, _),
             E : String.eqb _ "zip" = true |- _ =>
               let X := fresh in
               pose proof (Hzip (proj1 (String.eqb_eq _ _) E) s0) as X;
               rewrite H in X; simpl in X; clear H; simplify_eq
           | H : exec_compress_files_tar_gz rt ?s0 input 300 = (_, _),
             E : String.eqb _ "tar_gz" = true |- _ =>
               let X := fresh in
               pose proof (Htar (proj1 (String.eqb_eq _ _) E) s0) as X;
               rewrite H in X; simpl in X; clear H; simplify_eq
           end;
    try (eexists _, _; split; reflexivity).
  exfalso. apply Hfmt. split; by apply String.eqb_neq.
Qed.

Section Preservation.
Context (R : S → S → Prop).
Hypothesis R_refl : ∀ s, R s s.
Hypothesis R_trans : ∀ s1 s2 s3, R s1 s2 → R s2 s3 → R s1 s3.

Lemma preserves_ret {A} (a : A) : preserves R (ret (S := S) a).
Proof. intros s h. apply R_refl. Qed.

Lemma preserves_raise {A} (e : Exception) :
  preserves R (raise (S := S) (A := A) e).
Proof. intros s h. apply R_refl. Qed.

Lemma preserves_bind {A B} (m : W (S := S) A) (k : A → W (S := S) B) :
  preserves R m → (∀ a, preserves R (k a)) → preserves R (bind m k).
Proof.
  intros Hm Hk s h. unfold bind. specialize (Hm s h).
  destruct (m (s, h)) as [[s1 h1] [e | a]]; simpl in *; [exact Hm |].
  eapply R_trans; [exact Hm | apply Hk].
Qed.

Lemma preserves_try_except {A} (body : W (S := S) A)
    (handler : Exception → W (S := S) A) :
  preserves R body → (∀ e, preserves R (handler e)) →
  preserves R (try_except body handler).
Proof.
  intros Hm Hk s h. unfold try_except. specialize (Hm s h).
  destruct (body (s, h)) as [[s1 h1] [e | a]]; simpl in *; [| exact Hm].
  eapply R_trans; [exact Hm | apply Hk].
Qed.

(** A relation that every request to the runtime respects is respected by
    the whole run. *)
Lemma run_preserves (input : CompressionJobInput.t) :
  (∀ s p t, R s (exec_update_job_progress rt s p t).1) →
  (∀ s i t, R s (exec_compress_files_zip rt s i t).1) →
  (∀ s i t, R s (exec_compress_files_tar_gz rt s i t).1) →
  (∀ s n, R s (exec_sleep rt s n)) →
  preserves R (run rt lib input).
Proof.
  intros Hp Hz Ht Hs.
  assert (Hreport : ∀ p t, preserves R (execute_update_job_progress rt p t)).
  { intros p t s h. unfold execute_update_job_progress.
    specialize (Hp s p t).
    by destruct (exec_update_job_progress rt s p t). }
  assert (Hzip : ∀ i t, preserves R (execute_compress_files_zip rt i t)).
  { intros i t s h. unfold execute_compress_files_zip.
    specialize (Hz s i t). by destruct (exec_compress_files_zip rt s i t). }
  assert (Htar : ∀ i t, preserves R (execute_compress_files_tar_gz rt i t)).
  { intros i t s h. unfold execute_compress_files_tar_gz.
    specialize (Ht s i t).
    by destruct (exec_compress_files_tar_gz rt s i t). }
  assert (Hsleep : ∀ n, preserves R (sleep rt n)).
  { intros n s h. apply Hs. }
  unfold run, run_try, run_except.
  apply preserves_try_except.
  - repeat first
      [ apply preserves_ret
      | apply Hreport
      | apply Hsleep
      | apply preserves_bind; [| intros ?] ].
    repeat case_match;
      first [apply Hzip | apply Htar | apply preserves_raise].
  - intros e. apply preserves_bind; [apply Hreport |].
    intros _. apply preserves_raise.
Qed.

End Preservation.

End AnyRuntime.

Lemma run_ends_with_terminal_report_witness :
  ∃ s' history res p,
    run (direct Stored.unavailable Stored.lib) Stored.lib
      Examples.undecodable_zip (Examples.start, [])
    = ((s', history), res)
    ∧ last (progress_reports history) = Some p
    ∧ Models.terminal (ProgressUpdate.status p) = true.
Proof.
  eexists _, _, _.
  edestruct (run_ends_with_terminal_report
               (direct Stored.unavailable Stored.lib) Stored.lib
               Examples.undecodable_zip Examples.start)
    as (p & Hlast & Hterminal & _); [vm_compute; reflexivity |].
  exists p. split; [vm_compute; reflexivity |].
  split; [exact Hlast | exact Hterminal].
Defined.

Lemma run_builds_one_archive_witness :
  ∃ s' history res,
    run (direct Stored.no_faults Stored.lib) Stored.lib Examples.hi_zip
      (Examples.start, [])
    = ((s', history), res)
    ∧ filter (fun a => is_archive_building a = true) (activities history)
      = [CompressFilesZip Examples.hi_zip].
Proof.
  eexists _, _, _. split; [vm_compute; reflexivity |].
  edestruct (run_builds_one_archive (direct Stored.no_faults Stored.lib)
               Stored.lib Examples.hi_zip Examples.start)
    as [[_ [e He]] | [[Hzip _] | [_ Htar]]]; [vm_compute; reflexivity | | |].
  - discriminate He.
  - exact Hzip.
  - discriminate Htar.
Defined.

Lemma ratio_at_most_100 (o c : Z) :
  0 <= c → (ratio o c <= inject_Z 100)%Q.
Proof.
  intros Hc. unfold ratio.
  destruct (Z.ltb_spec 0 o) as [Ho | _]; [| done].
  unfold Float.mul, Float.truediv.
  apply FloatFacts.fl_le_Z; [lia |].
  setoid_replace (inject_Z 100) with (inject_Z 1 * inject_Z 100)%Q
    using relation Qeq at 2 by ring.
  apply Qmult_le_compat_r; [| done].
  apply FloatFacts.fl_le_Z; [lia |]. by apply WorkflowFacts.quotient_le_1.
Qed.

Lemma ratio_nonnegative (o c : Z) :
  c <= o → (inject_Z 0 <= ratio o c)%Q.
Proof.
  intros Hc. unfold ratio.
  destruct (Z.ltb_spec 0 o) as [Ho | _]; [| done].
  unfold Float.mul, Float.truediv.
  apply FloatFacts.fl_nonneg. apply Qmult_le_0_compat; [| done].
  apply FloatFacts.fl_nonneg. by apply (WorkflowFacts.quotient_nonneg o c).
Qed.

(** The fields of the result of a successful run. *)
Lemma run_result_shape {S : Type} (rt : Runtime S) (lib : PyLib)
    (input : CompressionJobInput.t) (s s' : S) (history : list Event)
    (r : CompressionJobResult.t) :
  run rt lib input (s, []) = ((s', history), inr r) →
  CompressionJobResult.job_id r = CompressionJobInput.job_id input
  ∧ CompressionJobResult.original_size r
    = fold_left Z.add
        (map FileItem.size (CompressionJobInput.files input)) 0
  ∧ CompressionJobResult.compression_ratio r
    = ratio (CompressionJobResult.original_size r)
        (CompressionJobResult.compressed_size r)
  ∧ 0 <= CompressionJobResult.compressed_size r.
Proof.
  intros Hrun. unfold_workflow.
  repeat case_match; simplify_eq; simpl; repeat split; lia.
Qed.

(** X19. The compression ratio of a successful run never exceeds 100,
    whatever sizes the caller declared, and it is not negative when the
    archive is no longer than the declared original size. *)
Theorem run_ratio_bounds {S : Type} (rt : Runtime S) (lib : PyLib)
    (input : CompressionJobInput.t) (s s' : S) (history : list Event)
    (r : CompressionJobResult.t) :
  run rt lib input (s, []) = ((s', history), inr r) →
  (CompressionJobResult.compression_ratio r <= inject_Z 100)%Q
  ∧ 0 <= CompressionJobResult.compressed_size r
  ∧ (CompressionJobResult.compressed_size r
     <= CompressionJobResult.original_size r →
     (inject_Z 0 <= CompressionJobResult.compression_ratio r)%Q).
Proof.
  intros Hrun.
  destruct (run_result_shape rt lib input s s' history r Hrun)
    as (_ & _ & -> & Hc).
  split; [by apply ratio_at_most_100 |]. split; [exact Hc |].
  apply ratio_nonnegative.
Qed.

Lemma run_ratio_bounds_witness :
  ∃ s' history r,
    run (direct Stored.no_faults Stored.lib) Stored.lib Examples.hi_zip
      (Examples.start, [])
    = ((s', history), inr r)
    ∧ (CompressionJobResult.compression_ratio r <= inject_Z 100)%Q.
Proof.
  eexists _, _, _. split; [vm_compute; reflexivity |].
  eapply (run_ratio_bounds (direct Stored.no_faults Stored.lib) Stored.lib
            Examples.hi_zip Examples.start).
  vm_compute. reflexivity.
Defined.

(** *** The run with the activities executed directly *)

Lemma same_identity_trans (j1 j2 j3 : Models.CompressionJob) :
  Models.same_identity j1 j2 → Models.same_identity j2 j3 →
  Models.same_identity j1 j3.
Proof. unfold Models.same_identity. intuition congruence. Qed.

Lemma same_results_trans (j1 j2 j3 : Models.CompressionJob) :
  Models.same_results j1 j2 → Models.same_results j2 j3 →
  Models.same_results j1 j3.
Proof. unfold Models.same_results. intuition congruence. Qed.

Lemma keeps_rows_refl (session : Models.Session) : keeps_rows session session.
Proof.
  intros k. destruct (session !! k); [| done].
  unfold Models.same_identity, Models.same_results. auto 10.
Qed.

Lemma keeps_rows_trans (s1 s2 s3 : Models.Session) :
  keeps_rows s1 s2 → keeps_rows s2 s3 → keeps_rows s1 s3.
Proof.
  intros H12 H23 k. specialize (H12 k). specialize (H23 k).
  destruct (s1 !! k), (s2 !! k), (s3 !! k); try done.
  destruct H12, H23.
  split; eauto using same_identity_trans, same_results_trans.
Qed.

Lemma update_keeps_rows (now : Z) (session : Models.Session)
    (job_id : string) (p : Z) (s : string) (m : option string) :
  keeps_rows session
    (Models.update_compression_job_progress now session job_id p s m).1.
Proof.
  unfold Models.update_compression_job_progress.
  destruct (session !! job_id) as [job |] eqn:Hjob; simpl;
    [| apply keeps_rows_refl].
  intros k. destruct (decide (k = job_id)) as [-> | Hk].
  - rewrite Hjob, lookup_insert_eq.
    split; [apply ModelsFacts.apply_progress_identity
           | apply ModelsFacts.apply_progress_results].
  - rewrite lookup_insert_ne by done. apply keeps_rows_refl.
Qed.

Lemma report_keeps_rows (faults : Faults) (now : Z) (db : Db)
    (p : ProgressUpdate.t) :
  keeps_rows (db_session db)
    (db_session (update_job_progress faults now db p).1).
Proof.
  assert (Hsession :
    db_session (update_job_progress faults now db p).1
    = (update_job_progress_try faults now (db_session db) p).1).
  { unfold update_job_progress. simpl.
    by destruct (update_job_progress_try faults now (db_session db) p)
      as [session' [e | u]]. }
  rewrite Hsession.
  destruct (ActivityFacts.try_session_cases faults now (db_session db) p)
    as [-> | ->];
    [apply keeps_rows_refl | apply update_keeps_rows].
Qed.

(** The rows before and after a run under the direct runtime. *)
Lemma direct_run_keeps (faults : Faults) (lib : PyLib)
    (input : CompressionJobInput.t) (now : Z) (db : Db) :
  ∀ now' db' history res,
    run (direct faults lib) lib input ((now, db), [])
    = (((now', db'), history), res) →
    keeps_rows (db_session db) (db_session db').
Proof.
  intros now' db' history res Hrun.
  pose proof
    (run_preserves (direct faults lib) lib
       (fun s s' : Z * Db => keeps_rows (db_session s.2) (db_session s'.2))
       (fun s => keeps_rows_refl _)
       (fun s1 s2 s3 => keeps_rows_trans _ _ _) input) as Hpres.
  unfold preserves in Hpres.
  specialize (Hpres
    ltac:(intros [n d] p t; simpl;
          pose proof (report_keeps_rows faults n d p) as H;
          by destruct (update_job_progress faults n d p))
    ltac:(intros s i t; apply keeps_rows_refl)
    ltac:(intros s i t; apply keeps_rows_refl)
    ltac:(intros [n d] k; apply keeps_rows_refl)
    (now, db) []).
  by rewrite Hrun in Hpres.
Qed.

(** X20. Under the direct runtime, with any faults in the database
    calls, a run neither adds nor removes job records and never changes
    the identifying fields or the result fields of any record: progress
    reporting does not store compressed_size, compression_ratio or
    compressed_data. *)
Theorem direct_run_keeps_rows (faults : Faults) (lib : PyLib)
    (input : CompressionJobInput.t) (now : Z) (db : Db) :
  ∀ now' db' history res,
    run (direct faults lib) lib input ((now, db), [])
    = (((now', db'), history), res) →
    keeps_rows (db_session db) (db_session db')
    ∧ dom (db_session db') = dom (db_session db)
    ∧ (∀ k j, db_session db !! k = Some j →
         ∃ j', db_session db' !! k = Some j'
               ∧ Models.compressed_size j' = Models.compressed_size j
               ∧ Models.compression_ratio j' = Models.compression_ratio j
               ∧ Models.compressed_data j' = Models.compressed_data j).
Proof.
  intros now' db' history res Hrun.
  pose proof (direct_run_keeps faults lib input now db now' db' history res
                Hrun) as Hkeep.
  split; [exact Hkeep |]. split.
  - apply set_eq. intros k. rewrite !elem_of_dom. specialize (Hkeep k).
    destruct (db_session db !! k), (db_session db' !! k); try done;
      split; intros [x Hx]; (done || eauto).
  - intros k j Hj. specialize (Hkeep k). rewrite Hj in Hkeep.
    destruct (db_session db' !! k) as [j' |]; [| done].
    destruct Hkeep as [_ (H1 & H2 & H3)]. eauto.
Qed.

Lemma direct_run_keeps_rows_witness :
  ∃ now' db' history res,
    run (direct Stored.no_faults Stored.lib) Stored.lib Examples.hi_zip
      (Examples.start, [])
    = (((now', db'), history), res)
    ∧ keeps_rows Examples.pending_session (db_session db').
Proof.
  eexists _, _, _, _. split; [vm_compute; reflexivity |].
  eapply (direct_run_keeps_rows Stored.no_faults Stored.lib Examples.hi_zip
            10 (mkDb Examples.pending_session [])).
  vm_compute. reflexivity.
Defined.

(** X21. End to end, under the direct runtime and whatever the database
    does: when the format is supported, some file does not decode, the
    files before it do and, for the zip format, [writestr] accepts their
    names and zlib the level, the run raises "Compression workflow failed:
    Failed to decode file NAME: REASON" for that file, after the reports
    starting, preparing, compressing and failed. *)
Theorem direct_run_reports_first_bad_file (faults : Faults) (lib : PyLib)
    (input : CompressionJobInput.t) (s : Z * Db) (pre : list FileItem.t)
    (f : FileItem.t) (post : list FileItem.t) (e : Exception) :
  ¬ unsupported input →
  CompressionJobInput.files input = pre ++ f :: post →
  Forall (decodable lib) pre →
  (lower (CompressionJobInput.compression_format input) = "zip" →
   Forall (zip_accepts lib (CompressionJobInput.compression_level input))
     pre) →
  b64decode lib (FileItem.content f) = inl e →
  ∃ s' history,
    run (direct faults lib) lib input (s, [])
    = ((s', history),
       inl (ApplicationError
              ("Compression workflow failed: " +:+ "Failed to decode file "
                 +:+ FileItem.name f +:+ ": " +:+ str e)))
    ∧ map milestone (progress_reports history)
      = [("starting", 0); ("preparing", 25); ("compressing", 50);
         ("failed", 0)].
Proof.
  intros Hfmt Hfiles Hpre Hacc Hf.
  destruct (run_archive_failure (direct faults lib) lib input s
              (decode_failure f e)
              (WorkflowFacts.direct_report_returns faults lib) Hfmt)
    as (s' & history & Hrun & Hreports).
  - intros Hz s1. simpl.
    by rewrite (FileCompressionFacts.compress_files_zip_first_failure lib
                  input pre f post e Hfiles (Hacc Hz) Hf).
  - intros _ s1. simpl. unfold compress_files_tar_gz. rewrite Hfiles.
    by rewrite (FileCompressionFacts.tar_gz_loop_first_failure lib pre f
                  post e Hpre Hf).
  - exists s', history. split; [exact Hrun |]. by rewrite Hreports.
Qed.

Lemma direct_run_reports_first_bad_file_witness :
  ∃ s' history,
    run (direct Stored.unavailable Stored.lib) Stored.lib
      Examples.undecodable_zip (Examples.start, [])
    = ((s', history),
       inl (ApplicationError
              ("Compression workflow failed: " +:+ "Failed to decode file "
                 +:+ "a.txt" +:+ ": "
                 +:+ "Invalid base64-encoded string: number of data "
                 +:+ "characters (1) cannot be 1 more than a multiple of 4")))
    ∧ map milestone (progress_reports history)
      = [("starting", 0); ("preparing", 25); ("compressing", 50);
         ("failed", 0)].
Proof.
  apply (direct_run_reports_first_bad_file Stored.unavailable Stored.lib
           Examples.undecodable_zip Examples.start []
           (FileItem.mk "a.txt" "a" 1) []
           (Error "binascii.Error"
              ("Invalid base64-encoded string: number of data "
                 +:+ "characters (1) cannot be 1 more than a multiple of 4"))).
  - intros [Hz _]. by apply Hz.
  - reflexivity.
  - constructor.
  - intros _. constructor.
  - reflexivity.
Defined.

Lemma direct_report (faults : Faults) (lib : PyLib) (now : Z)
    (session : Models.Session) (log : Log) (job_id : string) (p : Z)
    (st : string) (m : option string) (t : Z) (j : Models.CompressionJob) :
  (∀ step, faults step = None) →
  session !! job_id = Some j →
  ∃ log',
    exec_update_job_progress (direct faults lib) (now, mkDb session log)
      (ProgressUpdate.mk job_id p st m) t
    = ((now,
        mkDb (<[job_id := Models.apply_progress now p st m j]> session) log'),
       inr tt).
Proof.
  intros Hok Hj. simpl.
  unfold update_job_progress, update_job_progress_try, session_update, call.
  simpl. rewrite !Hok.
  rewrite (ModelsFacts.update_found _ _ _ _ _ _ _ Hj). simpl.
  eauto.
Qed.

Ltac report Hok H :=
  match type of H with
  | context [exec_update_job_progress (direct ?f ?l) (?n, mkDb ?se ?lg)
               (ProgressUpdate.mk ?id ?p ?st ?m) ?t] =>
      let lg' := fresh "log" in
      let E := fresh "E" in
      edestruct (direct_report f l n se lg id p st m t) as [lg' E];
      [ exact Hok
      | first [eassumption | apply lookup_insert_eq]
      | rewrite E in H; clear E; cbv beta iota zeta in H ]
  end.

(** The record of the job after a run under the direct runtime with a
    working database. *)
Lemma direct_run_record (faults : Faults) (lib : PyLib)
    (input : CompressionJobInput.t) (now : Z) (db : Db)
    (j : Models.CompressionJob) :
  (∀ step, faults step = None) →
  db_session db !! CompressionJobInput.job_id input = Some j →
  ∀ now' db' history res,
    run (direct faults lib) lib input ((now, db), [])
    = (((now', db'), history), res) →
    ∃ j',
      db_session db' !! CompressionJobInput.job_id input = Some j'
      ∧ now' = now + 1
      ∧ Models.started_at j' = Some (default now (Models.started_at j))
      ∧ Models.completed_at j' = Some (now + 1)
      ∧ match res with
        | inr r =>
            Models.status j' = "completed" ∧ Models.progress j' = 100
            ∧ Models.message j' = Some "Compression completed successfully"
        | inl e =>
            Models.status j' = "failed" ∧ Models.progress j' = 0
            ∧ ∃ e0,
                Models.message j' = Some ("Compression failed: " +:+ str e0)
                ∧ e = ApplicationError
                        ("Compression workflow failed: " +:+ str e0)
        end.
Proof.
  intros Hok Hj now' db' history res Hrun.
  destruct db as [session log]. simpl in Hj.
  unfold run, try_except, run_try, run_except, bind, ret, raise,
    execute_update_job_progress, execute_compress_files_zip,
    execute_compress_files_tar_gz, sleep in Hrun.
  cbv beta iota zeta in Hrun.
  report Hok Hrun. report Hok Hrun.
  change (exec_sleep (direct faults lib) ?s 1)
    with (let '(n, d) := s in (n + 1, d)) in Hrun.
  cbv beta iota zeta in Hrun.
  report Hok Hrun.
  change (exec_compress_files_zip (direct faults lib) ?s input 300)
    with (s, compress_files_zip lib input) in Hrun.
  change (exec_compress_files_tar_gz (direct faults lib) ?s input 300)
    with (s, compress_files_tar_gz lib input) in Hrun.
  destruct (String.eqb (lower (CompressionJobInput.compression_format input))
              "zip");
    [| destruct (String.eqb
                   (lower (CompressionJobInput.compression_format input))
                   "tar_gz")];
    cbv beta iota zeta in Hrun;
    [ destruct (compress_files_zip lib input) as [e0 | archive]
    | destruct (compress_files_tar_gz lib input) as [e0 | archive]
    | ];
    cbv beta iota zeta in Hrun;
    repeat report Hok Hrun;
    simplify_eq;
    (eexists; split; [apply lookup_insert_eq |]);
    destruct j as [i w st pr ms fc os cs cr cf ca [sa |] co cd];
    simpl; repeat split; eauto.
  all: exists (ApplicationError
                 ("Unsupported compression format: "
                    +:+ CompressionJobInput.compression_format input));
    split; reflexivity.
Qed.



End RunFacts.

(** ** The job routes *)
Module RoutesFacts.
Import FileCompression FileCompressionWorkflow Routes ArchiveLayout.

(** X23. The download route answers with the archive exactly when the
    job exists, its status is "completed", its stored data is a
    non-empty string and that string decodes; the body is then the
    decoded data and Content-Length is its length.  A job whose status is
    not "completed" is answered 400 whether or not it holds data. *)
Theorem download_succeeds_iff (lib : PyLib) (session : Models.Session)
    (job_id' : string) :
  (∀ resp,
     download_compressed_file lib session job_id' = inr resp
     ↔ ∃ job d data,
         session !! job_id' = Some job
         ∧ Models.status job = "completed"
         ∧ Models.compressed_data job = Some d ∧ d ≠ ""
         ∧ b64decode lib d = inr data
         ∧ resp_content resp = data
         ∧ media_type resp = "application/octet-stream"
         ∧ headers resp
           = [("Content-Disposition",
               "attachment; filename=compressed-" +:+ job_id' +:+ "."
                 +:+ (if String.eqb (Models.compression_format job) "zip"
                      then "zip" else "tar.gz"));
              ("Content-Length", pretty (length data))])
  ∧ (∀ job, session !! job_id' = Some job →
            Models.status job ≠ "completed" →
            download_compressed_file lib session job_id'
            = inl (mkHTTPException 400
                     ("Job is not completed. Current status: "
                        +:+ Models.status job))).
Proof.
  unfold download_compressed_file, Models.get_compression_job. split.
  - intros resp. split.
    + destruct (session !! job_id') as [job |]; [| discriminate].
      destruct (String.eqb_spec (Models.status job) "completed") as [Hs | Hs];
        simpl; [| discriminate].
      destruct (Models.compressed_data job) as [d |] eqn:Hd; simpl;
        [| discriminate].
      destruct (String.eqb_spec d "") as [-> | Hne]; simpl; [discriminate |].
      destruct (b64decode lib d) as [e | data] eqn:Hdec; [discriminate |].
      intros [= <-]. exists job, d, data. simpl.
      repeat (split; [done |]). reflexivity.
    + intros (job & d & data & -> & Hs & Hd & Hne & Hdec & Hc & Hm & Hh).
      rewrite Hs, Hd. simpl.
      destruct (String.eqb_spec d "") as [-> | _]; [done |]. simpl.
      rewrite Hdec. destruct resp as [c m h]. simpl in *. subst.
      reflexivity.
  - intros job -> Hs.
    destruct (String.eqb_spec (Models.status job) "completed"); [done |].
    reflexivity.
Qed.

Lemma download_succeeds_iff_witness :
  download_compressed_file Stored.lib Examples.pending_session "j1"
  = inl (mkHTTPException 400
           ("Job is not completed. Current status: " +:+ "pending")).
Proof.
  apply (proj2 (download_succeeds_iff Stored.lib Examples.pending_session
                  "j1") Examples.pending_job eq_refl).
  discriminate.
Defined.

(** X24. After a successful run under the direct runtime, with a working
    database, of a job whose record holds no compressed data (as every
    record made by the submission route), the record is "completed" but
    still holds no data, and the download route answers 404 "Compressed
    data not available": the archive is only in the workflow's result. *)
Theorem download_after_run_has_no_data (faults : Faults) (lib : PyLib)
    (input : CompressionJobInput.t) (now : Z) (db : Db)
    (j : Models.CompressionJob) :
  (∀ step, faults step = None) →
  db_session db !! CompressionJobInput.job_id input = Some j →
  Models.compressed_data j = None →
  ∀ now' db' history r,
    run (direct faults lib) lib input ((now, db), [])
    = (((now', db'), history), inr r) →
    ∃ j',
      db_session db' !! CompressionJobInput.job_id input = Some j'
      ∧ Models.status j' = "completed"
      ∧ Models.compressed_data j' = None
      ∧ download_compressed_file lib (db_session db')
          (CompressionJobInput.job_id input)
        = inl (mkHTTPException 404 "Compressed data not available").
Proof.
  intros Hok Hj Hdata now' db' history r Hrun.
  destruct (RunFacts.direct_run_record faults lib input now db j Hok Hj
              now' db' history (inr r) Hrun)
    as (j' & Hj' & _ & _ & _ & Hs & _).
  pose proof (RunFacts.direct_run_keeps faults lib input now db now' db'
                history (inr r) Hrun (CompressionJobInput.job_id input))
    as Hkeep.
  rewrite Hj, Hj' in Hkeep. destruct Hkeep as [_ (_ & _ & Hd)].
  rewrite Hdata in Hd.
  exists j'. repeat (split; [assumption |]).
  unfold download_compressed_file, Models.get_compression_job.
  rewrite Hj', Hs, Hd. reflexivity.
Qed.

Lemma download_after_run_has_no_data_witness :
  ∃ now' db' history r,
    run (direct Stored.no_faults Stored.lib) Stored.lib Examples.hi_zip
      (Examples.start, [])
    = (((now', db'), history), inr r)
    ∧ download_compressed_file Stored.lib (db_session db') "j1"
      = inl (mkHTTPException 404 "Compressed data not available").
Proof.
  eexists _, _, _, _. split; [vm_compute; reflexivity |].
  edestruct (download_after_run_has_no_data Stored.no_faults Stored.lib
               Examples.hi_zip 10 (mkDb Examples.pending_session [])
               Examples.pending_job (fun _ => eq_refl) eq_refl eq_refl)
    as (j' & _ & _ & _ & Hdl); [vm_compute; reflexivity |].
  exact Hdl.
Defined.

Lemma sizes_of_workflow_input (job_id' : string)
    (req : CompressionJobRequest) :
  fold_left Z.add
    (map FileItem.size
       (CompressionJobInput.files (workflow_input job_id' req))) 0
  = Models.original_size (new_job 0 job_id' req).
Proof. simpl. by rewrite map_map. Qed.

(** X25. An accepted submission (Temporal enabled, at least one file, a
    fresh identifier, the workflow started): the job table gains exactly
    the pending record with progress 0, file_count the number of files
    and original_size the sum of the declared sizes; one file row per
    request entry is stored; the response shows that record, and reading
    the job back through the status route gives the same response. *)
Theorem create_route_stores_pending_job (env : Env)
    (session : ModelsFiles.Tables) (req : CompressionJobRequest) :
  USE_TEMPORAL env = true →
  req_files req ≠ [] →
  ModelsFiles.jobs session !! uuid4 env = None →
  start_workflow env ("compression-" +:+ uuid4 env)
    (workflow_input (uuid4 env) req) = None →
  ∃ session' resp,
    create_compression_job_route env session req = (session', inr resp)
    ∧ ModelsFiles.jobs session'
      = <[uuid4 env := new_job (utcnow env) (uuid4 env) req]>
          (ModelsFiles.jobs session)
    ∧ job_id resp = uuid4 env
    ∧ workflow_id resp = "compression-" +:+ uuid4 env
    ∧ status resp = "pending" ∧ progress resp = 0
    ∧ file_count resp = Z.of_nat (length (req_files req))
    ∧ original_size resp
      = fold_left Z.add (map ModelsFiles.fd_size (req_files req)) 0
    ∧ get_compression_job_route (isoformat env) (ModelsFiles.jobs session')
        (uuid4 env)
      = inr resp
    ∧ ∃ rows,
        ModelsFiles.files session' = ModelsFiles.files session ++ rows
        ∧ map ModelsFiles.file_data_of rows = req_files req
        ∧ Forall (fun row => ModelsFiles.job_id row = uuid4 env) rows.
Proof.
  intros Htemporal Hfiles Hfresh Hstart.
  unfold create_compression_job_route. rewrite Htemporal. simpl.
  destruct (req_files req) as [| f fs] eqn:Hreq; [done |].
  rewrite Hstart. rewrite <- Hreq.
  eexists _, _. split; [reflexivity |]. simpl.
  split; [reflexivity |].
  repeat (split; [reflexivity |]).
  split.
  - unfold get_compression_job_route, Models.get_compression_job.
    by rewrite lookup_insert_eq.
  - eexists. split; [reflexivity |].
    destruct (FilesFacts.new_files_job (pk env) (utcnow env) (uuid4 env)
                (req_files req) 0) as [Hall Hmap].
    split; assumption.
Qed.

Lemma create_route_stores_pending_job_witness :
  ∃ session' resp,
    create_compression_job_route
      (mkEnv true "j1" (fun i => pretty i) 10 (fun _ _ => None)
         (fun t => pretty t))
      (ModelsFiles.mkTables ∅ [])
      (mkCompressionJobRequest [ModelsFiles.mkFileData "a.txt" "aGk=" 2]
         "zip" 6)
    = (session', inr resp)
    ∧ status resp = "pending" ∧ original_size resp = 2.
Proof.
  edestruct (create_route_stores_pending_job
               (mkEnv true "j1" (fun i => pretty i) 10 (fun _ _ => None)
                  (fun t => pretty t))
               (ModelsFiles.mkTables ∅ [])
               (mkCompressionJobRequest
                  [ModelsFiles.mkFileData "a.txt" "aGk=" 2] "zip" 6))
    as (session' & resp & Hroute & _ & _ & _ & Hs & _ & _ & Ho & _);
    [reflexivity | discriminate | reflexivity | reflexivity |].
  exists session', resp. split; [exact Hroute |].
  split; [exact Hs | exact Ho].
Defined.

(** X26. A submission whose workflow cannot be started is answered 500
    with the text of the exception, and its record stays in the table as
    a failed job: status "failed", progress 0, the message "Failed to
    start workflow: ...", completed_at set, file rows stored. *)
Theorem create_route_start_failure (env : Env)
    (session : ModelsFiles.Tables) (req : CompressionJobRequest)
    (e : Exception) :
  USE_TEMPORAL env = true →
  req_files req ≠ [] →
  ModelsFiles.jobs session !! uuid4 env = None →
  start_workflow env ("compression-" +:+ uuid4 env)
    (workflow_input (uuid4 env) req) = Some e →
  ∃ session' j',
    create_compression_job_route env session req
    = (session',
       inl (mkHTTPException 500
              ("Failed to start compression workflow: " +:+ str e)))
    ∧ ModelsFiles.jobs session' !! uuid4 env = Some j'
    ∧ Models.status j' = "failed" ∧ Models.progress j' = 0
    ∧ Models.message j' = Some ("Failed to start workflow: " +:+ str e)
    ∧ Models.completed_at j' = Some (utcnow env)
    ∧ Models.started_at j' = None
    ∧ Models.same_identity (new_job (utcnow env) (uuid4 env) req) j'
    ∧ length (ModelsFiles.files session')
      = (length (ModelsFiles.files session) + length (req_files req))%nat.
Proof.
  intros Htemporal Hfiles Hfresh Hstart.
  unfold create_compression_job_route. rewrite Htemporal. simpl.
  destruct (req_files req) as [| f fs] eqn:Hreq; [done |].
  rewrite Hstart. rewrite <- Hreq.
  unfold Models.create_compression_job. simpl.
  rewrite (ModelsFacts.update_found _ _ _ _ _ _ _ (lookup_insert_eq _ _ _)).
  eexists _, _. split; [reflexivity |]. simpl.
  split; [apply lookup_insert_eq |].
  repeat (split; [reflexivity |]).
  split; [repeat split |].
  rewrite length_app. f_equal.
  destruct (FilesFacts.new_files_job (pk env) (utcnow env) (uuid4 env)
              (req_files req) 0) as [_ Hmap].
  rewrite <- Hmap at 2. by rewrite length_map.
Qed.

Lemma create_route_start_failure_witness :
  ∃ session' j',
    create_compression_job_route
      (mkEnv true "j1" (fun i => pretty i) 10
         (fun _ _ => Some (Error "RPCError" "unavailable"))
         (fun t => pretty t))
      (ModelsFiles.mkTables ∅ [])
      (mkCompressionJobRequest [ModelsFiles.mkFileData "a.txt" "aGk=" 2]
         "zip" 6)
    = (session',
       inl (mkHTTPException 500
              ("Failed to start compression workflow: " +:+ "unavailable")))
    ∧ ModelsFiles.jobs session' !! "j1" = Some j'
    ∧ Models.status j' = "failed".
Proof.
  edestruct (create_route_start_failure
               (mkEnv true "j1" (fun i => pretty i) 10
                  (fun _ _ => Some (Error "RPCError" "unavailable"))
                  (fun t => pretty t))
               (ModelsFiles.mkTables ∅ [])
               (mkCompressionJobRequest
                  [ModelsFiles.mkFileData "a.txt" "aGk=" 2] "zip" 6)
               (Error "RPCError" "unavailable"))
    as (session' & j' & Hroute & Hj' & Hs & _);
    [reflexivity | discriminate | reflexivity | reflexivity |].
  exists session', j'. auto.
Defined.

(** X27. The submission route and the workflow agree: for the workflow
    input that the route builds, every successful run, under any
    runtime, returns the job id of the stored record and an original_size
    equal to the record's original_size, and the input has as many files
    as the record's file_count. *)
Theorem route_and_workflow_agree {S : Type} (rt : Runtime S) (lib : PyLib)
    (now : Z) (job_id' : string) (req : CompressionJobRequest) (s s' : S)
    (history : list Event) (r : CompressionJobResult.t) :
  run rt lib (workflow_input job_id' req) (s, []) = ((s', history), inr r) →
  CompressionJobResult.job_id r = Models.id (new_job now job_id' req)
  ∧ CompressionJobResult.original_size r
    = Models.original_size (new_job now job_id' req)
  ∧ Z.of_nat
      (length (CompressionJobInput.files (workflow_input job_id' req)))
    = Models.file_count (new_job now job_id' req)
  ∧ CompressionJobInput.compression_format (workflow_input job_id' req)
    = Models.compression_format (new_job now job_id' req).
Proof.
  intros Hrun.
  destruct (RunFacts.run_result_shape rt lib _ s s' history r Hrun)
    as (Hid & Ho & _).
  split; [exact Hid |]. split.
  - rewrite Ho. apply sizes_of_workflow_input.
  - simpl. by rewrite length_map.
Qed.

Lemma route_and_workflow_agree_witness :
  ∃ s' history r,
    run (direct Stored.no_faults Stored.lib) Stored.lib
      (workflow_input "j1"
         (mkCompressionJobRequest [ModelsFiles.mkFileData "a.txt" "aGk=" 2]
            "zip" 6))
      (Examples.start, [])
    = ((s', history), inr r)
    ∧ CompressionJobResult.original_size r = 2.
Proof.
  eexists _, _, _. split; [vm_compute; reflexivity |].
  eapply (route_and_workflow_agree (direct Stored.no_faults Stored.lib)
            Stored.lib 10 "j1"
            (mkCompressionJobRequest
               [ModelsFiles.mkFileData "a.txt" "aGk=" 2] "zip" 6)
            Examples.start).
  vm_compute. reflexivity.
Defined.

Lemma upload_file_data_inr (lib : PyLib) (uploads : list UploadFile) :
  ∀ file_data,
    upload_file_data lib uploads = inr file_data →
    Forall2 (uploaded_as lib) uploads file_data.
Proof.
  induction uploads as [| u uploads IH]; intros file_data; simpl.
  - intros [= <-]. constructor.
  - destruct (read u) as [e | content] eqn:Hread; [discriminate |].
    destruct (upload_file_data lib uploads) as [h | rest]; [discriminate |].
    intros [= <-]. constructor; [| by apply IH].
    split; [reflexivity |]. exists content. auto.
Qed.

(** X28. Files that arrive through the upload route are declared with
    their true sizes and carry the encoding of their bytes.  So, when the
    encoding of each upload decodes back to its bytes, the format is
    supported, the level is one that zlib accepts (-1 to 9) and every
    file name is one that [writestr] accepts, the workflow input built
    from them runs to a result under the direct runtime, whatever the
    database does, and the result's original_size is the total number of
    bytes uploaded. *)
Theorem upload_then_run (faults : Faults) (lib : PyLib)
    (uploads : list UploadFile) (file_data : list ModelsFiles.FileData)
    (job_id' : string) (compression_format : string)
    (compression_level : Z) (s : Z * Db) :
  upload_file_data lib uploads = inr file_data →
  (∀ u content, u ∈ uploads → read u = inr content →
                b64decode lib (b64encode lib content) = inr content) →
  ¬ unsupported
      (workflow_input job_id'
         (mkCompressionJobRequest file_data compression_format
            compression_level)) →
  -1 <= compression_level <= 9 →
  Forall (fun u => zip_name_ok (upload_filename u)) uploads →
  Forall2 (uploaded_as lib) uploads file_data
  ∧ ∃ st' r,
      run (direct faults lib) lib
        (workflow_input job_id'
           (mkCompressionJobRequest file_data compression_format
              compression_level)) (s, [])
      = (st', inr r)
      ∧ CompressionJobResult.original_size r
        = fold_left Z.add (map ModelsFiles.fd_size file_data) 0.
Proof.
  intros Hupload Hround Hfmt Hlevel Hnames.
  pose proof (upload_file_data_inr lib uploads file_data Hupload) as Hall.
  split; [exact Hall |].
  assert (Hacc :
    Forall (zip_accepts lib compression_level)
      (CompressionJobInput.files
         (workflow_input job_id'
            (mkCompressionJobRequest file_data compression_format
               compression_level)))).
  { simpl. apply Forall_map. clear Hupload Hfmt.
    assert (Hround' : ∀ u, u ∈ uploads → ∀ content, read u = inr content →
              b64decode lib (b64encode lib content) = inr content)
      by eauto.
    clear Hround. induction Hall as [| u fd us fds Hu _ IH];
      constructor.
    - apply Forall_cons in Hnames as [Hname _].
      destruct Hu as (Hn & content & Hread & Hc & _).
      split; [| split; [| exact Hlevel]].
      + exists content. simpl. rewrite Hc.
        apply (Hround' u); [by left | exact Hread].
      + simpl. by rewrite Hn.
    - apply Forall_cons in Hnames as [_ Hrest].
      apply IH; [exact Hrest |].
      intros u' Hu' content. apply Hround'. by right. }
  destruct (WorkflowFacts.run_direct_succeeds faults lib _ (s, []) Hfmt
              Hlevel Hacc)
    as (st' & r & Hrun).
  exists st', r. split; [exact Hrun |].
  destruct st' as [s' history].
  destruct (RunFacts.run_result_shape _ lib _ s s' history r Hrun)
    as (_ & Ho & _).
  rewrite Ho. simpl. by rewrite map_map.
Qed.

Lemma upload_then_run_witness :
  ∃ st' r,
    run (direct Stored.unavailable Stored.lib) Stored.lib
      (workflow_input "j1"
         (mkCompressionJobRequest
            [ModelsFiles.mkFileData "a.txt" "aGk=" 2] "zip" 6))
      (Examples.start, [])
    = (st', inr r)
    ∧ CompressionJobResult.original_size r = 2.
Proof.
  edestruct (upload_then_run Stored.unavailable Stored.lib
               [mkUploadFile "a.txt" (inr [Byte.x68; Byte.x69])]
               [ModelsFiles.mkFileData "a.txt" "aGk=" 2] "j1" "zip" 6
               Examples.start)
    as (_ & st' & r & Hrun & Ho).
  - reflexivity.
  - intros u content Hu. apply list_elem_of_singleton in Hu as ->.
    intros [= <-]. reflexivity.
  - intros [Hz _]. by apply Hz.
  - lia.
  - constructor; [| constructor]. split; [discriminate | simpl; lia].
  - exists st', r. split; [exact Hrun | exact Ho].
Defined.

(** X29. The upload route stores nothing unless every upload can be
    read: with no uploads it answers 400, and when reading an upload
    raises it answers 500 naming the first such file (in upload order)
    with the text of the exception; in both cases the tables are
    unchanged and no workflow is started. *)
Theorem upload_route_rejects (env : Env) (lib : PyLib)
    (session : ModelsFiles.Tables) (compression_format : string)
    (compression_level : Z) :
  upload_and_compress_files env lib session [] compression_format
    compression_level
  = (session, inl (mkHTTPException 400 "No files uploaded"))
  ∧ (∀ pre u post e,
       Forall (fun v => ∃ content, read v = inr content) pre →
       read u = inl e →
       upload_and_compress_files env lib session (pre ++ u :: post)
         compression_format compression_level
       = (session,
          inl (mkHTTPException 500
                 ("Failed to process file " +:+ upload_filename u +:+ ": "
                    +:+ str e)))).
Proof.
  split; [reflexivity |].
  intros pre u post e Hpre Hu.
  assert (Hdata :
    upload_file_data lib (pre ++ u :: post)
    = inl (mkHTTPException 500
             ("Failed to process file " +:+ upload_filename u +:+ ": "
                +:+ str e))).
  { induction Hpre as [| v pre [content Hv] _ IH]; simpl.
    - by rewrite Hu.
    - by rewrite Hv, IH. }
  unfold upload_and_compress_files. rewrite Hdata.
  by destruct (pre ++ u :: post) eqn:Hl; [destruct pre |].
Qed.

Lemma upload_route_rejects_witness :
  upload_and_compress_files
    (mkEnv true "j1" (fun i => pretty i) 10 (fun _ _ => None)
       (fun t => pretty t))
    Stored.lib (ModelsFiles.mkTables ∅ [])
    ([mkUploadFile "a.txt" (inr [Byte.x68; Byte.x69])]
       ++ mkUploadFile "b.txt" (inl (Error "OSError" "disk")) :: [])
    "zip" 6
  = (ModelsFiles.mkTables ∅ [],
     inl (mkHTTPException 500
            ("Failed to process file " +:+ "b.txt" +:+ ": " +:+ "disk"))).
Proof.
  apply (proj2 (upload_route_rejects
                  (mkEnv true "j1" (fun i => pretty i) 10 (fun _ _ => None)
                     (fun t => pretty t))
                  Stored.lib (ModelsFiles.mkTables ∅ []) "zip" 6)
           [mkUploadFile "a.txt" (inr [Byte.x68; Byte.x69])]
           (mkUploadFile "b.txt" (inl (Error "OSError" "disk"))) []
           (Error "OSError" "disk")).
  - constructor; [by eexists | constructor].
  - reflexivity.
Defined.

End RoutesFacts.

(** ** The health route's service checks *)
Module ServiceChecksFacts.
Import ServiceChecks.

Lemma couchbase_connected (c : Couchbase.CouchbaseClient) :
  get_connected (couchbase_dict (Couchbase.health_check c))
  = Couchbase._initialized c && Couchbase._connected c.
Proof.
  unfold Couchbase.health_check.
  destruct (Couchbase._initialized c), (Couchbase._connected c); simpl;
    try reflexivity.
  unfold get_connected, couchbase_dict. simpl.
  by destruct (Couchbase._last_connection_error c).
Qed.

Lemma check_postgres_status conf app filter hs :
  hs_status (check_postgres conf app filter hs)
  = if selected filter "postgres" && USE_POSTGRES conf
       && negb (get_connected (postgres_client app))
    then "degraded" else hs_status hs.
Proof.
  unfold check_postgres, degrade_unless_connected.
  destruct (selected filter "postgres"), (USE_POSTGRES conf),
    (get_connected (postgres_client app)); reflexivity.
Qed.

Lemma check_couchbase_status conf app filter hs :
  hs_status (check_couchbase conf app filter hs)
  = if selected filter "couchbase" && USE_COUCHBASE conf
       && negb (get_connected
                  (couchbase_dict
                     (Couchbase.health_check (couchbase_client app))))
    then "degraded" else hs_status hs.
Proof.
  unfold check_couchbase, degrade_unless_connected.
  destruct (selected filter "couchbase"), (USE_COUCHBASE conf),
    (get_connected
       (couchbase_dict (Couchbase.health_check (couchbase_client app))));
    reflexivity.
Qed.

Lemma check_temporal_status conf app filter hs :
  hs_status (check_temporal conf app filter hs)
  = if selected filter "temporal" && USE_TEMPORAL conf
       && negb (get_connected (temporal_health (temporal_client app)))
    then "degraded" else hs_status hs.
Proof.
  unfold check_temporal, degrade_unless_connected.
  destruct (selected filter "temporal"), (USE_TEMPORAL conf),
    (get_connected (temporal_health (temporal_client app))); reflexivity.
Qed.

Lemma check_twilio_status conf app filter hs :
  hs_status (check_twilio conf app filter hs) = hs_status hs.
Proof.
  unfold check_twilio.
  by destruct (selected filter "twilio"), (USE_TWILIO conf).
Qed.

(** X30. The overall status after the service checks is "degraded"
    exactly when it was already, or when PostgreSQL, Couchbase or
    Temporal is selected by the filter, enabled, and does not report a
    true "connected"; otherwise the status is left as it was.  Twilio
    never degrades the status, a disabled service never does, and an
    empty filter list selects every service, like no filter.  For
    Couchbase, "connected" is true exactly when the client is initialized
    and connected. *)
Theorem service_checks_status (conf : Conf) (app : AppState)
    (health_status : HealthStatus) (services_filter : option (list string)) :
  (hs_status (_check_all_services conf app health_status services_filter)
   = if degrading conf app services_filter then "degraded"
     else hs_status health_status)
  ∧ (hs_status (_check_all_services conf app health_status services_filter)
     = "degraded"
     ↔ hs_status health_status = "degraded"
       ∨ degrading conf app services_filter = true)
  ∧ _check_all_services conf app health_status (Some [])
    = _check_all_services conf app health_status None
  ∧ get_connected
      (couchbase_dict (Couchbase.health_check (couchbase_client app)))
    = Couchbase._initialized (couchbase_client app)
      && Couchbase._connected (couchbase_client app).
Proof.
  assert (Hstatus :
    hs_status (_check_all_services conf app health_status services_filter)
    = if degrading conf app services_filter then "degraded"
      else hs_status health_status).
  { unfold _check_all_services, degrading.
    rewrite check_twilio_status, check_temporal_status,
      check_couchbase_status, check_postgres_status.
    destruct (selected services_filter "postgres" && USE_POSTGRES conf
              && negb (get_connected (postgres_client app)));
      destruct (selected services_filter "couchbase" && USE_COUCHBASE conf
                && negb (get_connected
                           (couchbase_dict
                              (Couchbase.health_check
                                 (couchbase_client app)))));
      destruct (selected services_filter "temporal" && USE_TEMPORAL conf
                && negb (get_connected
                           (temporal_health (temporal_client app))));
      reflexivity. }
  split; [exact Hstatus |]. split; [| split].
  - rewrite Hstatus.
    destruct (degrading conf app services_filter); split; auto.
    intros [H | H]; [exact H | discriminate].
  - reflexivity.
  - apply couchbase_connected.
Qed.

End ServiceChecksFacts.
